(** * The Sparkify data-lake job ([etl.py]) as a shallow embedding

    The job reads two JSON datasets through a dataframe engine, reshapes
    them by projection, de-duplication, id generation and timestamp
    decomposition, and saves five relations.  The embedding has four
    layers: cell values and the Python arithmetic of the two lambdas, a
    small model of the dataframe operations the script calls, the job
    monad (state and exceptions) with the three functions of [etl.py], and
    the theorems. *)

From Stdlib Require Import ZArith QArith Qcanon Lia.

From stdpp Require Import base tactics option list numbers strings gmap.

Local Open Scope string_scope.

Local Open Scope list_scope.

Local Open Scope Z_scope.

(** ** Exceptions and results *)

Inductive Error :=
  | FileNotFoundError (path : string)
  | ParsingError
  | KeyError (key : string)
  | AnalysisException (what : string)
  | AttributeError (name : string)
  | TypeError
  | ValueError.

Inductive result (A : Type) :=
  | Ok (a : A)
  | Err (e : Error).

Arguments Ok {A} a.

Arguments Err {A} e.

Definition rbind {A B} (r : result A) (f : A -> result B) : result B :=
  match r with Ok a => f a | Err e => Err e end.

Definition rmap {A B} (f : A -> B) (r : result A) : result B :=
  match r with Ok a => Ok (f a) | Err e => Err e end.

Fixpoint rmapM {A B} (f : A -> result B) (l : list A) : result (list B) :=
  match l with
  | [] => Ok []
  | x :: l' => rbind (f x) (fun y => rbind (rmapM f l') (fun ys => Ok (y :: ys)))
  end.

(** ** Python arithmetic of [get_start_time]

    [int(int(x) / 1000)]: [/] on two Python ints is true division, the
    exact quotient rounded to the nearest binary64 value (ties to even);
    the outer [int] then truncates toward zero.  The operands of the job
    are 64-bit column values, far from the overflow and subnormal ranges,
    so only the 53-bit rounding is written out. *)

(** Nearest integer to [n / d], ties to the even one ([d > 0]). *)
Definition div_half_even (n d : Z) : Z :=
  let q := n / d in
  let r := n mod d in
  if 2 * r <? d then q
  else if d <? 2 * r then q + 1
  else if Z.even q then q else q + 1.

(** Numerator and denominator of [n * 2^k / d] for an integer [k]. *)
Definition scale2 (n d k : Z) : Z * Z :=
  if 0 <=? k then (n * 2 ^ k, d) else (n, d * 2 ^ (- k)).

(** The binary exponent [k] with [2^52 <= n * 2^k / d < 2^53]
    (for [n > 0], [d > 0]). *)
Definition mantissa_shift (n d : Z) : Z :=
  let k0 := 53 + Z.log2 d - Z.log2 n in
  let '(a, b) := scale2 n d k0 in
  if 2 ^ 53 * b <=? a then k0 - 1 else k0.

(** [int(n / d)] for Python ints [n > 0], [d > 0]: the mantissa is
    [div_half_even] of the scaled quotient, the float is [m * 2^(-k)],
    and [int] drops its fractional part. *)
Definition truediv_trunc_pos (n d : Z) : Z :=
  let k := mantissa_shift n d in
  let '(a, b) := scale2 n d k in
  let m := div_half_even a b in
  if 0 <=? k then m / 2 ^ k else m * 2 ^ (- k).

(** [int(a / d)] for a Python int [a] and [d > 0]. *)
Definition int_truediv (a d : Z) : Z :=
  if a =? 0 then 0
  else if 0 <? a then truediv_trunc_pos a d
  else - truediv_trunc_pos (- a) d.

(** ** Calendar of [datetime.fromtimestamp] *)

Record DateTime := mkDateTime {
  dt_year : Z; dt_month : Z; dt_day : Z;
  dt_hour : Z; dt_minute : Z; dt_second : Z }.

#[global] Instance DateTime_eq_dec : EqDecision DateTime.
Proof. solve_decision. Defined.

(** Proleptic Gregorian date of a day count from 1970-01-01. *)
Definition civil_from_days (days : Z) : Z * Z * Z :=
  let z := days + 719468 in
  let era := z / 146097 in
  let doe := z - era * 146097 in
  let yoe := (doe - doe / 1460 + doe / 36524 - doe / 146096) / 365 in
  let doy := doe - (365 * yoe + yoe / 4 - yoe / 100) in
  let mp := (5 * doy + 2) / 153 in
  let d := doy - (153 * mp + 2) / 5 + 1 in
  let m := if mp <? 10 then mp + 3 else mp - 9 in
  let y := yoe + era * 400 + (if m <=? 2 then 1 else 0) in
  (y, m, d).

Definition days_from_civil (y m d : Z) : Z :=
  let y' := if m <=? 2 then y - 1 else y in
  let era := y' / 400 in
  let yoe := y' - era * 400 in
  let mp := if 2 <? m then m - 3 else m + 9 in
  let doy := (153 * mp + 2) / 5 + d - 1 in
  let doe := yoe * 365 + yoe / 4 - yoe / 100 + doy in
  era * 146097 + doe - 719468.

(** Local wall-clock time [secs] seconds after 1970-01-01T00:00:00. *)
Definition datetime_of_seconds (secs : Z) : DateTime :=
  let days := secs / 86400 in
  let rest := secs mod 86400 in
  let '(y, m, d) := civil_from_days days in
  mkDateTime y m d (rest / 3600) (rest mod 3600 / 60) (rest mod 60).

(** [datetime.fromtimestamp(t)] on a clock [offset t] seconds east of
    UTC at [t]; a year outside 1..9999 raises. *)
Definition fromtimestamp (offset : Z -> Z) (t : Z) : result DateTime :=
  let d := datetime_of_seconds (t + offset t) in
  if (1 <=? dt_year d) && (dt_year d <=? 9999) then Ok d else Err ValueError.

(** Day of the week, Monday = 0. *)
Definition weekday_index (d : DateTime) : Z :=
  (days_from_civil (dt_year d) (dt_month d) (dt_day d) + 3) mod 7.

Definition weekday_name (d : DateTime) : string :=
  match weekday_index d with
  | 0 => "Mon" | 1 => "Tue" | 2 => "Wed" | 3 => "Thu"
  | 4 => "Fri" | 5 => "Sat" | _ => "Sun"
  end.

(** Years with 53 ISO weeks. *)
Definition long_iso_year (y : Z) : bool :=
  let p y := (y + y / 4 - y / 100 + y / 400) mod 7 in
  (p y =? 4) || (p (y - 1) =? 3).

(** ISO-8601 week number, as [weekofyear]. *)
Definition iso_week (d : DateTime) : Z :=
  let y := dt_year d in
  let ordinal := days_from_civil y (dt_month d) (dt_day d) - days_from_civil y 1 1 + 1 in
  let w := (ordinal - (weekday_index d + 1) + 10) / 7 in
  if w <? 1 then (if long_iso_year (y - 1) then 53 else 52)
  else if (w =? 53) && negb (long_iso_year y) then 1
  else w.

(** ** Cell values

    A cell is what the JSON reader or a column expression produced: null,
    text, a 64-bit integer, a double (kept as the rational it denotes) or
    the text of a datetime as [str(datetime)] prints it (kept as its
    fields). *)

Inductive Value :=
  | VNull
  | VStr (s : string)
  | VLong (z : Z)
  | VDouble (q : Qc)
  | VTime (d : DateTime).

#[global] Instance Value_eq_dec : EqDecision Value.
Proof. solve_decision. Defined.

Abbreviation Row := (list Value).

(** SQL equality: a comparison with null is never true. *)
Definition sql_eq (a b : Value) : bool :=
  match a, b with
  | VNull, _ | _, VNull => false
  | _, _ => bool_decide (a = b)
  end.

(** *** Python's [int(x)] on a cell *)

Definition digit_value (c : Ascii.ascii) : option Z :=
  let n := Z.of_N (Ascii.N_of_ascii c) in
  if (48 <=? n) && (n <=? 57) then Some (n - 48) else None.

Definition is_space (c : Ascii.ascii) : bool :=
  let n := Z.of_N (Ascii.N_of_ascii c) in
  (n =? 32) || ((9 <=? n) && (n <=? 13)).

Fixpoint lstrip (s : string) : string :=
  match s with
  | String c s' => if is_space c then lstrip s' else s
  | EmptyString => s
  end.

Fixpoint rstrip (s : string) : string :=
  match s with
  | String c s' =>
      match rstrip s' with
      | EmptyString => if is_space c then EmptyString else String c EmptyString
      | t => String c t
      end
  | EmptyString => s
  end.

(** Digits with single underscores between them; [acc] is the value read
    so far and [after_digit] tells whether an underscore may follow. *)
Fixpoint parse_digits (s : string) (acc : Z) (after_digit : bool) : option Z :=
  match s with
  | EmptyString => if after_digit then Some acc else None
  | String c s' =>
      match digit_value c with
      | Some d => parse_digits s' (10 * acc + d) true
      | None =>
          if (Z.of_N (Ascii.N_of_ascii c) =? 95) && after_digit then parse_digits s' acc false
          else None
      end
  end.

Definition int_of_string (s : string) : option Z :=
  match lstrip (rstrip s) with
  | String c s' =>
      let n := Z.of_N (Ascii.N_of_ascii c) in
      if n =? 45 then Z.opp <$> parse_digits s' 0 false
      else if n =? 43 then parse_digits s' 0 false
      else parse_digits (String c s') 0 false
  | EmptyString => None
  end.

Definition py_int (v : Value) : result Z :=
  match v with
  | VLong z => Ok z
  | VDouble q => Ok (Z.quot (Qnum q) (Zpos (Qden q)))
  | VStr s => match int_of_string s with Some z => Ok z | None => Err ValueError end
  | VNull | VTime _ => Err TypeError
  end.

(** ** The dataframe engine

    What the script leaves to the engine: how the rows of a shuffled
    result (a de-duplication, a SQL query) are laid out in partitions, and
    the zone of the worker's local clock. *)

Record Engine := {
  layout : list Row -> list (list Row);
  layout_perm : forall l, concat (layout l) ≡ₚ l;
  utc_offset : Z -> Z;
  utc_offset_range : forall t, - 86400 < utc_offset t < 86400 }.

(** ** Dataframes

    The schema is known as soon as a frame is built (a missing column
    raises at the call); the rows are computed only when an action asks
    for them, so a failing lambda surfaces at the first [save] that
    needs it. *)

Record DataFrame := mkDataFrame {
  columns : list string;
  partitions : result (list (list Row)) }.

Fixpoint col_index (c : string) (cols : list string) : option nat :=
  match cols with
  | [] => None
  | c' :: cs => if decide (c = c') then Some 0%nat else S <$> col_index c cs
  end.

Definition cell (cols : list string) (c : string) (r : Row) : Value :=
  match col_index c cols with
  | Some i => default VNull (r !! i)
  | None => VNull
  end.

Definition project (cols : list string) (names : list string) (r : Row) : Row :=
  map (fun c => cell cols c r) names.

(** The rows of a frame as an action sees them. *)
Definition collect (df : DataFrame) : result (list Row) :=
  rmap (@concat Row) (partitions df).

(** *** Column expressions

    A [udf] cell holds the value the Python lambda returns; how the
    engine encodes it in the declared type of the column is not
    modelled. *)

Inductive Column :=
  | col (name : string)
  | udf (f : Value -> result Value) (arg : string)
  | builtin (f : Value -> Value) (arg : string)
  | monotonically_increasing_id.

Definition wrap64 (z : Z) : Z := (z + 2 ^ 63) mod 2 ^ 64 - 2 ^ 63.

(** The partition index in the upper 31 bits, the position of the row in
    its partition in the lower 33, in 64-bit arithmetic. *)
Definition mono_id (p i : nat) : Z :=
  wrap64 (Z.shiftl (Z.of_nat p) 33 + Z.of_nat i).

Definition column_refs (e : Column) : list string :=
  match e with
  | col n => [n]
  | udf _ a | builtin _ a => [a]
  | monotonically_increasing_id => []
  end.

Definition eval (cols : list string) (e : Column) (p i : nat) (r : Row) : result Value :=
  match e with
  | col n => Ok (cell cols n r)
  | udf f a => f (cell cols a r)
  | builtin f a => Ok (f (cell cols a r))
  | monotonically_increasing_id => Ok (VLong (mono_id p i))
  end.

Definition on_datetime (f : DateTime -> Value) (v : Value) : Value :=
  match v with VTime d => f d | _ => VNull end.

Definition year := builtin (on_datetime (fun d => VLong (dt_year d))).

Definition month := builtin (on_datetime (fun d => VLong (dt_month d))).

Definition dayofmonth := builtin (on_datetime (fun d => VLong (dt_day d))).

Definition hour := builtin (on_datetime (fun d => VLong (dt_hour d))).

Definition weekofyear := builtin (on_datetime (fun d => VLong (iso_week d))).

Definition date_format_E := builtin (on_datetime (fun d => VStr (weekday_name d))).

(** *** Transformations *)

Fixpoint first_missing (needed cols : list string) : option string :=
  match needed with
  | [] => None
  | c :: cs => if bool_decide (c ∈ cols) then first_missing cs cols else Some c
  end.

Definition resolve (needed cols : list string) : result unit :=
  match first_missing needed cols with
  | None => Ok tt
  | Some c => Err (AnalysisException c)
  end.

(** The elements of a list with their positions, counted from [n]. *)
Fixpoint indexed {A} (n : nat) (l : list A) : list (nat * A) :=
  match l with
  | [] => []
  | x :: l' => (n, x) :: indexed (S n) l'
  end.

(** [f p i r] on the row at position [i] of partition [p]. *)
Definition map_rows (f : nat -> nat -> Row -> result Row)
    (parts : list (list Row)) : result (list (list Row)) :=
  rmapM (fun '(p, part) => rmapM (fun '(i, r) => f p i r) (indexed 0 part))
        (indexed 0 parts).

Definition select_exprs (named : list (string * Column)) (df : DataFrame)
    : result DataFrame :=
  rbind (resolve (named.*2 ≫= column_refs) (columns df)) (fun _ =>
  Ok {| columns := named.*1;
        partitions := rbind (partitions df) (map_rows (fun p i r =>
          rmapM (fun e => eval (columns df) e p i r) named.*2)) |}).

Definition select (names : list string) (df : DataFrame) : result DataFrame :=
  select_exprs (map (fun n => (n, col n)) names) df.

(** A column of that name is replaced where it stands, a new one is
    appended. *)
Definition put_cell (cols : list string) (name : string) (v : Value) (r : Row) : Row :=
  match col_index name cols with
  | Some i => <[i := v]> r
  | None => r ++ [v]
  end.

Definition put_column (cols : list string) (name : string) : list string :=
  match col_index name cols with
  | Some _ => cols
  | None => cols ++ [name]
  end.

Definition withColumn (name : string) (e : Column) (df : DataFrame)
    : result DataFrame :=
  rbind (resolve (column_refs e) (columns df)) (fun _ =>
  Ok {| columns := put_column (columns df) name;
        partitions := rbind (partitions df) (map_rows (fun p i r =>
          rmap (fun v => put_cell (columns df) name v r)
               (eval (columns df) e p i r))) |}).

(** Names that are not columns are ignored. *)
Definition drop_cells (cols names : list string) (r : Row) : Row :=
  (filter (fun cv => cv.1 ∉ names) (zip cols r)).*2.

Definition drop (names : list string) (df : DataFrame) : DataFrame :=
  {| columns := filter (fun c => c ∉ names) (columns df);
     partitions := rmap (map (map (drop_cells (columns df) names))) (partitions df) |}.

(** [df.select(names).where(df.c == lit)]: the condition names a column
    of [df] itself, which the projection may have dropped, so the filter
    is evaluated on the rows of [df] and the projection on what it keeps.
    Python evaluates the receiver [df.select(names)] before the argument
    [df.c]. *)
Definition select_where (names : list string) (df : DataFrame)
    (c : string) (lit : Value) : result DataFrame :=
  rbind (resolve names (columns df)) (fun _ =>
  if bool_decide (c ∈ columns df) then
    Ok {| columns := names;
          partitions := rmap
            (map (fun part =>
               map (project (columns df) names)
                   (filter (fun r => sql_eq (cell (columns df) c r) lit = true) part)))
            (partitions df) |}
  else Err (AttributeError c)).

Definition dropDuplicates (E : Engine) (df : DataFrame) : DataFrame :=
  {| columns := columns df;
     partitions := rmap (fun parts => layout E (remove_dups (concat parts)))
                        (partitions df) |}.

(** ** The world outside the script and the state of a run *)

Abbreviation JsonObject := (list (string * Value)).

(** The configuration file as the parser exposes it: sections with their
    options, option names in lower case. *)
Definition Config := list (string * list (string * string)).

Inductive FileContent :=
  | Malformed
  | Parsed (config : Config).

(** [bucket] maps a path glob to the records the reader finds there, in
    the partitions it reads them into. *)
Record World := mkWorld {
  local_files : gmap string FileContent;
  bucket : gmap string (list (list JsonObject)) }.

(** A saved dataset. *)
Record Relation := mkRelation {
  rel_format : string;
  rel_partitionBy : list string;
  rel_columns : list string;
  rel_rows : list Row }.

Record State := mkState {
  environ : gmap string string;
  views : gmap string DataFrame;
  reads : list string;
  output : gmap string Relation }.

Definition M (A : Type) : Type := State -> result A * State.

Definition ret {A} (a : A) : M A := fun st => (Ok a, st).

Definition raise {A} (e : Error) : M A := fun st => (Err e, st).

Definition bind {A B} (m : M A) (k : A -> M B) : M B :=
  fun st => match m st with
            | (Ok a, st') => k a st'
            | (Err e, st') => (Err e, st')
            end.

Definition lift {A} (r : result A) : M A :=
  match r with Ok a => ret a | Err e => raise e end.

Notation "x <- m ;; k" := (bind m (fun x => k))
  (at level 100, m at next level, right associativity).

Notation "m ;;; k" := (bind m (fun _ => k))
  (at level 100, right associativity).

(** *** [configparser] and [os.environ] *)

Definition lower_ascii (c : Ascii.ascii) : Ascii.ascii :=
  let n := Ascii.N_of_ascii c in
  if ((65 <=? n) && (n <=? 90))%N then Ascii.ascii_of_N (n + 32) else c.

Fixpoint lower (s : string) : string :=
  match s with
  | EmptyString => EmptyString
  | String c s' => String (lower_ascii c) (lower s')
  end.

Fixpoint assoc {A} (k : string) (l : list (string * A)) : option A :=
  match l with
  | [] => None
  | (k', a) :: l' => if decide (k = k') then Some a else assoc k l'
  end.

(** [config.read_file(open(path))] *)
Definition read_config (W : World) (path : string) : M Config :=
  match local_files W !! path with
  | None => raise (FileNotFoundError path)
  | Some Malformed => raise ParsingError
  | Some (Parsed c) => ret c
  end.

(** [config[section][option]] *)
Definition config_get (c : Config) (section option : string) : M string :=
  match assoc section c with
  | None => raise (KeyError section)
  | Some opts =>
      match assoc (lower option) opts with
      | None => raise (KeyError option)
      | Some v => ret v
      end
  end.

Definition setenv (name value : string) : M unit :=
  fun st => (Ok tt, mkState (<[name := value]> (environ st)) (views st)
                            (reads st) (output st)).

(** *** Reader, catalog and writer *)

(** The inferred schema is the fields that occur in the records (here in
    the order of their first occurrence; the job refers to columns by name
    only); a field a record lacks reads as null. *)
Definition infer_columns (parts : list (list JsonObject)) : list string :=
  remove_dups (concat parts ≫= fun o => o.*1).

Definition to_row (cols : list string) (o : JsonObject) : Row :=
  map (fun c => default VNull (assoc c o)) cols.

Definition frame_of_json (parts : list (list JsonObject)) : DataFrame :=
  {| columns := infer_columns parts;
     partitions := Ok (map (map (to_row (infer_columns parts))) parts) |}.

(** [spark.read.json(path)] *)
Definition read_json (W : World) (path : string) : M DataFrame :=
  fun st =>
    let st' := mkState (environ st) (views st) (reads st ++ [path]) (output st) in
    match bucket W !! path with
    | None => (Err (AnalysisException path), st')
    | Some parts => (Ok (frame_of_json parts), st')
    end.

Definition createOrReplaceTempView (name : string) (df : DataFrame) : M unit :=
  fun st => (Ok tt, mkState (environ st) (<[name := df]> (views st))
                            (reads st) (output st)).

Definition Query := Engine -> gmap string DataFrame -> result DataFrame.

(** [spark.sql(query)] *)
Definition sql (E : Engine) (q : Query) : M DataFrame :=
  fun st => lift (q E (views st)) st.

Inductive SaveMode := Overwrite | Append | Ignore | ErrorIfExists.

Definition save_mode (mode : string) : option SaveMode :=
  if decide (mode = "overwrite") then Some Overwrite
  else if decide (mode = "append") then Some Append
  else if decide (mode = "ignore") then Some Ignore
  else if decide (mode = "error") then Some ErrorIfExists
  else if decide (mode = "errorifexists") then Some ErrorIfExists
  else None.

Definition stored (mode : SaveMode) (old : option Relation) (new : Relation)
    : result Relation :=
  match mode, old with
  | Overwrite, _ | _, None => Ok new
  | Append, Some r =>
      Ok (mkRelation (rel_format r) (rel_partitionBy r) (rel_columns r)
                     (rel_rows r ++ rel_rows new))
  | Ignore, Some r => Ok r
  | ErrorIfExists, Some _ => Err (AnalysisException "path already exists")
  end.

(** [df.write.partitionBy(by).format(fmt).mode(mode).save(path)]: the
    action that computes the rows of [df]. *)
Definition save (df : DataFrame) (by_ : list string) (fmt mode path : string)
    : M unit :=
  fun st =>
    match save_mode mode with
    | None => (Err ValueError, st)
    | Some m =>
        match
          rbind (resolve by_ (columns df)) (fun _ =>
          rbind (collect df) (fun rows =>
          stored m (output st !! path) (mkRelation fmt by_ (columns df) rows)))
        with
        | Err e => (Err e, st)
        | Ok r => (Ok tt, mkState (environ st) (views st) (reads st)
                                  (<[path := r]> (output st)))
        end
    end.

(** ** The queries of [sql_queries] *)

Module sql_queries.

Definition table (vs : gmap string DataFrame) (name : string) : result DataFrame :=
  match vs !! name with
  | Some df => Ok df
  | None => Err (AnalysisException name)
  end.

Definition id_of (v : Value) : Z :=
  match v with VLong z => z | _ => 0 end.

(** One row per value of column [key]: [r] replaces the row kept for its
    key when its [idc] is [better]. *)
Fixpoint keep_best (better : Z -> Z -> bool) (cols : list string)
    (key idc : string) (r : Row) (acc : list Row) : list Row :=
  match acc with
  | [] => [r]
  | a :: acc' =>
      if decide (cell cols key a = cell cols key r)
      then (if better (id_of (cell cols idc r)) (id_of (cell cols idc a))
            then r else a) :: acc'
      else a :: keep_best better cols key idc r acc'
  end.

Definition best_by (better : Z -> Z -> bool) (cols : list string)
    (key idc : string) (rows : list Row) : list Row :=
  foldl (fun acc r => keep_best better cols key idc r acc) [] rows.

Definition artist_source_columns : list string :=
  ["artist_id"; "artist_name"; "artist_location"; "artist_latitude";
   "artist_longitude"].

(** Modelled from the spec: the text of [artist_select_distinct] in
    [sql_queries.py] is missing.  Artist records (artist_id,
    artist_name, location, latitude, longitude) are de-duplicated by
    artist_id over the view [sparkify], keeping the first occurrence by
    the surrogate [id], which is not part of the result. *)
Definition artist_distinct (E : Engine) (t : DataFrame) : result DataFrame :=
  rbind (resolve (artist_source_columns ++ ["id"]) (columns t)) (fun _ =>
  Ok {| columns := ["artist_id"; "artist_name"; "location"; "latitude"; "longitude"];
        partitions := rmap (fun parts =>
          layout E (map (project (columns t) artist_source_columns)
                        (best_by Z.ltb (columns t) "artist_id" "id" (concat parts))))
          (partitions t) |}).

Definition artist_select_distinct : Query := fun E vs =>
  rbind (table vs "sparkify") (artist_distinct E).

Definition log_columns : list string :=
  ["ts"; "userId"; "level"; "song"; "artist"; "sessionId"; "location"; "userAgent"].

(** Modelled from the spec: the text of [get_songplay_log_data] is
    missing.  It prepares, from the filtered event records of the view
    [sparkify], the event side of the songplay facts: timestamp, user,
    level, song and artist text, session info. *)
Definition get_songplay_log_data : Query := fun E vs =>
  rbind (table vs "sparkify") (select log_columns).

Definition songplay_row (lc sc ac : list string) (l s a : Row) : Row :=
  [cell lc "ts" l; cell lc "userId" l; cell lc "level" l;
   cell sc "song_id" s; cell ac "artist_id" a;
   cell lc "sessionId" l; cell lc "location" l; cell lc "userAgent" l].

Definition matches (lc sc ac : list string) (l s a : Row) : bool :=
  sql_eq (cell lc "song" l) (cell sc "title" s)
  && sql_eq (cell lc "artist" l) (cell ac "artist_name" a).

Definition join_rows (lc sc ac : list string) (ls ss as_ : list Row) : list Row :=
  l ← ls; s ← ss; a ← as_;
  if matches lc sc ac l s a then [songplay_row lc sc ac l s a] else [].

(** Modelled from the spec: the text of [aggregate_songplay_data] is
    missing.  Event rows (view [logs]) are matched against the song and
    artist relations of the metadata phase (views [songs], [artists])
    on song title and artist name, exact match; a matched event carries
    the song and artist identifiers, an unmatched one is dropped. *)
Definition join_frames (E : Engine) (l s a : DataFrame) : result DataFrame :=
  rbind (resolve log_columns (columns l)) (fun _ =>
  rbind (resolve ["song_id"; "title"] (columns s)) (fun _ =>
  rbind (resolve ["artist_id"; "artist_name"] (columns a)) (fun _ =>
  Ok {| columns := ["ts"; "userId"; "level"; "song_id"; "artist_id";
                    "sessionId"; "location"; "userAgent"];
        partitions :=
          rbind (collect l) (fun ls =>
          rbind (collect s) (fun ss =>
          rbind (collect a) (fun as_ =>
          Ok (layout E (join_rows (columns l) (columns s) (columns a)
                                  ls ss as_))))) |}))).

Definition aggregate_songplay_data : Query := fun E vs =>
  rbind (table vs "logs") (fun l =>
  rbind (table vs "songs") (fun s =>
  rbind (table vs "artists") (fun a => join_frames E l s a))).

Definition user_columns : list string :=
  ["userId"; "firstName"; "lastName"; "gender"; "level"].

(** Modelled from the spec: the text of [user_select_distinct] is
    missing.  Distinct users are derived from the event records of the
    view [sparkify], one row per userId, the last-seen level winning. *)
Definition user_distinct (E : Engine) (t : DataFrame) : result DataFrame :=
  rbind (resolve (user_columns ++ ["id"]) (columns t)) (fun _ =>
  Ok {| columns := user_columns;
        partitions := rmap (fun parts =>
          layout E (map (project (columns t) user_columns)
                        (best_by Z.gtb (columns t) "userId" "id" (concat parts))))
          (partitions t) |}).

Definition user_select_distinct : Query := fun E vs =>
  rbind (table vs "sparkify") (user_distinct E).

End sql_queries.

Import sql_queries.

(** ** [etl.py]

    The log lines of the script are left out: they change no dataset. *)

Definition song_data : string := "s3a://udacity-dend/song_data/A/A/*/*.json".

Definition song_columns : list string :=
  ["song_id"; "title"; "artist_id"; "artist_name"; "year"; "duration"].

Definition artist_columns : list string :=
  ["artist_id"; "artist_name"; "artist_location"; "artist_latitude";
   "artist_longitude"].

Definition process_song_data (spark : Engine) (W : World)
    (input_base_path output_base_path : string) : M unit :=
  df <- read_json W song_data ;;
  song_df <- lift (rmap (dropDuplicates spark) (select song_columns df)) ;;
  artist_df <- lift (rbind (select artist_columns df)
                           (withColumn "id" monotonically_increasing_id)) ;;
  createOrReplaceTempView "sparkify" artist_df ;;;
  artist_df <- sql spark artist_select_distinct ;;
  createOrReplaceTempView "artists" artist_df ;;;
  createOrReplaceTempView "songs" song_df ;;;
  save song_df ["year"; "artist_name"] "parquet" "overwrite"
       (output_base_path +:+ "songs") ;;;
  save artist_df [] "parquet" "overwrite" (output_base_path +:+ "artists").

Definition event_columns : list string :=
  ["userId"; "firstName"; "lastName"; "gender"; "level"; "ts"; "artist"; "song";
   "length"; "location"; "sessionId"; "userAgent"].

(** [lambda x: int(int(x) / 1000)] *)
Definition get_start_time : string -> Column :=
  udf (fun x => rbind (py_int x) (fun z => Ok (VLong (int_truediv z 1000)))).

(** [lambda x: str(datetime.fromtimestamp(int(x)))] *)
Definition get_datetime (spark : Engine) : string -> Column :=
  udf (fun x => rbind (py_int x) (fun z =>
                rmap VTime (fromtimestamp (utc_offset spark) z))).

(** The songplay facts from the result of [aggregate_songplay_data]. *)
Definition songplay_facts (spark : Engine) (joined : DataFrame) : result DataFrame :=
  rbind (withColumn "start_time" (get_start_time "ts") joined) (fun d1 =>
  rbind (withColumn "songplay_id" monotonically_increasing_id d1) (fun d2 =>
  rbind (withColumn "datetime" (get_datetime spark "start_time") d2) (fun d3 =>
  rbind (withColumn "year" (year "datetime") d3) (fun d4 =>
  rbind (withColumn "month" (month "datetime") d4) (fun d5 =>
  Ok (drop ["datetime"; "ts"] d5)))))).

Definition time_columns : list (string * Column) :=
  [("hour", hour "datetime"); ("day", dayofmonth "datetime");
   ("week", weekofyear "datetime"); ("month", month "datetime");
   ("year", year "datetime"); ("weekday", date_format_E "datetime")].

(** The time dimension from the songplay facts. *)
Definition time_dimension (spark : Engine) (songplay_df : DataFrame) : result DataFrame :=
  rbind (select ["start_time"] songplay_df) (fun d1 =>
  rbind (withColumn "datetime" (get_datetime spark "start_time")
                    (dropDuplicates spark d1)) (fun d2 =>
  rbind (select_exprs time_columns d2) (fun d3 =>
  Ok (drop ["datetime"] d3)))).

Definition log_data (input_base_path : string) : string :=
  input_base_path +:+ "log_data/*/*/*.json".

Definition process_log_data (spark : Engine) (W : World)
    (input_base_path output_base_path : string) : M unit :=
  df <- read_json W (log_data input_base_path) ;;
  log_df <- lift (rbind (select_where event_columns df "page" (VStr "NextSong"))
                        (withColumn "id" monotonically_increasing_id)) ;;
  createOrReplaceTempView "sparkify" log_df ;;;
  songplay_df <- sql spark get_songplay_log_data ;;
  createOrReplaceTempView "logs" songplay_df ;;;
  joined <- sql spark aggregate_songplay_data ;;
  songplay_df <- lift (songplay_facts spark joined) ;;
  user_df <- sql spark user_select_distinct ;;
  time_df <- lift (time_dimension spark songplay_df) ;;
  save user_df [] "parquet" "overwrite" (output_base_path +:+ "users") ;;;
  save time_df ["year"; "month"] "parquet" "overwrite"
       (output_base_path +:+ "time") ;;;
  save songplay_df ["year"; "month"] "parquet" "overwrite"
       (output_base_path +:+ "songplays").

Definition input_data : string := "s3a://udacity-dend/".

Definition output_data : string := "s3a://despotakis-data-lake/".

(** [spark] stands for the session [create_spark_session()] returns. *)
Definition main (spark : Engine) (W : World) : M unit :=
  config <- read_config W "dl.cfg" ;;
  key <- config_get config "AWS" "AWS_ACCESS_KEY_ID" ;;
  setenv "AWS_ACCESS_KEY_ID" key ;;;
  secret <- config_get config "AWS" "AWS_SECRET_ACCESS_KEY" ;;
  setenv "AWS_SECRET_ACCESS_KEY" secret ;;;
  process_song_data spark W input_data output_data ;;;
  process_log_data spark W input_data output_data.

Definition initial : State := mkState ∅ ∅ [] ∅.

(** ** A concrete run *)

(** One shuffle partition, workers on UTC. *)
Definition utc_engine : Engine :=
  {| layout := fun l => [l];
     layout_perm := fun l => eq_ind_r (fun k => k ≡ₚ l) (reflexivity l) (app_nil_r l);
     utc_offset := fun _ => 0;
     utc_offset_range := fun _ => conj eq_refl eq_refl |}.

Definition credentials : FileContent :=
  Parsed [("AWS", [("aws_access_key_id", "AKIA"); ("aws_secret_access_key", "s3cr3t")])].

Definition song_record (song_id title artist_id artist_name : string) : JsonObject :=
  [("song_id", VStr song_id); ("title", VStr title); ("artist_id", VStr artist_id);
   ("artist_name", VStr artist_name); ("year", VLong 2000);
   ("duration", VDouble (Q2Qc 200)); ("artist_location", VNull);
   ("artist_latitude", VNull); ("artist_longitude", VNull)].

Definition event_record (page user level artist song : string) (ts : Z) : JsonObject :=
  [("page", VStr page); ("userId", VStr user); ("firstName", VNull);
   ("lastName", VNull); ("gender", VNull); ("level", VStr level); ("ts", VLong ts);
   ("artist", VStr artist); ("song", VStr song); ("length", VNull);
   ("location", VNull); ("sessionId", VLong 1); ("userAgent", VNull)].

Definition sample_world : World :=
  {| local_files := {[ "dl.cfg" := credentials ]};
     bucket := {[ song_data :=
                    [[song_record "S1" "Bar" "A1" "Foo";
                      song_record "S1" "Bar" "A1" "Foo"];
                     [song_record "S2" "Baz" "A1" "Foo2"]];
                  "s3a://udacity-dend/log_data/*/*/*.json" :=
                    [[event_record "Home" "1" "free" "" "" 1541106106796;
                      event_record "NextSong" "1" "free" "Foo" "Bar" 1541106106796];
                     [event_record "NextSong" "1" "paid" "Foo" "Bar" 1542241826796;
                      event_record "NextSong" "2" "free" "Foo" "Nope" 1542241826796]] ]} |}.

(** ** Notions of the statements

    The predicates the theorems are stated with, the states successful
    runs leave, and the sample data their hypotheses are met on. *)

(** *** Positions, alignment and runs *)

(** The row at position [i] of partition [p]. *)
Definition row_at {A} (parts : list (list A)) (p i : nat) : option A :=
  parts !! p ≫= fun part => part !! i.

(** Every row of the frame has a cell for every column. *)
Definition aligned (df : DataFrame) : Prop :=
  forall parts, partitions df = Ok parts ->
    forall p i r, row_at parts p i = Some r -> length r = length (columns df).

Definition derived_columns : list string :=
  ["start_time"; "songplay_id"; "datetime"; "year"; "month"; "ts"].

(** The state the metadata phase leaves: three views, one read, two
    saved relations. *)
Definition after_songs (st : State) (out : string)
    (tagged artists songs : DataFrame) (rs ra : list Row) : State :=
  mkState (environ st)
    (<["songs" := songs]> (<["artists" := artists]>
       (<["sparkify" := tagged]> (views st))))
    (reads st ++ [song_data])
    (<[out +:+ "artists" := mkRelation "parquet" [] (columns artists) ra]>
       (<[out +:+ "songs" :=
            mkRelation "parquet" ["year"; "artist_name"] (columns songs) rs]>
          (output st))).

(** The state the event phase leaves: two more views, one read, three
    saved relations. *)
Definition after_logs (st : State) (inp out : string)
    (log_df logs users time facts : DataFrame) (ru rt rf : list Row) : State :=
  mkState (environ st)
    (<["logs" := logs]> (<["sparkify" := log_df]> (views st)))
    (reads st ++ [log_data inp])
    (<[out +:+ "songplays" :=
         mkRelation "parquet" ["year"; "month"] (columns facts) rf]>
       (<[out +:+ "time" :=
            mkRelation "parquet" ["year"; "month"] (columns time) rt]>
          (<[out +:+ "users" := mkRelation "parquet" [] (columns users) ru]>
             (output st)))).

Definition with_credentials (st : State) (key secret : string) : State :=
  mkState (<["AWS_SECRET_ACCESS_KEY" := secret]>
             (<["AWS_ACCESS_KEY_ID" := key]> (environ st)))
          (views st) (reads st) (output st).

(** The configuration file is there, parses, and has both keys. *)
Definition credentials_of (W : World) : option (string * string) :=
  match local_files W !! "dl.cfg" with
  | Some (Parsed c) =>
      match assoc "AWS" c with
      | Some opts =>
          match assoc "aws_access_key_id" opts, assoc "aws_secret_access_key" opts with
          | Some key, Some secret => Some (key, secret)
          | _, _ => None
          end
      | None => None
      end
  | _ => None
  end.

(** The exception a run without credentials ends with. *)
Definition config_error (W : World) : Error :=
  match local_files W !! "dl.cfg" with
  | None => FileNotFoundError "dl.cfg"
  | Some Malformed => ParsingError
  | Some (Parsed c) =>
      match assoc "AWS" c with
      | None => KeyError "AWS"
      | Some opts =>
          match assoc "aws_access_key_id" opts with
          | None => KeyError "AWS_ACCESS_KEY_ID"
          | Some _ => KeyError "AWS_SECRET_ACCESS_KEY"
          end
      end
  end.

(** [m] reads nothing from the bucket, however it ends. *)
Definition quiet {A} (m : M A) : Prop :=
  forall st, reads (m st).2 = reads st.

(** The value of a field of a record, null when the record lacks it. *)
Definition field (c : string) (o : JsonObject) : Value :=
  default VNull (assoc c o).

(** *** Failures end the job *)

Definition no_config : World := {| local_files := ∅; bucket := ∅ |}.

(** *** The five saved relations *)

Definition with_output (st : State) (prior : gmap string Relation) : State :=
  mkState (environ st) (views st) (reads st) prior.

Definition saved_paths : list string :=
  [output_data +:+ "songs"; output_data +:+ "artists"; output_data +:+ "users";
   output_data +:+ "time"; output_data +:+ "songplays"].

(** *** The saved songs *)

(** The state the metadata phase leaves on the sample world. *)
Definition sample_after_songs : State :=
  (process_song_data utc_engine sample_world input_data output_data initial).2.

(** *** The saved artists *)

(** The row of the view [sparkify] for the record at position [i] of
    partition [p]: its artist fields and its surrogate id. *)
Definition tagged_row (p i : nat) (o : JsonObject) : Row :=
  to_row artist_columns o ++ [VLong (mono_id p i)].

(** The state the whole job leaves on the sample world. *)
Definition sample_final : State := (main utc_engine sample_world initial).2.

(** *** Only NextSong events count *)

Definition is_next_song (o : JsonObject) : Prop :=
  field "page" o = VStr "NextSong".

#[global] Instance is_next_song_dec (o : JsonObject) : Decision (is_next_song o).
Proof. unfold is_next_song. apply _. Defined.

(** The sample world without its event of another page. *)
Definition next_song_only : World :=
  {| local_files := local_files sample_world;
     bucket := <[ log_data input_data :=
                    [[event_record "NextSong" "1" "free" "Foo" "Bar" 1541106106796];
                     [event_record "NextSong" "1" "paid" "Foo" "Bar" 1542241826796;
                      event_record "NextSong" "2" "free" "Foo" "Nope" 1542241826796]] ]>
                 (bucket sample_world) |}.

Definition sample_events : list (list JsonObject) :=
  [[event_record "Home" "1" "free" "" "" 1541106106796;
    event_record "NextSong" "1" "free" "Foo" "Bar" 1541106106796];
   [event_record "NextSong" "1" "paid" "Foo" "Bar" 1542241826796;
    event_record "NextSong" "2" "free" "Foo" "Nope" 1542241826796]].

(** *** The songplay ids *)

(** The engine's bound for [monotonically_increasing_id]: the partition
    index fits in 31 bits and the position in a partition in 33. *)
Definition id_capacity {A} (parts : list (list A)) : Prop :=
  Z.of_nat (length parts) <= 2 ^ 31 /\
  Forall (fun part => Z.of_nat (length part) <= 2 ^ 33) parts.

(** A result of the join in two partitions. *)
Definition sample_joined : DataFrame :=
  {| columns := ["ts"; "userId"; "level"; "song_id"; "artist_id"; "sessionId";
                 "location"; "userAgent"];
     partitions := Ok
       [[[VLong 1541106106796; VStr "1"; VStr "free"; VStr "S1"; VStr "A1";
          VLong 1; VNull; VNull];
         [VLong 1542241826796; VStr "1"; VStr "paid"; VStr "S1"; VStr "A1";
          VLong 2; VNull; VNull]];
        [[VLong 999; VStr "2"; VStr "free"; VStr "S2"; VStr "A1";
          VLong 3; VNull; VNull]]] |}.

Definition sample_facts : DataFrame :=
  match songplay_facts utc_engine sample_joined with
  | Ok facts => facts
  | Err _ => sample_joined
  end.

Definition sample_fact_rows : list (list Row) :=
  match partitions sample_facts with Ok out => out | Err _ => [] end.

Definition sample_saved_facts : State :=
  (save sample_facts ["year"; "month"] "parquet" "overwrite"
        (output_data +:+ "songplays") initial).2.

(** *** The start time *)

(** The claim as the spec words it: the start time of a fact is the floor
    of a thousandth of the timestamp of its event. *)
Definition start_time_is_floor (joined facts : DataFrame) : Prop :=
  forall jparts out p i r f ts,
    partitions joined = Ok jparts -> partitions facts = Ok out ->
    row_at jparts p i = Some r -> row_at out p i = Some f ->
    cell (columns joined) "ts" r = VLong ts ->
    cell (columns facts) "start_time" f = VLong (ts / 1000).

(** A result of the join with an event one millisecond before the epoch. *)
Definition before_epoch : DataFrame :=
  {| columns := ["ts"; "userId"; "level"; "song_id"; "artist_id"; "sessionId";
                 "location"; "userAgent"];
     partitions := Ok
       [[[VLong (-1); VStr "1"; VStr "free"; VStr "S1"; VStr "A1";
          VLong 1; VNull; VNull]]] |}.

(** *** The time relation *)

(** The row of the time relation for a start time. *)
Definition time_row (spark : Engine) (v : Value) (row : Row) : Prop :=
  exists z d,
    py_int v = Ok z /\ fromtimestamp (utc_offset spark) z = Ok d /\
    row = [VLong (dt_hour d); VLong (dt_day d); VLong (iso_week d);
           VLong (dt_month d); VLong (dt_year d); VStr (weekday_name d)].

Definition sample_time : DataFrame :=
  match time_dimension utc_engine sample_facts with
  | Ok time => time
  | Err _ => sample_facts
  end.

Definition sample_saved_time : State :=
  (save sample_time ["year"; "month"] "parquet" "overwrite"
        (output_data +:+ "time") initial).2.

(** *** The single-record scenario *)

(** A frame whose only row sits alone in one of its partitions. *)
Definition lone {A} (k1 k2 : nat) (r : A) : list (list A) :=
  replicate k1 [] ++ [r] :: replicate k2 [].

(** The world of the scenario: credentials, one metadata record, one
    event. *)
Definition scenario_world (m e : JsonObject) : World :=
  {| local_files := {[ "dl.cfg" := credentials ]};
     bucket := {[ song_data := [[m]]; log_data input_data := [[e]] ]} |}.

(** What the scenario expects of the saved relations: exactly one
    songplay fact, with start time 1000, and exactly one user row, for
    user "1" at level "free". *)
Definition scenario_outcome (st : State) : Prop :=
  exists songplays users f u,
    output st !! (output_data +:+ "songplays") = Some songplays /\
    rel_rows songplays = [f] /\
    cell (rel_columns songplays) "start_time" f = VLong 1000 /\
    output st !! (output_data +:+ "users") = Some users /\
    rel_rows users = [u] /\
    cell (rel_columns users) "userId" u = VStr "1" /\
    cell (rel_columns users) "level" u = VStr "free".

(** The two records with the fields the scenario lists, and no other. *)
Definition literal_song : JsonObject :=
  [("song_id", VStr "S1"); ("artist_id", VStr "A1"); ("artist_name", VStr "Foo");
   ("year", VLong 2000); ("duration", VDouble (Q2Qc 200))].

Definition literal_event : JsonObject :=
  [("page", VStr "NextSong"); ("artist", VStr "Foo"); ("song", VStr "Bar");
   ("ts", VLong 1000000); ("userId", VStr "1"); ("level", VStr "free")].

(** The records of the scenario with every column the job selects: the
    song has the title of the event's song; the fields the scenario leaves
    open are arbitrary. *)
Definition full_song (loc lat lon : Value) : JsonObject :=
  [("song_id", VStr "S1"); ("title", VStr "Bar"); ("artist_id", VStr "A1");
   ("artist_name", VStr "Foo"); ("year", VLong 2000);
   ("duration", VDouble (Q2Qc 200)); ("artist_location", loc);
   ("artist_latitude", lat); ("artist_longitude", lon)].

Definition full_event (first last gender len loc session agent : Value) : JsonObject :=
  [("page", VStr "NextSong"); ("artist", VStr "Foo"); ("song", VStr "Bar");
   ("ts", VLong 1000000); ("userId", VStr "1"); ("level", VStr "free");
   ("firstName", first); ("lastName", last); ("gender", gender);
   ("length", len); ("location", loc); ("sessionId", session);
   ("userAgent", agent)].

(** A frame with the given columns and a single row. *)
Definition shaped (df : DataFrame) (cols : list string) (r : Row) : Prop :=
  columns df = cols /\ collect df = Ok [r].

(** ** Further notions

    What the further properties at the end of the file are stated with. *)

(** The local second count of a datetime: the day number of its date and
    its time of day. *)
Definition seconds_of_datetime (d : DateTime) : Z :=
  days_from_civil (dt_year d) (dt_month d) (dt_day d) * 86400
  + dt_hour d * 3600 + dt_minute d * 60 + dt_second d.

Definition weekday_names : list string :=
  ["Mon"; "Tue"; "Wed"; "Thu"; "Fri"; "Sat"; "Sun"].

(** A row of calendar fields, each in its range. *)
Definition calendar_row (row : Row) : Prop :=
  exists h d w m y wd,
    row = [VLong h; VLong d; VLong w; VLong m; VLong y; VStr wd] /\
    0 <= h <= 23 /\ 1 <= d <= 31 /\ 1 <= w <= 53 /\ 1 <= m <= 12 /\
    1 <= y <= 9999 /\ wd ∈ weekday_names.

(** A timestamp cell the two lambdas accept: [int(x)] succeeds on it and
    the start time has a datetime. *)
Definition convertible (spark : Engine) (v : Value) : Prop :=
  exists z d, py_int v = Ok z /\
    fromtimestamp (utc_offset spark) (int_truediv z 1000) = Ok d.

(** The rows of [sample_joined]. *)
Definition sample_rows : list (list Row) :=
  [[[VLong 1541106106796; VStr "1"; VStr "free"; VStr "S1"; VStr "A1";
     VLong 1; VNull; VNull];
    [VLong 1542241826796; VStr "1"; VStr "paid"; VStr "S1"; VStr "A1";
     VLong 2; VNull; VNull]];
   [[VLong 999; VStr "2"; VStr "free"; VStr "S2"; VStr "A1";
     VLong 3; VNull; VNull]]].

(** Milliseconds from the epoch to 9999-12-31T00:00:00Z: a timestamp
    below it has a datetime in every zone. *)
Definition last_day_ms : Z := 253402214400000.







(** The output after the relations [written] were put at their paths, one
    after the other. *)
Definition put_all (written : list (string * Relation))
    (o : gmap string Relation) : gmap string Relation :=
  foldl (fun o pr => <[pr.1 := pr.2]> o) o written.

(** [m] saves at the paths [l], in that order, and at no other: a run
    that fails has saved at an initial segment of [l]. *)
Definition saves {A} (m : M A) (l : list string) : Prop :=
  forall st, exists written,
    output (m st).2 = put_all written (output st) /\
    written.*1 `prefix_of` l /\
    (forall a, (m st).1 = Ok a -> written.*1 = l).

(** [m] changes the map [proj] of the state at the keys [keys] only. *)
Definition within {A X} (proj : State -> gmap string X) (keys : list string)
    (m : M A) : Prop :=
  forall st k, k ∉ keys -> proj (m st).2 !! k = proj st !! k.

Definition job_variables : list string :=
  ["AWS_ACCESS_KEY_ID"; "AWS_SECRET_ACCESS_KEY"].

Definition job_views : list string := ["sparkify"; "artists"; "songs"; "logs"].

(** * The script with its logger and its session

    The functions of [etl.py] once more, now with every statement: the log
    calls through the module global [logger], the logger [create_logger]
    configures, the session [create_spark_session] gets, and the guard at
    the end of the file.  The steps on the datasets are those of the job
    monad above. *)

(** ** [logging] *)

Inductive Level := DEBUG | INFO | WARNING.

Definition levelno (l : Level) : Z :=
  match l with DEBUG => 10 | INFO => 20 | WARNING => 30 end.

Definition levelname (l : Level) : string :=
  match l with DEBUG => "DEBUG" | INFO => "INFO" | WARNING => "WARNING" end.

Record LogRecord := mkLogRecord {
  rec_name : string;
  rec_level : Level;
  rec_filename : string;
  rec_funcName : string;
  rec_message : string }.

Definition attribute (r : LogRecord) (key : string) : option string :=
  if decide (key = "name") then Some (rec_name r)
  else if decide (key = "levelname") then Some (levelname (rec_level r))
  else if decide (key = "filename") then Some (rec_filename r)
  else if decide (key = "funcName") then Some (rec_funcName r)
  else if decide (key = "message") then Some (rec_message r)
  else None.

(** Where the scan of a [%]-format string stands: in plain text, after a
    [%], inside the parentheses of a key, or before the conversion. *)
Inductive Scan :=
  | Text
  | Percent
  | Key (key : string)
  | Conversion (key : string).

Definition code (c : Ascii.ascii) : Z := Z.of_N (Ascii.N_of_ascii c).

(** [fmt % record]: [%(key)s] is replaced by the attribute [key] and
    [%%] by a percent sign; other conversions are not supported. *)
Fixpoint percent_format (fmt : string) (s : Scan) (r : LogRecord) : option string :=
  match fmt with
  | EmptyString => match s with Text => Some EmptyString | _ => None end
  | String c fmt' =>
      match s with
      | Text =>
          if code c =? 37 then percent_format fmt' Percent r
          else String c <$> percent_format fmt' Text r
      | Percent =>
          if code c =? 40 then percent_format fmt' (Key EmptyString) r
          else if code c =? 37 then String c <$> percent_format fmt' Text r
          else None
      | Key key =>
          if code c =? 41 then percent_format fmt' (Conversion key) r
          else percent_format fmt' (Key (key +:+ String c EmptyString)) r
      | Conversion key =>
          if code c =? 115 then
            v ← attribute r key;
            rest ← percent_format fmt' Text r;
            Some (v +:+ rest)
          else None
      end
  end.

(** A [StreamHandler] on the standard error stream with its level and
    the format string of its formatter. *)
Record Handler := mkHandler {
  h_level : Z;
  h_fmt : string }.

Record Logger := mkLogger {
  lg_level : Z;
  lg_handlers : list Handler }.

(** ** The session *)

(** A session: its configuration, and the environment its JVM was
    launched with. *)
Record Session := mkSession {
  conf : gmap string string;
  jvm_environ : gmap string string }.

(** ** The interpreter

    [loggers] is the registry of [logging], the root logger under the
    empty name; [logger] is the module global of that name, unbound until
    the script assigns it; [stderr] holds the lines the handlers wrote. *)
Record Process := mkProcess {
  job : State;
  loggers : gmap string Logger;
  logger : option string;
  stderr : list string;
  session : option Session }.

Inductive Exception :=
  | NameError (name : string)
  | Raised (e : Error).

Inductive Outcome (A : Type) :=
  | Done (a : A)
  | Throw (x : Exception).

Arguments Done {A} a.

Arguments Throw {A} x.

Definition P (A : Type) : Type := Process -> Outcome A * Process.

Definition pret {A} (a : A) : P A := fun ps => (Done a, ps).

Definition pbind {A B} (m : P A) (k : A -> P B) : P B :=
  fun ps => match m ps with
            | (Done a, ps') => k a ps'
            | (Throw x, ps') => (Throw x, ps')
            end.

Declare Scope proc_scope.

Delimit Scope proc_scope with proc.

Notation "x <- m ;; k" := (pbind m (fun x => k))
  (at level 100, m at next level, right associativity) : proc_scope.

Notation "m ;;; k" := (pbind m (fun _ => k))
  (at level 100, right associativity) : proc_scope.

(** A step of the job monad, run on the datasets of the process. *)
Definition run {A} (m : M A) : P A :=
  fun ps =>
    let ps' st := mkProcess st (loggers ps) (logger ps) (stderr ps) (session ps) in
    match m (job ps) with
    | (Ok a, st) => (Done a, ps' st)
    | (Err e, st) => (Throw (Raised e), ps' st)
    end.

(** [os.path.basename]: what follows the last slash. *)
Fixpoint basename_from (s acc : string) : string :=
  match s with
  | EmptyString => acc
  | String c s' =>
      if code c =? 47 then basename_from s' EmptyString
      else basename_from s' (acc +:+ String c EmptyString)
  end.

Definition basename (s : string) : string := basename_from s EmptyString.

(** A logger nobody configured: no level of its own (the root logger
    starts at WARNING) and no handler. *)
Definition unconfigured (name : string) : Logger :=
  mkLogger (if decide (name = "") then levelno WARNING else 0) [].

(** [logging.getLogger(name)], for the name of a top-level module: the
    parent of the logger is the root logger. *)
Definition getLogger (name : string) (ps : Process) : Logger :=
  default (unconfigured name) (loggers ps !! name).

Definition effective_level (name : string) (ps : Process) : Z :=
  let own := lg_level (getLogger name ps) in
  if own =? 0 then lg_level (getLogger "" ps) else own.

(** The handlers a record of the logger [name] reaches: its own, then
    those of the root logger. *)
Definition handlers_for (name : string) (ps : Process) : list Handler :=
  lg_handlers (getLogger name ps)
  ++ (if decide (name = "") then [] else lg_handlers (getLogger "" ps)).

(** A handler writes the formatted record, if the record is at its level
    or above.  (Where the format fails the handler reports the error
    itself; that report is not modelled.) *)
Definition emit (h : Handler) (r : LogRecord) : list string :=
  if h_level h <=? levelno (rec_level r) then
    match percent_format (h_fmt h) Text r with
    | Some line => [line]
    | None => []
    end
  else [].

(** With no handler at all the handler of last resort writes the bare
    message of a record at WARNING or above. *)
Definition handle (name : string) (r : LogRecord) (ps : Process) : list string :=
  match handlers_for name ps with
  | [] => if levelno WARNING <=? levelno (rec_level r) then [rec_message r] else []
  | hs => hs ≫= fun h => emit h r
  end.

(** [logger.debug(msg)], [logger.info(msg)] or [logger.warning(msg)] in
    the function [func] of [etl.py]. *)
Definition log (func : string) (lvl : Level) (msg : string) : P unit :=
  fun ps =>
    match logger ps with
    | None => (Throw (NameError "logger"), ps)
    | Some name =>
        if effective_level name ps <=? levelno lvl then
          (Done tt,
           mkProcess (job ps) (loggers ps) (logger ps)
             (stderr ps ++ handle name (mkLogRecord name lvl "etl.py" func msg) ps)
             (session ps))
        else (Done tt, ps)
    end.

(** ** [etl.py] *)

Definition etl_format : string :=
  "%(filename)s:%(funcName)s:%(levelname)s:%(message)s".

(** The truth value of an [Optional[bool]]. *)
Definition truthy (b : option bool) : bool := default false b.

(** [create_logger(debug_mode)] in a module whose [__name__] is
    [module_name]; the result is the logger, known by its name. *)
Definition create_logger (module_name : string) (debug_mode : option bool)
    : P string :=
  fun ps =>
    let name := basename module_name in
    let _logger := getLogger name ps in
    let level := if negb (truthy debug_mode) then levelno INFO else levelno DEBUG in
    let stream_handler := mkHandler 0 etl_format in
    (Done name,
     mkProcess (job ps)
       (<[name := mkLogger level (lg_handlers _logger ++ [stream_handler])]>
          (loggers ps))
       (logger ps) (stderr ps) (session ps)).

(** [SparkSession.builder.config(key, value).getOrCreate()]: the active
    session if there is one, else a new one, launched with the
    environment of the process; the option is set on it either way. *)
Definition getOrCreate (key value : string) : P Session :=
  fun ps =>
    let s := match session ps with
             | Some s => s
             | None => mkSession ∅ (environ (job ps))
             end in
    let s' := mkSession (<[key := value]> (conf s)) (jvm_environ s) in
    (Done s', mkProcess (job ps) (loggers ps) (logger ps) (stderr ps) (Some s')).

Definition create_spark_session : P Session :=
  getOrCreate "spark.jars.packages" "org.apache.hadoop:hadoop-aws:2.7.0".

(** The assignment [logger = ...] at module level. *)
Definition set_logger (name : string) : P unit :=
  fun ps => (Done tt, mkProcess (job ps) (loggers ps) (Some name) (stderr ps)
                                (session ps)).

Module Logged.

Definition process_song_data (spark : Engine) (W : World)
    (input_base_path output_base_path : string) : P unit :=
  (let f := "process_song_data" in
   log f INFO "Loading artist and song metadata." ;;;
   log f WARNING "Due to overpopulation on the source bucket, only a small subset of song logs will be ingested." ;;;
   df <- run (read_json W song_data) ;;
   log f INFO "Done." ;;;
   log f INFO "Gathering song metadata." ;;;
   song_df <- run (lift (rmap (dropDuplicates spark) (select song_columns df))) ;;
   log f INFO "Done." ;;;
   log f INFO "Gathering artist metadata." ;;;
   artist_df <- run (lift (rbind (select artist_columns df)
                                 (withColumn "id" monotonically_increasing_id))) ;;
   run (createOrReplaceTempView "sparkify" artist_df) ;;;
   artist_df <- run (sql spark artist_select_distinct) ;;
   log f INFO "Done." ;;;
   log f DEBUG "Creating SQL views for artists and songs dataframes." ;;;
   run (createOrReplaceTempView "artists" artist_df) ;;;
   run (createOrReplaceTempView "songs" song_df) ;;;
   log f DEBUG "Done." ;;;
   log f INFO "Writing song dataframe to s3 partitioned by year and artist_name in parquet format." ;;;
   run (save song_df ["year"; "artist_name"] "parquet" "overwrite"
             (output_base_path +:+ "songs")) ;;;
   log f INFO "Done." ;;;
   log f INFO "Writing artist dataframe to s3 in parquet format." ;;;
   run (save artist_df [] "parquet" "overwrite" (output_base_path +:+ "artists")) ;;;
   log f INFO "Done.")%proc.

Definition process_log_data (spark : Engine) (W : World)
    (input_base_path output_base_path : string) : P unit :=
  (let f := "process_log_data" in
   log f INFO "Loading user log data." ;;;
   df <- run (read_json W (log_data input_base_path)) ;;
   log_df <- run (lift (rbind (select_where event_columns df "page" (VStr "NextSong"))
                              (withColumn "id" monotonically_increasing_id))) ;;
   run (createOrReplaceTempView "sparkify" log_df) ;;;
   log f INFO "Done." ;;;
   log f INFO "Gathering songplay's fact dataframe" ;;;
   songplay_df <- run (sql spark get_songplay_log_data) ;;
   run (createOrReplaceTempView "logs" songplay_df) ;;;
   joined <- run (sql spark aggregate_songplay_data) ;;
   songplay_df <- run (lift (songplay_facts spark joined)) ;;
   log f INFO "Done." ;;;
   log f INFO "Gathering user data." ;;;
   user_df <- run (sql spark user_select_distinct) ;;
   log f INFO "Done." ;;;
   log f INFO "Gathering time data." ;;;
   time_df <- run (lift (time_dimension spark songplay_df)) ;;
   log f INFO "Done." ;;;
   log f INFO "Writing users dataframe to s3 in parquet format." ;;;
   run (save user_df [] "parquet" "overwrite" (output_base_path +:+ "users")) ;;;
   log f INFO "Done." ;;;
   log f INFO "Writing time dataframe to s3 partitioned by year and month in parquet format." ;;;
   run (save time_df ["year"; "month"] "parquet" "overwrite"
             (output_base_path +:+ "time")) ;;;
   log f INFO "Done." ;;;
   log f INFO "Writing songplay dataframe to s3 partitioned by year and month in parquet format." ;;;
   run (save songplay_df ["year"; "month"] "parquet" "overwrite"
             (output_base_path +:+ "songplays")) ;;;
   log f INFO "Done.")%proc.

(** [spark] is the cluster behind the session. *)
Definition main (spark : Engine) (W : World) : P unit :=
  (config <- run (read_config W "dl.cfg") ;;
   key <- run (config_get config "AWS" "AWS_ACCESS_KEY_ID") ;;
   run (setenv "AWS_ACCESS_KEY_ID" key) ;;;
   secret <- run (config_get config "AWS" "AWS_SECRET_ACCESS_KEY") ;;
   run (setenv "AWS_SECRET_ACCESS_KEY" secret) ;;;
   create_spark_session ;;;
   process_song_data spark W input_data output_data ;;;
   process_log_data spark W input_data output_data)%proc.

(** The module as it is executed, as a script ([__name__] is
    ["__main__"]) or on import. *)
Definition module (spark : Engine) (W : World) (__name__ : string) : P unit :=
  (if decide (__name__ = "__main__") then
     lg <- create_logger __name__ (Some false) ;;
     set_logger lg ;;;
     main spark W
   else pret tt)%proc.

End Logged.

(** A fresh interpreter: no dataset touched, no logger configured, no
    session. *)
Definition fresh : Process := mkProcess initial ∅ None [] None.

(** ** Notions of the logged script *)

(** The line the handler of [create_logger] writes for a record. *)
Definition formatted (r : LogRecord) : string :=
  rec_filename r +:+ ":" +:+ rec_funcName r +:+ ":"
  +:+ levelname (rec_level r) +:+ ":" +:+ rec_message r.

Definition line (func : string) (lvl : Level) (msg : string) : string :=
  "etl.py:" +:+ func +:+ ":" +:+ levelname lvl +:+ ":" +:+ msg.

(** The outcome of a run of the job, as the process sees it. *)
Definition outcome_of {A} (r : result A) : Outcome A :=
  match r with
  | Ok a => Done a
  | Err e => Throw (Raised e)
  end.

(** A process with the datasets [st] in which the script has done
    nothing yet. *)
Definition fresh_with (st : State) : Process :=
  mkProcess st ∅ None [] None.

(** The logger of the script as [create_logger] left it, bound to the
    global: one handler of its own, none on the root logger. *)
Definition configured (ps : Process) (level : Z) : Prop :=
  logger ps = Some "__main__" /\
  loggers ps !! "__main__"
  = Some (mkLogger level [mkHandler 0 etl_format]) /\
  lg_handlers (getLogger "" ps) = [].

(** [m'] does to the datasets what [m] does, and ends as [m] ends. *)
Definition follows {A} (m' : P A) (m : M A) : Prop :=
  forall ps, logger ps <> None ->
    (m' ps).1 = outcome_of (m (job ps)).1 /\
    job (m' ps).2 = (m (job ps)).2 /\
    logger (m' ps).2 = logger ps.

(** The lines a logger at [level] writes for a message. *)
Definition written (level : Z) (func : string) (lvl : Level)
    (msg : string) : list string :=
  if level <=? levelno lvl then [line func lvl msg] else [].

(** The messages of the two phases, in the order of the source. *)
Definition song_messages : list (Level * string) :=
  [(INFO, "Loading artist and song metadata.");
   (WARNING, "Due to overpopulation on the source bucket, only a small subset of song logs will be ingested.");
   (INFO, "Done.");
   (INFO, "Gathering song metadata.");
   (INFO, "Done.");
   (INFO, "Gathering artist metadata.");
   (INFO, "Done.");
   (DEBUG, "Creating SQL views for artists and songs dataframes.");
   (DEBUG, "Done.");
   (INFO, "Writing song dataframe to s3 partitioned by year and artist_name in parquet format.");
   (INFO, "Done.");
   (INFO, "Writing artist dataframe to s3 in parquet format.");
   (INFO, "Done.")].

Definition log_messages : list (Level * string) :=
  [(INFO, "Loading user log data.");
   (INFO, "Done.");
   (INFO, "Gathering songplay's fact dataframe");
   (INFO, "Done.");
   (INFO, "Gathering user data.");
   (INFO, "Done.");
   (INFO, "Gathering time data.");
   (INFO, "Done.");
   (INFO, "Writing users dataframe to s3 in parquet format.");
   (INFO, "Done.");
   (INFO, "Writing time dataframe to s3 partitioned by year and month in parquet format.");
   (INFO, "Done.");
   (INFO, "Writing songplay dataframe to s3 partitioned by year and month in parquet format.");
   (INFO, "Done.")].

Definition lines (level : Z) (func : string)
    (msgs : list (Level * string)) : list string :=
  msgs ≫= fun lm => written level func lm.1 lm.2.

(** Everything a complete run of the script writes. *)
Definition script_lines : list string :=
  lines 20 "process_song_data" song_messages
  ++ lines 20 "process_log_data" log_messages.

(** [m] writes the lines [l], in order, through the configured logger,
    which it leaves as it is: a run that fails has written an initial
    segment of [l]. *)
Definition writes {A} (level : Z) (m : P A) (l : list string) : Prop :=
  forall ps, configured ps level ->
    configured ((m ps).2) level /\
    exists w, stderr (m ps).2 = stderr ps ++ w /\
      (w `prefix_of` l) /\
      (forall a, (m ps).1 = Done a -> w = l).

(** [m] writes the last of the lines [l] exactly when it completes. *)
Definition reports {A} (level : Z) (m : P A) (l : list string) : Prop :=
  forall ps, configured ps level ->
    configured ((m ps).2) level /\
    exists w, stderr (m ps).2 = stderr ps ++ w /\
      (w `prefix_of` l) /\
      ((exists a, (m ps).1 = Done a) <-> w = l).

(** A step that always completes and leaves the datasets and the global
    alone. *)
Definition silent {X} (s : P X) : Prop :=
  forall ps, logger ps <> None ->
    (exists x, (s ps).1 = Done x) /\
    job (s ps).2 = job ps /\
    logger (s ps).2 = logger ps.

(** [create_logger] called once for each element of [modes]. *)
Fixpoint create_loggers (module_name : string) (modes : list (option bool))
    : P unit :=
  match modes with
  | [] => pret tt
  | mode :: modes' =>
      pbind (create_logger module_name mode)
            (fun _ => create_loggers module_name modes')
  end.

Definition hadoop_aws : string := "org.apache.hadoop:hadoop-aws:2.7.0".

(** The level [create_logger] sets. *)
Definition logger_level (debug_mode : option bool) : Z :=
  if negb (truthy debug_mode) then 20 else 10.

(** The metadata phase under the logger of [create_logger(debug_mode)]. *)
Definition song_phase (spark : Engine) (W : World) (inp out : string)
    (debug_mode : option bool) : P unit :=
  pbind (create_logger "__main__" debug_mode) (fun lg =>
  pbind (set_logger lg) (fun _ =>
  Logged.process_song_data spark W inp out)).

(** [create_logger] called for each of [modes], the last logger bound,
    and one message logged through it. *)
Definition logged_once (modes : list (option bool)) (func msg : string) : P unit :=
  pbind (create_loggers "__main__" modes) (fun _ =>
  pbind (set_logger "__main__") (fun _ => log func INFO msg)).

(** [import etl] followed by [etl.main()]. *)
Definition import_then_main (spark : Engine) (W : World) (name : string) : P unit :=
  pbind (Logged.module spark W name) (fun _ => Logged.main spark W).

(** The process after [main] set the credentials and got its session. *)
Definition with_session (ps : Process) (key secret : string) : Process :=
  let st := with_credentials (job ps) key secret in
  let s := match session ps with
           | Some s => s
           | None => mkSession ∅ (environ st)
           end in
  mkProcess st (loggers ps) (logger ps) (stderr ps)
    (Some (mkSession (<["spark.jars.packages" := hadoop_aws]> (conf s))
                     (jvm_environ s))).

(** * Properties *)

Example int_truediv_scenario : int_truediv 1000000 1000 = 1000.
Proof. reflexivity. Qed.

Example int_truediv_negative : int_truediv (-1) 1000 = 0.
Proof. reflexivity. Qed.

Example datetime_2018 :
  datetime_of_seconds 1542241826 = mkDateTime 2018 11 15 0 30 26.
Proof. reflexivity. Qed.

Example week_2018 :
  iso_week (mkDateTime 2018 11 15 0 30 26) = 46
  /\ weekday_name (mkDateTime 2018 11 15 0 30 26) = "Thu".
Proof. split; reflexivity. Qed.

(** ** The arithmetic of [get_start_time] *)

Section TrueDivision.

(** Rounding the quotient scaled by [2^k] and dropping the [k] fraction
    bits gives the integer part of [a / 1000] as soon as the grid is
    finer than a thousandth. *)
Lemma half_even_scaled (a k : Z) :
  0 <= a -> 9 <= k -> div_half_even (a * 2 ^ k) 1000 / 2 ^ k = a / 1000.
Proof.
  intros Ha Hk.
  assert (HP : 512 <= 2 ^ k).
  { change 512 with (2 ^ 9). apply Z.pow_le_mono_r; lia. }
  set (P := 2 ^ k) in *.
  pose proof (Z.div_mod (a * P) 1000 ltac:(lia)) as HN.
  pose proof (Z.mod_pos_bound (a * P) 1000 ltac:(lia)) as Hr.
  pose proof (Z.div_mod a 1000 ltac:(lia)) as Hat.
  pose proof (Z.mod_pos_bound a 1000 ltac:(lia)) as Hs.
  set (q := a * P / 1000) in *. set (r := (a * P) mod 1000) in *.
  set (t := a / 1000) in *. set (s := a mod 1000) in *.
  assert (Hq1 : t * P <= q) by nia.
  assert (Hq2 : q < (t + 1) * P) by nia.
  assert (Hup : 1000 <= 2 * r -> q + 1 < (t + 1) * P).
  { intros Hhalf.
    destruct (Z.eq_dec (q + 1) ((t + 1) * P)) as [Heq|]; [|lia].
    assert ((1000 - s) * P = 1000 - r) by nia.
    nia. }
  unfold div_half_even. fold q r.
  symmetry. apply Z.div_unique_pos with
    (r := (if 2 * r <? 1000 then q
           else if 1000 <? 2 * r then q + 1
           else if Z.even q then q else q + 1) - t * P).
  - repeat case_match; try apply Z.ltb_ge in H; try apply Z.ltb_ge in H0; lia.
  - lia.
Qed.

Lemma truediv_trunc_pos_exact (a : Z) :
  0 < a < 2 ^ 53 -> truediv_trunc_pos a 1000 = a / 1000.
Proof.
  intros [Hlo Hhi].
  assert (Hlog : 0 <= Z.log2 a < 53).
  { split; [apply Z.log2_nonneg|]. by apply Z.log2_lt_pow2. }
  assert (Hk : 9 <= mantissa_shift a 1000).
  { unfold mantissa_shift, scale2.
    change (Z.log2 1000) with 9.
    repeat case_match; simplify_eq; lia. }
  unfold truediv_trunc_pos, scale2.
  destruct (Z.leb_spec 0 (mantissa_shift a 1000)); [|lia].
  apply half_even_scaled; lia.
Qed.

(** On every integer a double holds exactly, [int(a / 1000)] is the
    quotient rounded toward zero. *)
Lemma int_truediv_quot (a : Z) :
  - 2 ^ 53 < a < 2 ^ 53 -> int_truediv a 1000 = Z.quot a 1000.
Proof.
  intros Ha. unfold int_truediv.
  destruct (Z.eqb_spec a 0) as [->|Hne]; [done|].
  destruct (Z.ltb_spec 0 a).
  - rewrite truediv_trunc_pos_exact by lia.
    symmetry. apply Z.quot_div_nonneg; lia.
  - rewrite truediv_trunc_pos_exact by lia.
    rewrite <- (Z.opp_involutive a) at 2.
    rewrite Z.quot_opp_l by lia.
    f_equal. symmetry. apply Z.quot_div_nonneg; lia.
Qed.

Lemma int_truediv_floor (a : Z) :
  0 <= a < 2 ^ 53 -> int_truediv a 1000 = a / 1000.
Proof.
  intros Ha. rewrite int_truediv_quot by lia.
  apply Z.quot_div_nonneg; lia.
Qed.

End TrueDivision.

(** ** Results and row maps *)

Section RowMaps.

Context {A B : Type}.

Lemma rbind_ok {C D} (r : result C) (f : C -> result D) (d : D) :
  rbind r f = Ok d <-> exists c, r = Ok c /\ f c = Ok d.
Proof.
  destruct r; simpl; split.
  - eauto.
  - by intros (? & [= <-] & ?).
  - done.
  - intros (? & [=] & _).
Qed.

Lemma rmap_ok {C D} (f : C -> D) (r : result C) (d : D) :
  rmap f r = Ok d <-> exists c, r = Ok c /\ d = f c.
Proof.
  destruct r; simpl; split.
  - intros [= <-]. eauto.
  - by intros (? & [= <-] & ->).
  - done.
  - intros (? & [=] & _).
Qed.

(** A map with positions succeeds exactly when it succeeds at every
    position, and keeps the positions. *)
Lemma rmapM_indexed_ok (g : nat -> A -> result B) (n : nat) (l : list A)
    (out : list B) :
  rmapM (fun '(i, x) => g i x) (indexed n l) = Ok out <->
  length out = length l /\
  forall i x, l !! i = Some x ->
    exists y, g (n + i)%nat x = Ok y /\ out !! i = Some y.
Proof.
  revert n out. induction l as [|x l IH]; intros n out; simpl.
  - split.
    + intros [= <-]. split; [done|]. intros i x; by rewrite lookup_nil.
    + intros [Hlen _]. destruct out; [done|discriminate].
  - rewrite rbind_ok. split.
    + intros (y & Hy & H). apply rbind_ok in H as (ys & Hys & [= <-]).
      apply IH in Hys as [Hlen Hpos]. split; [simpl; by rewrite Hlen|].
      intros [|i] x'; simpl.
      * intros [= <-]. rewrite Nat.add_0_r. eauto.
      * intros Hx. rewrite <- Nat.add_succ_comm. by apply Hpos.
    + intros [Hlen Hpos]. destruct out as [|y ys]; [discriminate|].
      destruct (Hpos 0%nat x eq_refl) as (y' & Hy' & [= <-]).
      rewrite Nat.add_0_r in Hy'.
      exists y. split; [done|]. apply rbind_ok. exists ys. split; [|done].
      apply IH. split; [simpl in Hlen; lia|].
      intros i x' Hx. rewrite Nat.add_succ_comm. apply (Hpos (S i) x' Hx).
Qed.

End RowMaps.

Section MapRows.

Variable f : nat -> nat -> Row -> result Row.

Lemma map_rows_ok (parts out : list (list Row)) :
  map_rows f parts = Ok out <->
  length out = length parts /\
  forall p part, parts !! p = Some part ->
    exists opart, out !! p = Some opart /\ length opart = length part /\
      forall i r, part !! i = Some r ->
        exists r', f p i r = Ok r' /\ opart !! i = Some r'.
Proof.
  unfold map_rows.
  rewrite (rmapM_indexed_ok
    (fun p part => rmapM (fun '(i, r) => f p i r) (indexed 0 part))).
  split; intros [Hlen H]; (split; [done|]); intros p part Hp.
  - destruct (H p part Hp) as (opart & Ho & Hlk).
    apply rmapM_indexed_ok in Ho as [? ?]. eauto.
  - destruct (H p part Hp) as (opart & Hlk & Hl & Hi).
    exists opart. split; [|done]. by apply rmapM_indexed_ok.
Qed.

Lemma map_rows_row_at (parts out : list (list Row)) (p i : nat) :
  map_rows f parts = Ok out ->
  match row_at parts p i with
  | Some r => exists r', f p i r = Ok r' /\ row_at out p i = Some r'
  | None => row_at out p i = None
  end.
Proof.
  intros [Hlen H]%map_rows_ok. unfold row_at.
  destruct (parts !! p) as [part|] eqn:Hp; simpl.
  - destruct (H p part Hp) as (opart & -> & Hl & Hi). simpl.
    destruct (part !! i) as [r|] eqn:Hr.
    + by apply Hi.
    + apply lookup_ge_None. apply lookup_ge_None in Hr. lia.
  - apply lookup_ge_None in Hp.
    rewrite (proj2 (lookup_ge_None out p)); [done|lia].
Qed.

End MapRows.

Lemma elem_of_concat {A} (ls : list (list A)) (x : A) :
  x ∈ concat ls <-> exists l, x ∈ l /\ l ∈ ls.
Proof.
  induction ls as [|l ls IH]; simpl.
  - split; [by intros ?%elem_of_nil|]. by intros (? & _ & ?%elem_of_nil).
  - rewrite elem_of_app, IH. split.
    + intros [?|(l' & ? & ?)]; [exists l|exists l']; split; try done.
      * apply elem_of_cons; by left.
      * apply elem_of_cons; by right.
    + intros (l' & Hx & [->|?]%elem_of_cons); eauto.
Qed.

(** Rows of a partitioned list are found at their positions. *)
Lemma elem_of_concat_row_at {A} (parts : list (list A)) (r : A) :
  r ∈ concat parts <-> exists p i, row_at parts p i = Some r.
Proof.
  unfold row_at. rewrite elem_of_concat. split.
  - intros (part & Hr & Hpart).
    apply list_elem_of_lookup in Hpart as [p Hp].
    apply list_elem_of_lookup in Hr as [i Hi].
    exists p, i. by rewrite Hp.
  - intros (p & i & H). destruct (parts !! p) as [part|] eqn:Hp; [|done].
    exists part. split; [by eapply list_elem_of_lookup_2|by eapply list_elem_of_lookup_2].
Qed.

(** Values that differ at different positions are all different. *)
Lemma NoDup_by_position {K} (g : Row -> K) (parts : list (list Row)) :
  (forall p i r p' i' r',
     row_at parts p i = Some r -> row_at parts p' i' = Some r' ->
     g r = g r' -> p = p' /\ i = i') ->
  NoDup (map g (concat parts)).
Proof.
  induction parts as [|part parts IH]; intros H; simpl; [constructor|].
  rewrite map_app. apply NoDup_app. split_and!.
  - apply NoDup_alt. intros i j k Hi Hj.
    apply list_lookup_fmap_Some in Hi as (r & -> & Hr).
    apply list_lookup_fmap_Some in Hj as (r' & Heq & Hr').
    by destruct (H 0%nat i r 0%nat j r') as [_ ?].
  - intros k Hk Hk'.
    apply list_elem_of_fmap in Hk as (r & -> & Hr).
    apply list_elem_of_fmap in Hk' as (r' & Heq & Hr').
    apply list_elem_of_lookup in Hr as [i Hi].
    apply elem_of_concat_row_at in Hr' as (p' & i' & Hr').
    by destruct (H 0%nat i r (S p') i' r') as [? _].
  - apply IH. intros p i r p' i' r' Hr Hr' Heq.
    destruct (H (S p) i r (S p') i' r') as [? ?]; [done..|]. split; congruence.
Qed.

(** ** Cells of aligned rows *)

(** Closes [c ∉ [c1; ...; cn]] from the disequalities at hand. *)
Ltac not_in :=
  repeat (apply not_elem_of_cons; split; [done|]); apply not_elem_of_nil.

(** Closes [c ∈ [c1; ...; cn]] for a listed name. *)
Ltac is_in :=
  repeat first [apply list_elem_of_here | apply list_elem_of_further].

(** Splits [H : c ∉ [c1; ...; cn]] into its disequalities. *)
Ltac split_not_in H :=
  repeat (let H' := fresh "Hne" in apply not_elem_of_cons in H as [H' H]).

Section Cells.

Implicit Types (cols names : list string) (r : Row) (c n m : string).

Lemma col_index_Some cols c (i : nat) :
  col_index c cols = Some i -> cols !! i = Some c.
Proof.
  revert i. induction cols as [|c' cols IH]; intros i; simpl; [done|].
  destruct (decide (c = c')) as [->|Hne].
  - by intros [= <-].
  - destruct (col_index c cols) as [j|]; [|done]. intros [= <-]. by apply IH.
Qed.

Lemma col_index_None cols c : col_index c cols = None <-> c ∉ cols.
Proof.
  induction cols as [|c' cols IH]; simpl.
  - split; [intros _; apply not_elem_of_nil|done].
  - rewrite not_elem_of_cons. destruct (decide (c = c')) as [->|Hne].
    + split; [done|]. by intros [? _].
    + destruct (col_index c cols); simpl.
      * split; [done|]. intros [_ H]. by apply IH in H.
      * split; [|done]. intros _. split; [done|]. by apply IH.
Qed.

Lemma col_index_app cols c n :
  col_index c (cols ++ [n]) =
  match col_index c cols with
  | Some j => Some j
  | None => if decide (c = n) then Some (length cols) else None
  end.
Proof.
  induction cols as [|c' cols IH]; simpl.
  - by destruct (decide (c = n)).
  - destruct (decide (c = c')); [done|]. rewrite IH.
    destruct (col_index c cols); simpl; [done|]. by destruct (decide (c = n)).
Qed.

Lemma cell_cons cols c c' (x : Value) r :
  cell (c' :: cols) c (x :: r) = if decide (c = c') then x else cell cols c r.
Proof.
  unfold cell. simpl. destruct (decide (c = c')); [done|].
  by destruct (col_index c cols).
Qed.

Lemma cell_missing cols c r : c ∉ cols -> cell cols c r = VNull.
Proof. intros H%col_index_None. unfold cell. by rewrite H. Qed.

Lemma cell_put_same cols n (v : Value) r :
  length r = length cols ->
  cell (put_column cols n) n (put_cell cols n v r) = v.
Proof.
  intros Hlen. unfold cell, put_column, put_cell.
  destruct (col_index n cols) as [i|] eqn:Hi.
  - rewrite Hi. apply col_index_Some, lookup_lt_Some in Hi.
    rewrite list_lookup_insert_eq by lia. done.
  - rewrite col_index_app, Hi. rewrite decide_True by done.
    rewrite lookup_app_r by lia. by rewrite Hlen, Nat.sub_diag.
Qed.

Lemma cell_put_other cols n m (v : Value) r :
  m <> n -> length r = length cols ->
  cell (put_column cols n) m (put_cell cols n v r) = cell cols m r.
Proof.
  intros Hne Hlen. unfold cell, put_column, put_cell.
  destruct (col_index n cols) as [i|] eqn:Hi.
  - destruct (col_index m cols) as [j|] eqn:Hj; [|done].
    rewrite list_lookup_insert_ne; [done|].
    intros ->. apply col_index_Some in Hi, Hj. congruence.
  - rewrite col_index_app. destruct (col_index m cols) as [j|] eqn:Hj.
    + apply col_index_Some, lookup_lt_Some in Hj.
      rewrite lookup_app_l by lia. done.
    + by rewrite decide_False.
Qed.

Lemma length_put_cell cols n (v : Value) r :
  length r = length cols ->
  length (put_cell cols n v r) = length (put_column cols n).
Proof.
  intros Hlen. unfold put_column, put_cell.
  destruct (col_index n cols).
  - by rewrite length_insert.
  - rewrite !length_app. simpl. lia.
Qed.

Lemma cell_drop cols names m r :
  m ∉ names -> length r = length cols ->
  cell (filter (fun c => c ∉ names) cols) m (drop_cells cols names r)
  = cell cols m r.
Proof.
  intros Hm. revert r. unfold drop_cells.
  induction cols as [|c cols IH]; intros [|x r] Hlen; try done.
  simpl zip. rewrite !filter_cons. simpl.
  rewrite cell_cons. destruct (decide (c ∉ names)) as [Hc|Hc].
  - simpl. rewrite cell_cons. destruct (decide (m = c)); [done|].
    apply IH. simpl in Hlen. lia.
  - rewrite decide_False by (intros ->; done).
    apply IH. simpl in Hlen. lia.
Qed.

Lemma length_drop_cells cols names r :
  length r = length cols ->
  length (drop_cells cols names r) = length (filter (fun c => c ∉ names) cols).
Proof.
  revert r. unfold drop_cells.
  induction cols as [|c cols IH]; intros [|x r] Hlen; try done.
  simpl zip. rewrite !filter_cons. simpl.
  destruct (decide (c ∉ names)); simpl; rewrite IH; simpl in Hlen; lia.
Qed.

Lemma length_project cols names r : length (project cols names r) = length names.
Proof. unfold project. by rewrite length_map. Qed.

(** A projected row shows, under each name, the cell it was taken from. *)
Lemma cell_project cols names c r :
  c ∈ names -> cell names c (project cols names r) = cell cols c r.
Proof.
  unfold project. induction names as [|n names IH]; [by intros ?%elem_of_nil|].
  intros Hc. simpl. rewrite cell_cons. destruct (decide (c = n)) as [->|Hne]; [done|].
  apply IH. apply elem_of_cons in Hc as [?|?]; done.
Qed.

End Cells.

Lemma row_at_map {A B} (g : A -> B) (parts : list (list A)) (p i : nat) :
  row_at (map (map g) parts) p i = g <$> row_at parts p i.
Proof.
  unfold row_at. change (map (map g) parts) with (map g <$> parts).
  rewrite list_lookup_fmap. destruct (parts !! p) as [part|]; [|done]. simpl.
  change (map g part) with (g <$> part). by rewrite list_lookup_fmap.
Qed.

(** ** The transformations, row by row *)

Lemma resolve_ok (needed cols : list string) :
  resolve needed cols = Ok tt <-> forall c, c ∈ needed -> c ∈ cols.
Proof.
  unfold resolve. induction needed as [|c cs IH]; simpl.
  - split; [|done]. by intros _ c ?%elem_of_nil.
  - destruct (bool_decide_reflect (c ∈ cols)) as [Hc|Hc].
    + rewrite IH. split.
      * intros H c' [->|?]%elem_of_cons; auto.
      * intros H c' ?. apply H, elem_of_cons. by right.
    + split; [done|]. intros H. destruct Hc. apply H, elem_of_cons. by left.
Qed.

Lemma resolve_unit (needed cols : list string) (u : unit) :
  resolve needed cols = Ok u <-> forall c, c ∈ needed -> c ∈ cols.
Proof. destruct u. apply resolve_ok. Qed.

Lemma rmapM_indexed_pure {A B} (g : A -> B) (h : nat * A -> result B)
    (n : nat) (l : list A) :
  (forall i x, h (i, x) = Ok (g x)) -> rmapM h (indexed n l) = Ok (map g l).
Proof.
  intros H. revert n. induction l as [|x l IH]; intros n; simpl; [done|].
  by rewrite H, IH.
Qed.

Lemma map_rows_pure (f : nat -> nat -> Row -> result Row) (g : Row -> Row)
    (parts : list (list Row)) :
  (forall p i r, f p i r = Ok (g r)) -> map_rows f parts = Ok (map (map g) parts).
Proof.
  intros H. unfold map_rows. apply rmapM_indexed_pure.
  intros p part. by apply rmapM_indexed_pure.
Qed.

Lemma named_cols_fst (names : list string) :
  (map (fun n => (n, col n)) names).*1 = names.
Proof. induction names as [|n l IH]; simpl; [done|]. f_equal; exact IH. Qed.

Lemma named_cols_snd (names : list string) :
  (map (fun n => (n, col n)) names).*2 = map col names.
Proof. induction names as [|n l IH]; simpl; [done|]. f_equal; exact IH. Qed.

Lemma col_refs (names : list string) : (map col names ≫= column_refs) = names.
Proof. induction names as [|n l IH]; simpl; [done|]. f_equal; exact IH. Qed.

Lemma select_inv (names : list string) (df d : DataFrame) :
  select names df = Ok d <->
  (forall c, c ∈ names -> c ∈ columns df) /\
  d = {| columns := names;
         partitions := rmap (map (map (project (columns df) names)))
                            (partitions df) |}.
Proof.
  unfold select, select_exprs.
  rewrite named_cols_fst, named_cols_snd, col_refs.
  assert (Hp : rbind (partitions df) (map_rows (fun p i r =>
                 rmapM (fun e => eval (columns df) e p i r) (map col names)))
               = rmap (map (map (project (columns df) names))) (partitions df)).
  { destruct (partitions df) as [parts|e]; simpl; [|done].
    apply map_rows_pure. intros p i r. unfold project.
    induction names as [|n names IH]; simpl; [done|]. by rewrite IH. }
  rewrite Hp, rbind_ok. split.
  - intros (u & Hu & [= <-]). split; [|done]. exact (proj1 (resolve_unit _ _ _) Hu).
  - intros [Hc ->]. exists tt. split; [by apply resolve_ok|done].
Qed.

Lemma withColumn_inv (n : string) (e : Column) (df d : DataFrame) :
  withColumn n e df = Ok d <->
  (forall c, c ∈ column_refs e -> c ∈ columns df) /\
  d = {| columns := put_column (columns df) n;
         partitions := rbind (partitions df) (map_rows (fun p i r =>
           rmap (fun v => put_cell (columns df) n v r)
                (eval (columns df) e p i r))) |}.
Proof.
  unfold withColumn. rewrite rbind_ok. split.
  - intros (u & Hu & [= <-]). split; [|done]. exact (proj1 (resolve_unit _ _ _) Hu).
  - intros [Hc ->]. exists tt. split; [by apply resolve_ok|done].
Qed.

(** The rows of [withColumn n e df], position by position. *)
Lemma withColumn_rows (n : string) (e : Column) (df d : DataFrame)
    (out : list (list Row)) :
  withColumn n e df = Ok d -> partitions d = Ok out ->
  columns d = put_column (columns df) n /\
  exists parts, partitions df = Ok parts /\
    forall p i,
      match row_at parts p i with
      | Some r => exists v, eval (columns df) e p i r = Ok v /\
                    row_at out p i = Some (put_cell (columns df) n v r)
      | None => row_at out p i = None
      end.
Proof.
  intros [_ ->]%withColumn_inv. simpl. intros (parts & Hparts & Hmap)%rbind_ok.
  split; [done|]. exists parts. split; [done|]. intros p i.
  pose proof (map_rows_row_at _ _ _ p i Hmap) as H.
  destruct (row_at parts p i) as [r|]; [|done].
  destruct H as (r' & Hr' & Hout). apply rmap_ok in Hr' as (v & Hv & ->). eauto.
Qed.

Lemma withColumn_aligned (n : string) (e : Column) (df d : DataFrame) :
  aligned df -> withColumn n e df = Ok d -> aligned d.
Proof.
  intros Hal Hd out Hout p i r' Hr'.
  destruct (withColumn_rows _ _ _ _ _ Hd Hout) as (-> & parts & Hparts & Hpos).
  specialize (Hpos p i). destruct (row_at parts p i) as [r|] eqn:Hr.
  - destruct Hpos as (v & _ & Hrow). rewrite Hr' in Hrow. injection Hrow as ->.
    apply length_put_cell. by eapply Hal.
  - congruence.
Qed.

(** ** The songplay facts, row by row *)

Lemma songplay_facts_rows (E : Engine) (joined facts : DataFrame)
    (out : list (list Row)) :
  aligned joined -> songplay_facts E joined = Ok facts ->
  partitions facts = Ok out ->
  exists jparts, partitions joined = Ok jparts /\
    forall p i,
      match row_at jparts p i with
      | None => row_at out p i = None
      | Some r => exists z d f,
          py_int (cell (columns joined) "ts" r) = Ok z /\
          fromtimestamp (utc_offset E) (int_truediv z 1000) = Ok d /\
          row_at out p i = Some f /\
          length f = length (columns facts) /\
          cell (columns facts) "start_time" f = VLong (int_truediv z 1000) /\
          cell (columns facts) "songplay_id" f = VLong (mono_id p i) /\
          cell (columns facts) "year" f = VLong (dt_year d) /\
          cell (columns facts) "month" f = VLong (dt_month d) /\
          (forall c, c ∉ derived_columns ->
             cell (columns facts) c f = cell (columns joined) c r)
      end.
Proof.
  intros Hal H Hout. unfold songplay_facts in H.
  apply rbind_ok in H as (d1 & H1 & H).
  apply rbind_ok in H as (d2 & H2 & H).
  apply rbind_ok in H as (d3 & H3 & H).
  apply rbind_ok in H as (d4 & H4 & H).
  apply rbind_ok in H as (d5 & H5 & [= <-]).
  pose proof (withColumn_aligned _ _ _ _ Hal H1) as Hal1.
  pose proof (withColumn_aligned _ _ _ _ Hal1 H2) as Hal2.
  pose proof (withColumn_aligned _ _ _ _ Hal2 H3) as Hal3.
  pose proof (withColumn_aligned _ _ _ _ Hal3 H4) as Hal4.
  pose proof (withColumn_aligned _ _ _ _ Hal4 H5) as Hal5.
  simpl in Hout. apply rmap_ok in Hout as (o5 & Ho5 & ->).
  destruct (withColumn_rows _ _ _ _ _ H5 Ho5) as (Hc5 & o4 & Ho4 & Hr5).
  destruct (withColumn_rows _ _ _ _ _ H4 Ho4) as (Hc4 & o3 & Ho3 & Hr4).
  destruct (withColumn_rows _ _ _ _ _ H3 Ho3) as (Hc3 & o2 & Ho2 & Hr3).
  destruct (withColumn_rows _ _ _ _ _ H2 Ho2) as (Hc2 & o1 & Ho1 & Hr2).
  destruct (withColumn_rows _ _ _ _ _ H1 Ho1) as (Hc1 & o0 & Ho0 & Hr1).
  rewrite Hc1 in Hr2, Hc2. rewrite Hc2 in Hr3, Hc3.
  rewrite Hc3 in Hr4, Hc4. rewrite Hc4 in Hr5, Hc5.
  exists o0. split; [done|]. intros p i.
  specialize (Hr1 p i). specialize (Hr2 p i). specialize (Hr3 p i).
  specialize (Hr4 p i). specialize (Hr5 p i). rewrite row_at_map.
  destruct (row_at o0 p i) as [r|] eqn:Hr0; cycle 1.
  { rewrite Hr1 in Hr2. rewrite Hr2 in Hr3. rewrite Hr3 in Hr4.
    rewrite Hr4 in Hr5. by rewrite Hr5. }
  destruct Hr1 as (v1 & Hv1 & Hrow1). rewrite Hrow1 in Hr2.
  destruct Hr2 as (v2 & Hv2 & Hrow2). rewrite Hrow2 in Hr3.
  destruct Hr3 as (v3 & Hv3 & Hrow3). rewrite Hrow3 in Hr4.
  destruct Hr4 as (v4 & Hv4 & Hrow4). rewrite Hrow4 in Hr5.
  destruct Hr5 as (v5 & Hv5 & Hrow5). rewrite Hrow5. simpl.
  pose proof (Hal _ Ho0 _ _ _ Hr0) as L0.
  pose proof (Hal1 _ Ho1 _ _ _ Hrow1) as L1.
  pose proof (Hal2 _ Ho2 _ _ _ Hrow2) as L2.
  pose proof (Hal3 _ Ho3 _ _ _ Hrow3) as L3.
  pose proof (Hal4 _ Ho4 _ _ _ Hrow4) as L4.
  pose proof (Hal5 _ Ho5 _ _ _ Hrow5) as L5.
  rewrite Hc1 in L1. rewrite Hc2 in L2. rewrite Hc3 in L3. rewrite Hc4 in L4.
  rewrite Hc5 in L5 |- *.
  simpl in Hv1, Hv2, Hv3, Hv4, Hv5.
  apply rbind_ok in Hv1 as (z & Hz & [= <-]).
  injection Hv2 as <-.
  rewrite cell_put_other, cell_put_same in Hv3 by done.
  simpl in Hv3. apply rmap_ok in Hv3 as (d & Hd & ->).
  rewrite cell_put_same in Hv4 by done. injection Hv4 as <-.
  rewrite cell_put_other, cell_put_same in Hv5 by done. injection Hv5 as <-.
  exists z, d. eexists. split_and!; try done.
  - by apply length_drop_cells.
  - rewrite cell_drop by (done || not_in).
    by rewrite !cell_put_other, cell_put_same by done.
  - rewrite cell_drop by (done || not_in).
    by rewrite !cell_put_other, cell_put_same by done.
  - rewrite cell_drop by (done || not_in).
    by rewrite !cell_put_other, cell_put_same by done.
  - rewrite cell_drop by (done || not_in).
    by rewrite cell_put_same by done.
  - intros c Hc. unfold derived_columns in Hc. split_not_in Hc.
    rewrite cell_drop by (done || not_in).
    by rewrite !cell_put_other by done.
Qed.

(** ** Successful steps of a run *)

Section Steps.

Context {A B : Type}.

Lemma bind_ok (m : M A) (k : A -> M B) (st st' : State) (b : B) :
  bind m k st = (Ok b, st') <->
  exists a st1, m st = (Ok a, st1) /\ k a st1 = (Ok b, st').
Proof.
  unfold bind. destruct (m st) as [[a|e] st1]; split.
  - eauto.
  - by intros (? & ? & [= <- <-] & ?).
  - done.
  - by intros (? & ? & [=] & _).
Qed.

Lemma bind_err (m : M A) (k : A -> M B) (st st' : State) (e : Error) :
  bind m k st = (Err e, st') <->
  m st = (Err e, st') \/
  exists a st1, m st = (Ok a, st1) /\ k a st1 = (Err e, st').
Proof.
  unfold bind. destruct (m st) as [[a|e'] st1]; split.
  - eauto.
  - intros [H|(a' & s' & H1 & H2)]; [discriminate|]. by simplify_eq.
  - intros [= <- <-]. by left.
  - intros [H|(a' & s' & H1 & _)]; [by simplify_eq|discriminate].
Qed.

Lemma lift_ok (r : result A) (st st' : State) (a : A) :
  lift r st = (Ok a, st') <-> r = Ok a /\ st' = st.
Proof.
  destruct r; simpl; unfold ret, raise; split.
  - by intros [= <- <-].
  - by intros [[= <-] ->].
  - done.
  - by intros [[=] _].
Qed.

End Steps.

Lemma read_json_ok (W : World) (path : string) (st st' : State) (df : DataFrame) :
  read_json W path st = (Ok df, st') <->
  exists parts, bucket W !! path = Some parts /\ df = frame_of_json parts /\
    st' = mkState (environ st) (views st) (reads st ++ [path]) (output st).
Proof.
  unfold read_json. destruct (bucket W !! path) as [parts|]; split.
  - intros [= <- <-]. eauto.
  - by intros (? & [= <-] & -> & ->).
  - done.
  - by intros (? & [=] & _).
Qed.

Lemma view_ok (name : string) (df : DataFrame) (st st' : State) (u : unit) :
  createOrReplaceTempView name df st = (Ok u, st') <->
  st' = mkState (environ st) (<[name := df]> (views st)) (reads st) (output st).
Proof.
  unfold createOrReplaceTempView. destruct u. split; [by intros [= <-]|by intros ->].
Qed.

Lemma sql_ok (E : Engine) (q : Query) (st st' : State) (df : DataFrame) :
  sql E q st = (Ok df, st') <-> q E (views st) = Ok df /\ st' = st.
Proof. unfold sql. apply lift_ok. Qed.

Lemma save_overwrite_ok (df : DataFrame) (by_ : list string) (fmt path : string)
    (st st' : State) (u : unit) :
  save df by_ fmt "overwrite" path st = (Ok u, st') <->
  exists rows, resolve by_ (columns df) = Ok tt /\ collect df = Ok rows /\
    st' = mkState (environ st) (views st) (reads st)
            (<[path := mkRelation fmt by_ (columns df) rows]> (output st)).
Proof.
  unfold save. simpl. destruct u.
  destruct (resolve by_ (columns df)) as [[]|e]; simpl.
  - destruct (collect df) as [rows|e]; simpl; split.
    + intros [= <-]. eauto.
    + by intros (? & _ & [= <-] & ->).
    + done.
    + by intros (? & _ & [=] & _).
  - split; [done|]. by intros (? & [=] & _).
Qed.

Lemma artist_select_distinct_sparkify (E : Engine) (vs : gmap string DataFrame)
    (t : DataFrame) :
  artist_select_distinct E (<["sparkify" := t]> vs) = artist_distinct E t.
Proof. unfold artist_select_distinct, table. by rewrite lookup_insert_eq. Qed.

Lemma user_select_distinct_sparkify (E : Engine) (vs : gmap string DataFrame)
    (t l : DataFrame) :
  user_select_distinct E (<["logs" := l]> (<["sparkify" := t]> vs))
  = user_distinct E t.
Proof.
  unfold user_select_distinct, table.
  by rewrite lookup_insert_ne, lookup_insert_eq.
Qed.

Lemma get_songplay_log_data_sparkify (E : Engine) (vs : gmap string DataFrame)
    (t : DataFrame) :
  get_songplay_log_data E (<["sparkify" := t]> vs) = select log_columns t.
Proof. unfold get_songplay_log_data, table. by rewrite lookup_insert_eq. Qed.

Lemma aggregate_songplay_data_views (E : Engine) (vs : gmap string DataFrame)
    (t l : DataFrame) :
  aggregate_songplay_data E (<["logs" := l]> (<["sparkify" := t]> vs))
  = rbind (table vs "songs") (fun s =>
    rbind (table vs "artists") (fun a => join_frames E l s a)).
Proof.
  unfold aggregate_songplay_data, table.
  rewrite lookup_insert_eq. simpl.
  by rewrite !(lookup_insert_ne _ _ "songs"), !(lookup_insert_ne _ _ "artists").
Qed.

Lemma table_ok (vs : gmap string DataFrame) (name : string) (df : DataFrame) :
  table vs name = Ok df <-> vs !! name = Some df.
Proof.
  unfold table. destruct (vs !! name); split; try done; by intros [= ->].
Qed.

(** ** Successful runs of the two phases *)

Lemma process_song_data_ok (E : Engine) (W : World) (inp out : string)
    (st st' : State) :
  process_song_data E W inp out st = (Ok tt, st') <->
  exists parts s0 a0 tagged artists rs ra,
    bucket W !! song_data = Some parts /\
    select song_columns (frame_of_json parts) = Ok s0 /\
    select artist_columns (frame_of_json parts) = Ok a0 /\
    withColumn "id" monotonically_increasing_id a0 = Ok tagged /\
    artist_distinct E tagged = Ok artists /\
    collect (dropDuplicates E s0) = Ok rs /\
    collect artists = Ok ra /\
    st' = after_songs st out tagged artists (dropDuplicates E s0) rs ra.
Proof.
  unfold process_song_data. split.
  - intros H.
    apply bind_ok in H as (df & st1 & H1 & H).
    apply read_json_ok in H1 as (parts & Hparts & -> & ->).
    apply bind_ok in H as (song_df & st2 & H2 & H).
    apply lift_ok in H2 as [H2 ->]. apply rmap_ok in H2 as (s0 & Hs0 & ->).
    apply bind_ok in H as (tagged & st3 & H3 & H).
    apply lift_ok in H3 as [H3 ->]. apply rbind_ok in H3 as (a0 & Ha0 & Htag).
    apply bind_ok in H as ([] & st4 & H4 & H). apply view_ok in H4 as ->.
    apply bind_ok in H as (artists & st5 & H5 & H).
    apply sql_ok in H5 as [H5 ->]. simpl in H5.
    rewrite artist_select_distinct_sparkify in H5.
    apply bind_ok in H as ([] & st6 & H6 & H). apply view_ok in H6 as ->.
    apply bind_ok in H as ([] & st7 & H7 & H). apply view_ok in H7 as ->.
    apply bind_ok in H as ([] & st8 & H8 & H).
    apply save_overwrite_ok in H8 as (rs & _ & Hrs & ->).
    apply save_overwrite_ok in H as (ra & _ & Hra & ->).
    exists parts, s0, a0, tagged, artists, rs, ra. done.
  - intros (parts & s0 & a0 & tagged & artists & rs & ra &
            Hparts & Hs0 & Ha0 & Htag & Hart & Hrs & Hra & ->).
    apply bind_ok. eexists _, _. split; [apply read_json_ok; eauto|].
    apply bind_ok. eexists _, _. split.
    { apply lift_ok. split; [|done]. rewrite Hs0. done. }
    apply bind_ok. eexists _, _. split.
    { apply lift_ok. split; [|done]. rewrite Ha0. exact Htag. }
    apply bind_ok. eexists tt, _. split; [by apply view_ok|].
    apply bind_ok. eexists _, _. split.
    { apply sql_ok. split; [|done]. simpl.
      rewrite artist_select_distinct_sparkify. exact Hart. }
    apply bind_ok. eexists tt, _. split; [by apply view_ok|].
    apply bind_ok. eexists tt, _. split; [by apply view_ok|].
    apply bind_ok. eexists tt, _. split.
    { apply save_overwrite_ok. exists rs. split_and!; [|done|done].
      apply select_inv in Hs0 as [_ ->]. done. }
    apply save_overwrite_ok. exists ra. split_and!; done.
Qed.

Lemma process_log_data_ok (E : Engine) (W : World) (inp out : string)
    (st st' : State) :
  process_log_data E W inp out st = (Ok tt, st') <->
  exists parts sel log_df logs s a joined facts users time ru rt rf,
    bucket W !! log_data inp = Some parts /\
    select_where event_columns (frame_of_json parts) "page" (VStr "NextSong")
      = Ok sel /\
    withColumn "id" monotonically_increasing_id sel = Ok log_df /\
    select log_columns log_df = Ok logs /\
    views st !! "songs" = Some s /\
    views st !! "artists" = Some a /\
    join_frames E logs s a = Ok joined /\
    songplay_facts E joined = Ok facts /\
    user_distinct E log_df = Ok users /\
    time_dimension E facts = Ok time /\
    collect users = Ok ru /\
    resolve ["year"; "month"] (columns time) = Ok tt /\
    collect time = Ok rt /\
    resolve ["year"; "month"] (columns facts) = Ok tt /\
    collect facts = Ok rf /\
    st' = after_logs st inp out log_df logs users time facts ru rt rf.
Proof.
  unfold process_log_data. split.
  - intros H.
    apply bind_ok in H as (df & st1 & H1 & H).
    apply read_json_ok in H1 as (parts & Hparts & -> & ->).
    apply bind_ok in H as (log_df & st2 & H2 & H).
    apply lift_ok in H2 as [H2 ->]. apply rbind_ok in H2 as (sel & Hsel & Hlog).
    apply bind_ok in H as ([] & st3 & H3 & H). apply view_ok in H3 as ->.
    apply bind_ok in H as (logs & st4 & H4 & H).
    apply sql_ok in H4 as [H4 ->]. simpl in H4.
    rewrite get_songplay_log_data_sparkify in H4.
    apply bind_ok in H as ([] & st5 & H5 & H). apply view_ok in H5 as ->.
    apply bind_ok in H as (joined & st6 & H6 & H).
    apply sql_ok in H6 as [H6 ->]. simpl in H6.
    rewrite aggregate_songplay_data_views in H6.
    apply rbind_ok in H6 as (s & Hs%table_ok & H6).
    apply rbind_ok in H6 as (a & Ha%table_ok & Hjoin).
    apply bind_ok in H as (facts & st7 & H7 & H). apply lift_ok in H7 as [Hf ->].
    apply bind_ok in H as (users & st8 & H8 & H).
    apply sql_ok in H8 as [H8 ->]. simpl in H8.
    rewrite user_select_distinct_sparkify in H8.
    apply bind_ok in H as (time & st9 & H9 & H). apply lift_ok in H9 as [Ht ->].
    apply bind_ok in H as ([] & st10 & H10 & H).
    apply save_overwrite_ok in H10 as (ru & _ & Hru & ->).
    apply bind_ok in H as ([] & st11 & H11 & H).
    apply save_overwrite_ok in H11 as (rt & Hct & Hrt & ->).
    apply save_overwrite_ok in H as (rf & Hcf & Hrf & ->).
    exists parts, sel, log_df, logs, s, a, joined, facts, users, time, ru, rt, rf.
    done.
  - intros (parts & sel & log_df & logs & s & a & joined & facts & users & time &
            ru & rt & rf & Hparts & Hsel & Hlog & Hlogs & Hs & Ha & Hjoin & Hf &
            Hu & Ht & Hru & Hct & Hrt & Hcf & Hrf & ->).
    apply bind_ok. eexists _, _. split; [apply read_json_ok; eauto|].
    apply bind_ok. eexists _, _. split.
    { apply lift_ok. split; [|done]. rewrite Hsel. exact Hlog. }
    apply bind_ok. eexists tt, _. split; [by apply view_ok|].
    apply bind_ok. eexists _, _. split.
    { apply sql_ok. split; [|done]. simpl.
      rewrite get_songplay_log_data_sparkify. exact Hlogs. }
    apply bind_ok. eexists tt, _. split; [by apply view_ok|].
    apply bind_ok. eexists _, _. split.
    { apply sql_ok. split; [|done]. simpl.
      rewrite aggregate_songplay_data_views.
      apply table_ok in Hs, Ha. rewrite Hs, Ha. exact Hjoin. }
    apply bind_ok. eexists _, _. split; [by apply lift_ok|].
    apply bind_ok. eexists _, _. split.
    { apply sql_ok. split; [|done]. simpl.
      rewrite user_select_distinct_sparkify. exact Hu. }
    apply bind_ok. eexists _, _. split; [by apply lift_ok|].
    apply bind_ok. eexists tt, _. split.
    { apply save_overwrite_ok. exists ru. split_and!; done. }
    apply bind_ok. eexists tt, _. split.
    { apply save_overwrite_ok. exists rt. split_and!; done. }
    apply save_overwrite_ok. exists rf. split_and!; done.
Qed.

(** ** The configuration phase and the whole job *)

Lemma lower_access_key : lower "AWS_ACCESS_KEY_ID" = "aws_access_key_id".
Proof. vm_compute. reflexivity. Qed.

Lemma lower_secret_key : lower "AWS_SECRET_ACCESS_KEY" = "aws_secret_access_key".
Proof. vm_compute. reflexivity. Qed.

Lemma main_configured (E : Engine) (W : World) (st : State) (key secret : string) :
  credentials_of W = Some (key, secret) ->
  main E W st =
  bind (process_song_data E W input_data output_data)
       (fun _ => process_log_data E W input_data output_data)
       (with_credentials st key secret).
Proof.
  unfold credentials_of, main, read_config, config_get, setenv, bind, ret, raise.
  rewrite lower_access_key, lower_secret_key.
  destruct (local_files W !! "dl.cfg") as [[|c]|]; try done.
  destruct (assoc "AWS" c) as [opts|]; try done.
  destruct (assoc "aws_access_key_id" opts) as [k|]; try done.
  destruct (assoc "aws_secret_access_key" opts) as [s|]; try done.
  by intros [= -> ->].
Qed.

(** Without credentials the job stops at the configuration: nothing is
    read from the bucket, no view is registered, nothing is saved. *)
Lemma main_unconfigured (E : Engine) (W : World) (st : State) :
  credentials_of W = None ->
  exists e st', main E W st = (Err e, st') /\
    views st' = views st /\ reads st' = reads st /\ output st' = output st.
Proof.
  unfold credentials_of, main, read_config, config_get, setenv, bind, ret, raise.
  rewrite lower_access_key, lower_secret_key.
  destruct (local_files W !! "dl.cfg") as [[|c]|]; try (by eauto 10).
  destruct (assoc "AWS" c) as [opts|]; [|by eauto 10].
  destruct (assoc "aws_access_key_id" opts) as [k|]; [|by eauto 10].
  destruct (assoc "aws_secret_access_key" opts) as [s|]; [done|].
  intros _. eauto 10.
Qed.

Lemma main_unconfigured_error (E : Engine) (W : World) (st : State) :
  credentials_of W = None -> (main E W st).1 = Err (config_error W).
Proof.
  unfold credentials_of, config_error, main, read_config, config_get, setenv,
    bind, ret, raise.
  rewrite lower_access_key, lower_secret_key.
  destruct (local_files W !! "dl.cfg") as [[|c]|]; try done.
  destruct (assoc "AWS" c) as [opts|]; [|done].
  destruct (assoc "aws_access_key_id" opts) as [k|]; [|done].
  destruct (assoc "aws_secret_access_key" opts) as [s|]; done.
Qed.

(** ** Which steps read the bucket *)

Section Quiet.

Context {A B : Type}.

Lemma quiet_lift (r : result A) : quiet (lift r).
Proof. by destruct r. Qed.

Lemma quiet_bind (m : M A) (k : A -> M B) :
  quiet m -> (forall a, quiet (k a)) -> quiet (bind m k).
Proof.
  intros Hm Hk st. unfold bind. specialize (Hm st).
  destruct (m st) as [[a|e] st1]; simpl in *; [|done].
  by rewrite Hk.
Qed.

End Quiet.

Lemma quiet_view (name : string) (df : DataFrame) :
  quiet (createOrReplaceTempView name df).
Proof. done. Qed.

Lemma quiet_sql (E : Engine) (q : Query) : quiet (sql E q).
Proof. intros st. unfold sql. apply quiet_lift. Qed.

Lemma quiet_save (df : DataFrame) (by_ : list string) (fmt mode path : string) :
  quiet (save df by_ fmt mode path).
Proof. intros st. unfold save. by repeat case_match. Qed.

Create HintDb quiet.

#[local] Hint Resolve quiet_lift quiet_view quiet_sql quiet_save : quiet.

Ltac quiet_steps :=
  repeat (apply quiet_bind; [|intros ?]); auto with quiet.

(** A step that reads one path and continues quietly. *)
Lemma reads_one {A} (W : World) (path : string) (k : DataFrame -> M A)
    (st : State) :
  (forall df, quiet (k df)) ->
  reads (bind (read_json W path) k st).2 = reads st ++ [path].
Proof.
  intros Hk. unfold bind, read_json.
  destruct (bucket W !! path); simpl; [|done]. by rewrite Hk.
Qed.

Lemma process_song_data_reads (E : Engine) (W : World) (inp out : string)
    (st : State) :
  reads (process_song_data E W inp out st).2 = reads st ++ [song_data].
Proof. unfold process_song_data. apply reads_one. intros df. quiet_steps. Qed.

Lemma process_log_data_reads (E : Engine) (W : World) (inp out : string)
    (st : State) :
  reads (process_log_data E W inp out st).2 = reads st ++ [log_data inp].
Proof. unfold process_log_data. apply reads_one. intros df. quiet_steps. Qed.

(** ** Records, rows and paths *)

Lemma cell_to_row (cols : list string) (c : string) (o : JsonObject) :
  c ∈ cols -> cell cols c (to_row cols o) = field c o.
Proof.
  unfold to_row. induction cols as [|c' cols IH]; [by intros ?%elem_of_nil|].
  intros Hc. simpl. rewrite cell_cons. destruct (decide (c = c')) as [->|Hne]; [done|].
  apply IH. by apply elem_of_cons in Hc as [?|?].
Qed.

Lemma project_to_row (cols names : list string) (o : JsonObject) :
  (forall c, c ∈ names -> c ∈ cols) ->
  project cols names (to_row cols o) = to_row names o.
Proof.
  intros H. unfold project. unfold to_row at 2.
  apply map_ext_in. intros c Hc%list_elem_of_In. by apply cell_to_row, H.
Qed.

Lemma append_inj (s a b : string) : s +:+ a = s +:+ b -> a = b.
Proof. induction s as [|c s IH]; simpl; [done|]. intros [= ?]. by apply IH. Qed.

(** ** One row per key: the kept rows *)

Section BestBy.

Variables (better : Z -> Z -> bool) (cols : list string) (key idc : string).

Let key_of (r : Row) : Value := cell cols key r.
Let id_of' (r : Row) : Z := id_of (cell cols idc r).

Lemma keep_best_elem (r a : Row) (acc : list Row) :
  a ∈ keep_best better cols key idc r acc -> a = r \/ a ∈ acc.
Proof.
  induction acc as [|b acc IH]; simpl.
  - intros ?%list_elem_of_singleton. by left.
  - destruct (decide (cell cols key b = cell cols key r)).
    + intros [->|?]%elem_of_cons.
      * destruct (better _ _); [by left|right; apply elem_of_cons; by left].
      * right. apply elem_of_cons. by right.
    + intros [->|H]%elem_of_cons.
      * right. apply elem_of_cons. by left.
      * destruct (IH H) as [?|?]; [by left|right; apply elem_of_cons; by right].
Qed.

Lemma keep_best_keys (r : Row) (acc : list Row) (k : Value) :
  k ∈ map key_of (keep_best better cols key idc r acc) <->
  k = key_of r \/ k ∈ map key_of acc.
Proof.
  induction acc as [|b acc IH]; simpl.
  - rewrite list_elem_of_singleton. split; [by left|]. intros [?|?%elem_of_nil]; done.
  - destruct (decide (cell cols key b = cell cols key r)) as [Heq|Hne]; simpl.
    + assert (Hk : key_of (if better (id_of (cell cols idc r))
                                     (id_of (cell cols idc b)) then r else b)
                   = key_of b).
      { destruct (better _ _); [by symmetry|done]. }
      assert (Heq' : key_of b = key_of r) by exact Heq.
      rewrite !elem_of_cons, Hk, <- Heq'. tauto.
    + rewrite !elem_of_cons, IH. tauto.
Qed.

Lemma keep_best_NoDup (r : Row) (acc : list Row) :
  NoDup (map key_of acc) ->
  NoDup (map key_of (keep_best better cols key idc r acc)).
Proof.
  induction acc as [|b acc IH]; simpl.
  - intros _. apply NoDup_singleton.
  - intros [Hb Hacc]%NoDup_cons.
    destruct (decide (cell cols key b = cell cols key r)) as [Heq|Hne]; simpl.
    + apply NoDup_cons. split; [|done].
      destruct (better _ _); [|done]. fold (key_of r). unfold key_of at 1.
      rewrite <- Heq. exact Hb.
    + apply NoDup_cons. split; [|by apply IH].
      rewrite keep_best_keys. intros [?|?]; [|done]. by apply Hne.
Qed.

Lemma best_by_elem (rows : list Row) (a : Row) :
  a ∈ best_by better cols key idc rows -> a ∈ rows.
Proof.
  unfold best_by.
  assert (H : forall acc, a ∈ foldl (fun acc r => keep_best better cols key idc r acc)
                            acc rows -> a ∈ acc \/ a ∈ rows).
  { induction rows as [|r rows IH]; intros acc; simpl; [by left|].
    intros [[->|?]%keep_best_elem|?]%IH.
    - right. apply elem_of_cons. by left.
    - by left.
    - right. apply elem_of_cons. by right. }
  intros [?%elem_of_nil|?]%H; done.
Qed.

Lemma best_by_NoDup (rows : list Row) :
  NoDup (map key_of (best_by better cols key idc rows)).
Proof.
  unfold best_by.
  assert (H : forall acc, NoDup (map key_of acc) ->
            NoDup (map key_of
              (foldl (fun acc r => keep_best better cols key idc r acc) acc rows))).
  { induction rows as [|r rows IH]; intros acc Hacc; simpl; [done|].
    by apply IH, keep_best_NoDup. }
  apply H. constructor.
Qed.

End BestBy.

Section FirstBy.

Variables (cols : list string) (key idc : string).

Let key_of (r : Row) : Value := cell cols key r.
Let rank (r : Row) : Z := id_of (cell cols idc r).

(** Every row seen so far is represented by a kept row of its key with
    an id that is not greater. *)
Lemma keep_least_covers (r : Row) (acc : list Row) (x : Row) :
  x = r \/ (exists a, a ∈ acc /\ key_of a = key_of x /\ rank a <= rank x) ->
  exists a, a ∈ keep_best Z.ltb cols key idc r acc /\
            key_of a = key_of x /\ rank a <= rank x.
Proof.
  induction acc as [|b acc IH]; simpl.
  - intros [->|(a & ?%elem_of_nil & _)]; [|done].
    exists r. split; [by apply list_elem_of_singleton|]. split; [done|lia].
  - destruct (decide (cell cols key b = cell cols key r)) as [Heq|Hne].
    + fold (rank r) (rank b).
      intros [->|(a & [->|Ha]%elem_of_cons & Hk & Hr)].
      * destruct (Z.ltb_spec (rank r) (rank b)).
        -- exists r. split; [apply elem_of_cons; by left|]. split; [done|lia].
        -- exists b. split; [apply elem_of_cons; by left|]. by split.
      * destruct (Z.ltb_spec (rank r) (rank b)).
        -- exists r. split; [apply elem_of_cons; by left|].
           split; [|lia]. unfold key_of in *. congruence.
        -- exists b. split; [apply elem_of_cons; by left|]. by split.
      * exists a. split; [apply elem_of_cons; by right|]. by split.
    + intros [->|(a & [->|Ha]%elem_of_cons & Hk & Hr)].
      * destruct (IH (or_introl eq_refl)) as (a & Ha & ? & ?).
        exists a. split; [apply elem_of_cons; by right|]. by split.
      * exists b. split; [apply elem_of_cons; by left|]. by split.
      * destruct IH as (a' & Ha' & ? & ?); [right; by exists a|].
        exists a'. split; [apply elem_of_cons; by right|]. by split.
Qed.

Lemma first_by_covers (rows : list Row) (x : Row) :
  x ∈ rows ->
  exists a, a ∈ best_by Z.ltb cols key idc rows /\
            key_of a = key_of x /\ rank a <= rank x.
Proof.
  unfold best_by.
  assert (H : forall acc,
            x ∈ rows \/ (exists a, a ∈ acc /\ key_of a = key_of x /\ rank a <= rank x) ->
            exists a, a ∈ foldl (fun acc r => keep_best Z.ltb cols key idc r acc)
                             acc rows /\
                      key_of a = key_of x /\ rank a <= rank x).
  { induction rows as [|r rows IH]; intros acc; simpl.
    - intros [?%elem_of_nil|?]; done.
    - intros [[->|?]%elem_of_cons|Hacc].
      + apply IH. right. apply keep_least_covers. by left.
      + apply IH. by left.
      + apply IH. right. apply keep_least_covers. by right. }
  intros Hx. apply H. by left.
Qed.

(** The kept row of a key is the one with the least id of that key. *)
Lemma first_by_least (rows : list Row) (a x : Row) :
  a ∈ best_by Z.ltb cols key idc rows -> x ∈ rows ->
  key_of x = key_of a -> rank a <= rank x.
Proof.
  intros Ha Hx Hk.
  destruct (first_by_covers rows x Hx) as (a' & Ha' & Hk' & Hr).
  assert (a' = a) as ->; [|done].
  pose proof (best_by_NoDup Z.ltb cols key idc rows) as Hnd.
  apply list_elem_of_lookup in Ha as [i Hi], Ha' as [j Hj].
  assert (i = j) as ->; [|congruence].
  eapply NoDup_lookup; [exact Hnd|..].
  - rewrite list_lookup_fmap, Hi. done.
  - rewrite list_lookup_fmap, Hj. simpl. f_equal. unfold key_of in *. congruence.
Qed.

End FirstBy.

(** * The claims *)

(** ** C9: the metadata phase ignores its input path *)

(** C9.  [process_song_data] behaves the same for any two values of
    [input_base_path]: whatever the argument, and however the run ends, it
    reads the one path [song_data] written in its body, and result and
    final state (views, saved songs and artists) are identical. *)
Theorem process_song_data_ignores_input_path (spark : Engine) (W : World)
    (in1 in2 out : string) (st : State) :
  process_song_data spark W in1 out st = process_song_data spark W in2 out st
  /\ reads (process_song_data spark W in1 out st).2
     = reads st ++ ["s3a://udacity-dend/song_data/A/A/*/*.json"].
Proof.
  split; [reflexivity|]. apply process_song_data_reads.
Qed.

(** ** C8: failures end the job *)

(** C8.  A run without usable credentials (no [dl.cfg], an unparsable
    one, no [AWS] section, a key missing) ends with the exception of the
    failing configuration step, before anything is read from the bucket,
    registered or saved.  An exception of the metadata phase is the result
    of the job, which stops in the state that phase left (the event phase
    does not run); an exception of the event phase is the result of the
    job.  In every run each input is read at most once, in order: nothing
    is retried. *)
Theorem failure_aborts_job (spark : Engine) (W : World) (st : State) :
  (credentials_of W = None ->
     exists st', main spark W st = (Err (config_error W), st') /\
       views st' = views st /\ reads st' = reads st /\ output st' = output st)
  /\ (forall key secret e st1,
        credentials_of W = Some (key, secret) ->
        process_song_data spark W input_data output_data
          (with_credentials st key secret) = (Err e, st1) ->
        main spark W st = (Err e, st1))
  /\ (forall key secret e st1 st2,
        credentials_of W = Some (key, secret) ->
        process_song_data spark W input_data output_data
          (with_credentials st key secret) = (Ok tt, st1) ->
        process_log_data spark W input_data output_data st1 = (Err e, st2) ->
        main spark W st = (Err e, st2))
  /\ (exists l, reads (main spark W st).2 = reads st ++ l /\
        l `prefix_of` [song_data; log_data input_data]).
Proof.
  split_and!.
  - intros Hc. destruct (main_unconfigured spark W st Hc) as (e & st' & Hm & ?).
    pose proof (main_unconfigured_error spark W st Hc) as He.
    rewrite Hm in He. simpl in He. injection He as ->. eauto.
  - intros key secret e st1 Hc H1. rewrite (main_configured _ _ _ _ _ Hc).
    apply bind_err. by left.
  - intros key secret e st1 st2 Hc H1 H2. rewrite (main_configured _ _ _ _ _ Hc).
    apply bind_err. right. eauto.
  - destruct (credentials_of W) as [[key secret]|] eqn:Hc.
    + rewrite (main_configured _ _ _ _ _ Hc). unfold bind.
      pose proof (process_song_data_reads spark W input_data output_data
                    (with_credentials st key secret)) as H1.
      destruct (process_song_data _ _ _ _ _) as [[[]|e] st1]; simpl in H1.
      * pose proof (process_log_data_reads spark W input_data output_data st1)
          as H2.
        exists [song_data; log_data input_data]. split; [|done].
        rewrite H2, H1. simpl. by rewrite <- app_assoc.
      * exists [song_data]. split; [done|]. by exists [log_data input_data].
    + destruct (main_unconfigured spark W st Hc) as (e & st' & Hm & _ & Hr & _).
      exists []. rewrite Hm. simpl. rewrite app_nil_r. split; [done|].
      apply prefix_nil.
Qed.

Lemma failure_aborts_job_witness :
  credentials_of no_config = None /\
  exists st', main utc_engine no_config initial
              = (Err (FileNotFoundError "dl.cfg"), st') /\
    views st' = views initial /\ reads st' = reads initial /\
    output st' = output initial.
Proof.
  split; [reflexivity|].
  apply (proj1 (failure_aborts_job utc_engine no_config initial)). reflexivity.
Defined.

(** ** C4: the five saved relations *)

(** C4.  A run of the job that completes saves five relations, in
    Parquet, at five different paths: songs partitioned by (year,
    artist_name), artists and users unpartitioned, time and songplays
    partitioned by (year, month).  Whatever was saved before, at these
    paths or elsewhere, the run completes the same way and leaves exactly
    the prior content with the five new relations put in the place of
    whatever their paths held. *)
Theorem job_saves_five_relations (spark : Engine) (W : World) (st st' : State) :
  main spark W st = (Ok tt, st') ->
  exists songs artists users time songplays,
    NoDup saved_paths
    /\ map rel_partitionBy [songs; artists; users; time; songplays]
       = [["year"; "artist_name"]; []; []; ["year"; "month"]; ["year"; "month"]]
    /\ map rel_format [songs; artists; users; time; songplays]
       = ["parquet"; "parquet"; "parquet"; "parquet"; "parquet"]
    /\ forall prior, exists st'',
         main spark W (with_output st prior) = (Ok tt, st'') /\
         output st'' =
           <[output_data +:+ "songplays" := songplays]>
             (<[output_data +:+ "time" := time]>
                (<[output_data +:+ "users" := users]>
                   (<[output_data +:+ "artists" := artists]>
                      (<[output_data +:+ "songs" := songs]> prior)))).
Proof.
  intros Hrun.
  destruct (credentials_of W) as [[key secret]|] eqn:Hc; cycle 1.
  { destruct (main_unconfigured spark W st Hc) as (e & s & Hm & _). congruence. }
  rewrite (main_configured _ _ _ _ _ Hc) in Hrun.
  apply bind_ok in Hrun as ([] & st1 & Hsong & Hlog).
  apply process_song_data_ok in Hsong
    as (parts & s0 & a0 & tagged & artists & rs & ra &
        Hparts & Hs0 & Ha0 & Htag & Hart & Hrs & Hra & ->).
  apply process_log_data_ok in Hlog
    as (eparts & sel & log_df & logs & s & a & joined & facts & users & time &
        ru & rt & rf & Heparts & Hsel & Hlogdf & Hlogs & Hs & Ha & Hjoin & Hf &
        Hu & Ht & Hru & Hct & Hrt & Hcf & Hrf & ->).
  eexists (mkRelation _ _ _ rs), (mkRelation _ _ _ ra), (mkRelation _ _ _ ru),
    (mkRelation _ _ _ rt), (mkRelation _ _ _ rf).
  split_and!.
  - unfold saved_paths. simpl.
    repeat (apply NoDup_cons; split; [not_in|]). apply NoDup_nil_2.
  - reflexivity.
  - reflexivity.
  - intros prior. eexists. split.
    + rewrite (main_configured _ _ _ _ _ Hc).
      apply bind_ok. eexists tt, _. split.
      * apply process_song_data_ok.
        exists parts, s0, a0, tagged, artists, rs, ra. split_and!; done.
      * apply process_log_data_ok.
        exists eparts, sel, log_df, logs, s, a, joined, facts, users, time,
          ru, rt, rf. split_and!; done.
    + reflexivity.
Qed.

(** ** C6: the saved songs *)

Lemma concat_map_map {A B} (g : A -> B) (parts : list (list A)) :
  concat (map (map g) parts) = map g (concat parts).
Proof. symmetry. apply concat_map. Qed.

Lemma collect_dropDuplicates (E : Engine) (df : DataFrame) (rows : list Row) :
  collect (dropDuplicates E df) = Ok rows ->
  exists parts, partitions df = Ok parts /\ rows ≡ₚ remove_dups (concat parts).
Proof.
  unfold collect, dropDuplicates. simpl.
  intros (ps & (parts & Hparts & ->)%rmap_ok & ->)%rmap_ok.
  exists parts. split; [done|]. apply layout_perm.
Qed.

(** C6.  In the saved songs relation, whose columns are (song_id, title,
    artist_id, artist_name, year, duration), no row occurs twice, and the
    rows are exactly the six-column tuples of the metadata records: every
    distinct input tuple is there, once. *)
Theorem saved_songs_are_the_distinct_tuples (spark : Engine) (W : World)
    (inp out : string) (st st' : State) :
  process_song_data spark W inp out st = (Ok tt, st') ->
  exists parts songs,
    bucket W !! song_data = Some parts /\
    output st' !! (out +:+ "songs") = Some songs /\
    rel_columns songs
      = ["song_id"; "title"; "artist_id"; "artist_name"; "year"; "duration"] /\
    NoDup (rel_rows songs) /\
    forall t, t ∈ rel_rows songs <->
      exists o, o ∈ concat parts /\ t = to_row song_columns o.
Proof.
  intros (parts & s0 & a0 & tagged & artists & rs & ra &
          Hparts & Hs0 & Ha0 & Htag & Hart & Hrs & Hra & ->)%process_song_data_ok.
  apply select_inv in Hs0 as [Hcols ->].
  apply collect_dropDuplicates in Hrs as (ps & Hps & Hperm). simpl in Hps.
  injection Hps as <-.
  eexists parts, _. split; [done|]. split.
  { unfold after_songs. simpl. rewrite lookup_insert_ne, lookup_insert_eq; [done|].
    by intros ?%append_inj. }
  simpl. split; [done|]. split.
  - rewrite Hperm. apply NoDup_remove_dups.
  - intros t. rewrite Hperm, elem_of_remove_dups, !concat_map_map.
    rewrite list_elem_of_fmap. split.
    + intros (r & -> & (o & -> & Ho)%list_elem_of_fmap).
      exists o. split; [done|]. by apply project_to_row.
    + intros (o & Ho & ->). exists (to_row (infer_columns parts) o). split.
      * symmetry. by apply project_to_row.
      * apply list_elem_of_fmap. eauto.
Qed.

Lemma sample_song_run :
  process_song_data utc_engine sample_world input_data output_data initial
  = (Ok tt, sample_after_songs).
Proof. vm_compute. reflexivity. Qed.

Lemma saved_songs_witness :
  process_song_data utc_engine sample_world input_data output_data initial
  = (Ok tt, sample_after_songs) /\
  exists parts songs,
    bucket sample_world !! song_data = Some parts /\
    output sample_after_songs !! (output_data +:+ "songs") = Some songs /\
    rel_columns songs
      = ["song_id"; "title"; "artist_id"; "artist_name"; "year"; "duration"] /\
    NoDup (rel_rows songs) /\
    forall t, t ∈ rel_rows songs <->
      exists o, o ∈ concat parts /\ t = to_row song_columns o.
Proof.
  split; [exact sample_song_run|].
  apply (saved_songs_are_the_distinct_tuples utc_engine sample_world input_data
           output_data initial sample_after_songs).
  exact sample_song_run.
Defined.

(** ** C3: the saved artists *)

Lemma tagged_rows (parts : list (list JsonObject)) (a0 tagged : DataFrame)
    (tparts : list (list Row)) :
  select artist_columns (frame_of_json parts) = Ok a0 ->
  withColumn "id" monotonically_increasing_id a0 = Ok tagged ->
  partitions tagged = Ok tparts ->
  columns tagged = artist_columns ++ ["id"] /\
  forall p i, row_at tparts p i = tagged_row p i <$> row_at parts p i.
Proof.
  intros [Hcols ->]%select_inv Htag Htp.
  destruct (withColumn_rows _ _ _ _ _ Htag Htp) as (Hc & ps & Hps & Hpos).
  simpl in *. split; [done|]. injection Hps as <-. intros p i.
  specialize (Hpos p i). rewrite !row_at_map in Hpos.
  destruct (row_at parts p i) as [o|]; simpl in *; [|done].
  destruct Hpos as (v & [= <-] & ->). f_equal.
  rewrite !cell_to_row by (apply Hcols; is_in). reflexivity.
Qed.

(** C3.  In the saved artists relation there is no surrogate id column
    and at most one row per artist_id.  Every saved row shows the artist
    fields of an input record whose surrogate id (the one its position
    got before de-duplication) is the least among the records with the
    same artist_id, and every artist_id of the input has its row. *)
Theorem saved_artists_first_by_id (spark : Engine) (W : World)
    (inp out : string) (st st' : State) :
  process_song_data spark W inp out st = (Ok tt, st') ->
  exists parts artists,
    bucket W !! song_data = Some parts /\
    output st' !! (out +:+ "artists") = Some artists /\
    ("id" ∉ rel_columns artists) /\
    NoDup (map (cell (rel_columns artists) "artist_id") (rel_rows artists)) /\
    (forall w, w ∈ rel_rows artists ->
       exists p i o, row_at parts p i = Some o /\
         w = to_row artist_columns o /\
         forall p' i' o', row_at parts p' i' = Some o' ->
           field "artist_id" o' = field "artist_id" o ->
           mono_id p i <= mono_id p' i') /\
    (forall o, o ∈ concat parts ->
       exists w, w ∈ rel_rows artists /\
         cell (rel_columns artists) "artist_id" w = field "artist_id" o).
Proof.
  intros (parts & s0 & a0 & tagged & artists & rs & ra &
          Hparts & Hs0 & Ha0 & Htag & Hart & Hrs & Hra & ->)%process_song_data_ok.
  unfold artist_distinct in Hart.
  apply rbind_ok in Hart as (u & _ & [= <-]).
  unfold collect in Hra. simpl in Hra.
  apply rmap_ok in Hra as (ps & (tparts & Htp & ->)%rmap_ok & ->).
  destruct (tagged_rows _ _ _ _ Ha0 Htag Htp) as [Hc Hpos]. rewrite Hc.
  set (cols := artist_columns ++ ["id"]).
  set (best := best_by Z.ltb cols "artist_id" "id" (concat tparts)).
  assert (Hperm : concat (layout spark (map (project cols artist_source_columns) best))
                  ≡ₚ map (project cols artist_source_columns) best)
    by apply layout_perm.
  assert (Hsrc : forall a, a ∈ concat tparts <->
            exists p i o, row_at parts p i = Some o /\ a = tagged_row p i o).
  { intros a. rewrite elem_of_concat_row_at. split.
    - intros (p & i & Ha). rewrite Hpos in Ha.
      destruct (row_at parts p i) as [o|] eqn:Ho; [|done].
      injection Ha as <-. eauto.
    - intros (p & i & o & Ho & ->). exists p, i. by rewrite Hpos, Ho. }
  eexists parts, _. split; [done|]. split.
  { unfold after_songs. simpl. by rewrite lookup_insert_eq. }
  simpl. split_and!.
  - not_in.
  - rewrite Hperm. rewrite <- list_fmap_compose.
    exact (best_by_NoDup Z.ltb cols "artist_id" "id" (concat tparts)).
  - intros w Hw. rewrite Hperm in Hw.
    apply list_elem_of_fmap in Hw as (a & -> & Ha).
    pose proof (best_by_elem _ _ _ _ _ _ Ha) as Hin.
    apply Hsrc in Hin as (p & i & o & Ho & ->).
    exists p, i, o. split; [done|]. split; [reflexivity|].
    intros p' i' o' Ho' Hk.
    assert (Hin' : tagged_row p' i' o' ∈ concat tparts) by (apply Hsrc; eauto).
    exact (first_by_least cols "artist_id" "id" _ _ _ Ha Hin' Hk).
  - intros o (p & i & Ho)%elem_of_concat_row_at.
    assert (Hin : tagged_row p i o ∈ concat tparts) by (apply Hsrc; eauto).
    destruct (first_by_covers cols "artist_id" "id" _ _ Hin) as (a & Ha & Hk & _).
    exists (project cols artist_source_columns a). split.
    + rewrite Hperm. apply list_elem_of_fmap. eauto.
    + exact Hk.
Qed.

Lemma saved_artists_witness :
  process_song_data utc_engine sample_world input_data output_data initial
  = (Ok tt, sample_after_songs) /\
  exists parts artists,
    bucket sample_world !! song_data = Some parts /\
    output sample_after_songs !! (output_data +:+ "artists") = Some artists /\
    ("id" ∉ rel_columns artists) /\
    NoDup (map (cell (rel_columns artists) "artist_id") (rel_rows artists)) /\
    (forall w, w ∈ rel_rows artists ->
       exists p i o, row_at parts p i = Some o /\
         w = to_row artist_columns o /\
         forall p' i' o', row_at parts p' i' = Some o' ->
           field "artist_id" o' = field "artist_id" o ->
           mono_id p i <= mono_id p' i') /\
    (forall o, o ∈ concat parts ->
       exists w, w ∈ rel_rows artists /\
         cell (rel_columns artists) "artist_id" w = field "artist_id" o).
Proof.
  split; [exact sample_song_run|].
  apply (saved_artists_first_by_id utc_engine sample_world input_data
           output_data initial sample_after_songs).
  exact sample_song_run.
Defined.

Lemma sample_run : main utc_engine sample_world initial = (Ok tt, sample_final).
Proof. vm_compute. reflexivity. Qed.

Lemma job_saves_five_relations_witness :
  main utc_engine sample_world initial = (Ok tt, sample_final) /\
  exists songs artists users time songplays,
    NoDup saved_paths
    /\ map rel_partitionBy [songs; artists; users; time; songplays]
       = [["year"; "artist_name"]; []; []; ["year"; "month"]; ["year"; "month"]]
    /\ map rel_format [songs; artists; users; time; songplays]
       = ["parquet"; "parquet"; "parquet"; "parquet"; "parquet"]
    /\ forall prior, exists st'',
         main utc_engine sample_world (with_output initial prior) = (Ok tt, st'') /\
         output st'' =
           <[output_data +:+ "songplays" := songplays]>
             (<[output_data +:+ "time" := time]>
                (<[output_data +:+ "users" := users]>
                   (<[output_data +:+ "artists" := artists]>
                      (<[output_data +:+ "songs" := songs]> prior)))).
Proof.
  split; [exact sample_run|].
  apply (job_saves_five_relations utc_engine sample_world initial sample_final).
  exact sample_run.
Defined.

(** ** C5: only NextSong events count *)

Lemma sql_eq_str (v : Value) (s : string) :
  sql_eq v (VStr s) = true <-> v = VStr s.
Proof.
  unfold sql_eq. destruct v; try (by rewrite bool_decide_eq_true).
  split; [done|discriminate].
Qed.

(** The filtered, projected events depend on the NextSong records (and
    on the inferred columns) only. *)
Lemma select_where_next_song (names : list string)
    (parts1 parts2 : list (list JsonObject)) :
  infer_columns parts1 = infer_columns parts2 ->
  map (filter is_next_song) parts1 = map (filter is_next_song) parts2 ->
  select_where names (frame_of_json parts1) "page" (VStr "NextSong")
  = select_where names (frame_of_json parts2) "page" (VStr "NextSong").
Proof.
  intros Hcols Hrows. unfold select_where, frame_of_json. simpl.
  rewrite <- Hcols. set (cols := infer_columns parts1).
  destruct (resolve names cols); simpl; [|done].
  destruct (bool_decide_reflect ("page" ∈ cols)) as [Hpage|]; [|done].
  do 2 f_equal.
  assert (Hpart : forall part : list JsonObject,
    map (project cols names)
      (filter (fun r => sql_eq (cell cols "page" r) (VStr "NextSong") = true)
              (map (to_row cols) part))
    = map (fun o => project cols names (to_row cols o))
          (filter is_next_song part)).
  { induction part as [|o part IH]; [done|]. simpl. rewrite !filter_cons.
    assert (Hiff : sql_eq (cell cols "page" (to_row cols o)) (VStr "NextSong") = true
                   <-> is_next_song o).
    { rewrite sql_eq_str, cell_to_row by done. done. }
    destruct (decide (is_next_song o)) as [Ho|Ho].
    - rewrite decide_True by (by apply Hiff). simpl. by rewrite IH.
    - rewrite decide_False by (by rewrite Hiff). done. }
  assert (Hall : forall parts : list (list JsonObject),
    map (fun part => map (project cols names)
           (filter (fun r => sql_eq (cell cols "page" r) (VStr "NextSong") = true) part))
        (map (map (to_row cols)) parts)
    = map (map (fun o => project cols names (to_row cols o)))
          (map (filter is_next_song) parts)).
  { induction parts as [|part parts IH]; [done|]. simpl. by rewrite Hpart, IH. }
  by rewrite !Hall, Hrows.
Qed.

(** The rows of the view [sparkify] of the event phase: the selected
    fields of the NextSong records, each with its id. *)
Lemma sparkify_rows (parts : list (list JsonObject)) (sel log_df : DataFrame)
    (rows : list Row) (r : Row) :
  select_where event_columns (frame_of_json parts) "page" (VStr "NextSong")
    = Ok sel ->
  withColumn "id" monotonically_increasing_id sel = Ok log_df ->
  collect log_df = Ok rows -> r ∈ rows ->
  exists o, o ∈ concat parts /\ is_next_song o /\
    forall c, c ∈ event_columns -> cell (columns log_df) c r = field c o.
Proof.
  intros Hsel Hlog Hrows Hr.
  unfold select_where, frame_of_json in Hsel. simpl in Hsel.
  set (cols := infer_columns parts) in *.
  apply rbind_ok in Hsel as (u & Hres & Hsel).
  pose proof (proj1 (resolve_unit _ _ _) Hres) as Hcols.
  destruct (bool_decide_reflect ("page" ∈ cols)) as [Hpage|]; [|done].
  injection Hsel as <-.
  apply rmap_ok in Hrows as (out & Hout & ->).
  destruct (withColumn_rows _ _ _ _ _ Hlog Hout) as (Hc & ps & Hps & Hpos).
  simpl in Hc, Hps, Hpos. injection Hps as <-. rewrite Hc.
  apply elem_of_concat_row_at in Hr as (p & i & Hr).
  specialize (Hpos p i). unfold row_at in Hpos at 1.
  rewrite list_lookup_fmap, list_lookup_fmap in Hpos.
  destruct (parts !! p) as [part|] eqn:Hpart; simpl in Hpos; [|congruence].
  change (map ?f ?l !! i) with ((f <$> l) !! i) in Hpos.
  rewrite list_lookup_fmap in Hpos.
  destruct (filter _ (map (to_row cols) part) !! i) as [x|] eqn:Hx;
    simpl in Hpos; [|congruence].
  destruct Hpos as (v & _ & Hrow). rewrite Hr in Hrow. injection Hrow as ->.
  apply list_elem_of_lookup_2, list_elem_of_filter in Hx as [Hp Hx].
  apply list_elem_of_fmap in Hx as (o & -> & Ho).
  exists o. split_and!.
  - apply elem_of_concat. exists part. split; [done|].
    by eapply list_elem_of_lookup_2.
  - apply sql_eq_str in Hp. by rewrite cell_to_row in Hp.
  - intros c Hc'. rewrite cell_put_other.
    + rewrite <- (cell_to_row cols c o) by (by apply Hcols).
      exact (cell_project cols event_columns c (to_row cols o) Hc').
    + intros ->. revert Hc'. change ("id" ∉ event_columns). not_in.
    + reflexivity.
Qed.

(** C5.  Every row of the view the songplay facts and the users are
    derived from shows the selected fields of an event record whose page
    is "NextSong".  The event phase sees the event log through that filter
    only: two logs with the same inferred columns whose NextSong records
    are the same, partition by partition, give the same run -- the same
    result, views and saved users, time and songplays -- whatever other
    events they hold.  Events of another page contribute no songplay fact
    and no user row. *)
Theorem only_next_song_events_count (spark : Engine) (W1 : World)
    (inp out : string) (st : State) (parts1 : list (list JsonObject)) :
  bucket W1 !! log_data inp = Some parts1 ->
  (forall st', process_log_data spark W1 inp out st = (Ok tt, st') ->
     exists log_df rows,
       views st' !! "sparkify" = Some log_df /\
       collect log_df = Ok rows /\
       forall r, r ∈ rows ->
         exists o, o ∈ concat parts1 /\ is_next_song o /\
           forall c, c ∈ event_columns ->
             cell (columns log_df) c r = field c o)
  /\ (forall W2 parts2,
        bucket W2 !! log_data inp = Some parts2 ->
        infer_columns parts1 = infer_columns parts2 ->
        map (filter is_next_song) parts1 = map (filter is_next_song) parts2 ->
        process_log_data spark W1 inp out st
        = process_log_data spark W2 inp out st).
Proof.
  intros H1. split.
  - intros st'
      (parts & sel & log_df & logs & s & a & joined & facts & users & time &
       ru & rt & rf & Hparts & Hsel & Hlog & Hlogs & Hs & Ha & Hjoin & Hf &
       Hu & Ht & Hru & Hct & Hrt & Hcf & Hrf & ->)%process_log_data_ok.
    rewrite H1 in Hparts. injection Hparts as <-.
    assert (Hrows : exists rows, collect log_df = Ok rows).
    { unfold user_distinct in Hu. apply rbind_ok in Hu as (u & _ & [= <-]).
      unfold collect in Hru |- *. simpl in Hru.
      apply rmap_ok in Hru as (ps & (lparts & -> & _)%rmap_ok & _).
      simpl. eauto. }
    destruct Hrows as [rows Hrows]. exists log_df, rows. split_and!.
    + unfold after_logs. simpl. by rewrite lookup_insert_ne, lookup_insert_eq.
    + done.
    + intros r Hr. by eapply sparkify_rows.
  - intros W2 parts2 H2 Hcols Hrows.
    pose proof (select_where_next_song event_columns _ _ Hcols Hrows) as Hsel.
    unfold process_log_data, bind, read_json. rewrite H1, H2.
    rewrite Hsel. reflexivity.
Qed.

Lemma only_next_song_events_count_witness :
  bucket sample_world !! log_data input_data = Some sample_events /\
  (forall st',
     process_log_data utc_engine sample_world input_data output_data
       sample_after_songs = (Ok tt, st') ->
     exists log_df rows,
       views st' !! "sparkify" = Some log_df /\
       collect log_df = Ok rows /\
       forall r, r ∈ rows ->
         exists o, o ∈ concat sample_events /\ is_next_song o /\
           forall c, c ∈ event_columns ->
             cell (columns log_df) c r = field c o) /\
  process_log_data utc_engine sample_world input_data output_data
    sample_after_songs
  = process_log_data utc_engine next_song_only input_data output_data
      sample_after_songs.
Proof.
  assert (H1 : bucket sample_world !! log_data input_data = Some sample_events)
    by (vm_compute; reflexivity).
  pose proof (only_next_song_events_count utc_engine sample_world input_data
                output_data sample_after_songs sample_events H1) as [Ha Hb].
  split; [exact H1|]. split; [exact Ha|].
  eapply Hb.
  - vm_compute. reflexivity.
  - vm_compute. reflexivity.
  - vm_compute. reflexivity.
Defined.

(** ** The joined events are aligned

    The two theorems on the songplay facts below take the result of
    [aggregate_songplay_data] as any frame whose rows have a cell for each
    column.  The frame the job passes is one. *)

Lemma join_frames_aligned (E : Engine) (l s a joined : DataFrame) :
  join_frames E l s a = Ok joined -> aligned joined.
Proof.
  unfold join_frames.
  intros (u1 & _ & (u2 & _ & (u3 & _ & [= <-])%rbind_ok)%rbind_ok)%rbind_ok.
  intros parts Hparts p i r Hr. simpl in *.
  apply rbind_ok in Hparts as (ls & _ & Hparts).
  apply rbind_ok in Hparts as (ss & _ & Hparts).
  apply rbind_ok in Hparts as (as_ & _ & [= <-]).
  assert (Hin : r ∈ concat (layout E (join_rows (columns l) (columns s)
                                        (columns a) ls ss as_))).
  { apply elem_of_concat_row_at. eauto. }
  rewrite layout_perm in Hin. unfold join_rows in Hin.
  apply list_elem_of_bind in Hin as (x & Hin & _).
  apply list_elem_of_bind in Hin as (y & Hin & _).
  apply list_elem_of_bind in Hin as (z & Hin & _).
  destruct (matches _ _ _ _ _ _); [|by apply elem_of_nil in Hin].
  by apply list_elem_of_singleton in Hin as ->.
Qed.

(** ** C7: the songplay ids *)

Lemma wrap64_inj (x y : Z) :
  0 <= x < 2 ^ 64 -> 0 <= y < 2 ^ 64 -> wrap64 x = wrap64 y -> x = y.
Proof.
  unfold wrap64. intros Hx Hy H.
  change (2 ^ 64) with 18446744073709551616 in *.
  change (2 ^ 63) with 9223372036854775808 in *.
  Z.div_mod_to_equations. lia.
Qed.

Lemma mono_id_inj (p i p' i' : nat) :
  Z.of_nat p < 2 ^ 31 -> Z.of_nat i < 2 ^ 33 ->
  Z.of_nat p' < 2 ^ 31 -> Z.of_nat i' < 2 ^ 33 ->
  mono_id p i = mono_id p' i' -> p = p' /\ i = i'.
Proof.
  unfold mono_id. intros Hp Hi Hp' Hi' H. rewrite !Z.shiftl_mul_pow2 in H by lia.
  change (2 ^ 31) with 2147483648 in *. change (2 ^ 33) with 8589934592 in *.
  apply wrap64_inj in H;
    [|change (2 ^ 64) with 18446744073709551616; lia..].
  lia.
Qed.

Lemma row_at_bounds {A} (parts : list (list A)) (p i : nat) (r : A) :
  id_capacity parts -> row_at parts p i = Some r ->
  Z.of_nat p < 2 ^ 31 /\ Z.of_nat i < 2 ^ 33.
Proof.
  intros [Hn Hall] H. unfold row_at in H.
  destruct (parts !! p) as [part|] eqn:Hp; [|done]. simpl in H.
  pose proof (lookup_lt_Some _ _ _ Hp). pose proof (lookup_lt_Some _ _ _ H).
  rewrite Forall_lookup in Hall. specialize (Hall _ _ Hp). simpl in Hall. lia.
Qed.

Lemma length_part_le_concat {A} (parts : list (list A)) (part : list A) :
  part ∈ parts -> (length part <= length (concat parts))%nat.
Proof.
  induction parts as [|q parts IH]; [by intros ?%elem_of_nil|].
  simpl. rewrite length_app. intros [->|H]%elem_of_cons; [lia|].
  specialize (IH H). lia.
Qed.

(** Fewer rows than a partition may hold are within the bound however
    they are laid out. *)
Lemma id_capacity_small {A} (parts : list (list A)) :
  Z.of_nat (length parts) <= 2 ^ 31 ->
  Z.of_nat (length (concat parts)) <= 2 ^ 33 ->
  id_capacity parts.
Proof.
  intros Hn Hrows. split; [done|]. apply Forall_forall. intros part Hpart.
  pose proof (length_part_le_concat _ _ Hpart). lia.
Qed.

(** C7.  No two saved songplay rows share a songplay_id, within the
    engine's bound for the ids (at most 2^31 partitions of at most 2^33
    rows each). *)
Theorem songplay_ids_unique (spark : Engine) (joined facts : DataFrame)
    (out : list (list Row)) (path : string) (st st' : State) :
  aligned joined ->
  songplay_facts spark joined = Ok facts ->
  partitions facts = Ok out ->
  id_capacity out ->
  save facts ["year"; "month"] "parquet" "overwrite" path st = (Ok tt, st') ->
  exists songplays,
    output st' !! path = Some songplays /\
    rel_rows songplays = concat out /\
    NoDup (map (cell (rel_columns songplays) "songplay_id") (rel_rows songplays)).
Proof.
  intros Hal Hf Hout Hcap (rows & _ & Hrows & ->)%save_overwrite_ok.
  unfold collect in Hrows. rewrite Hout in Hrows. injection Hrows as <-.
  eexists. split; [simpl; by rewrite lookup_insert_eq|]. simpl. split; [done|].
  destruct (songplay_facts_rows _ _ _ _ Hal Hf Hout) as (jparts & Hj & Hpos).
  apply NoDup_by_position. intros p i f p' i' f' Hr Hr' Heq.
  assert (Hid : forall q k g, row_at out q k = Some g ->
            cell (columns facts) "songplay_id" g = VLong (mono_id q k)).
  { intros q k g Hg. specialize (Hpos q k).
    destruct (row_at jparts q k); [|congruence].
    destruct Hpos as (z & d & g' & _ & _ & Hg' & _ & _ & Hid & _). congruence. }
  rewrite (Hid _ _ _ Hr), (Hid _ _ _ Hr') in Heq. injection Heq as Heq.
  destruct (row_at_bounds _ _ _ _ Hcap Hr), (row_at_bounds _ _ _ _ Hcap Hr').
  by apply mono_id_inj.
Qed.

Lemma aligned_intro (df : DataFrame) (parts : list (list Row)) :
  partitions df = Ok parts ->
  Forall (Forall (fun r => length r = length (columns df))) parts ->
  aligned df.
Proof.
  intros Hp Hall ps Hps p i r Hr. rewrite Hp in Hps. injection Hps as <-.
  unfold row_at in Hr. destruct (parts !! p) as [part|] eqn:Hpart; [|done].
  rewrite Forall_lookup in Hall. specialize (Hall _ _ Hpart).
  rewrite Forall_lookup in Hall. exact (Hall _ _ Hr).
Qed.

Lemma sample_joined_aligned : aligned sample_joined.
Proof. eapply aligned_intro; [reflexivity|]. repeat constructor. Qed.

Lemma sample_facts_ok : songplay_facts utc_engine sample_joined = Ok sample_facts.
Proof. vm_compute. reflexivity. Qed.

Lemma sample_fact_rows_ok : partitions sample_facts = Ok sample_fact_rows.
Proof. vm_compute. reflexivity. Qed.

Lemma songplay_ids_unique_witness :
  aligned sample_joined /\
  songplay_facts utc_engine sample_joined = Ok sample_facts /\
  partitions sample_facts = Ok sample_fact_rows /\
  id_capacity sample_fact_rows /\
  save sample_facts ["year"; "month"] "parquet" "overwrite"
       (output_data +:+ "songplays") initial = (Ok tt, sample_saved_facts) /\
  exists songplays,
    output sample_saved_facts !! (output_data +:+ "songplays") = Some songplays /\
    rel_rows songplays = concat sample_fact_rows /\
    NoDup (map (cell (rel_columns songplays) "songplay_id") (rel_rows songplays)).
Proof.
  assert (Hcap : id_capacity sample_fact_rows).
  { apply id_capacity_small; vm_compute; discriminate. }
  assert (Hsave : save sample_facts ["year"; "month"] "parquet" "overwrite"
            (output_data +:+ "songplays") initial = (Ok tt, sample_saved_facts)).
  { vm_compute. reflexivity. }
  split_and!; [exact sample_joined_aligned|exact sample_facts_ok|
               exact sample_fact_rows_ok|exact Hcap|exact Hsave|].
  exact (songplay_ids_unique utc_engine sample_joined sample_facts sample_fact_rows
           (output_data +:+ "songplays") initial sample_saved_facts
           sample_joined_aligned sample_facts_ok sample_fact_rows_ok Hcap Hsave).
Defined.

(** ** C2: the start time *)

(** The songplay facts exist for that event and give it start time 0,
    where the floor of -1/1000 is -1. *)
Lemma start_time_not_floor_before_epoch :
  exists facts,
    songplay_facts utc_engine before_epoch = Ok facts /\
    ~ start_time_is_floor before_epoch facts.
Proof.
  eexists. split; [vm_compute; reflexivity|].
  intros H.
  specialize (H _ _ 0%nat 0%nat _ _ (-1) eq_refl eq_refl eq_refl eq_refl eq_refl).
  vm_compute in H. discriminate H.
Qed.

(** The same on a whole run: the job saves the fact of an event one
    millisecond before the epoch with start time 0. *)
Example before_epoch_run :
  let W := {| local_files := {[ "dl.cfg" := credentials ]};
              bucket := {[ song_data := [[song_record "S1" "Bar" "A1" "Foo"]];
                           log_data input_data :=
                             [[event_record "NextSong" "1" "free" "Foo" "Bar" (-1)]] ]} |} in
  (main utc_engine W initial).1 = Ok tt /\
  rel_rows <$> output (main utc_engine W initial).2 !! (output_data +:+ "songplays")
  = Some [[VStr "1"; VStr "free"; VStr "S1"; VStr "A1"; VLong 1; VNull; VNull;
           VLong 0; VLong 0; VLong 1970; VLong 1]].
Proof. vm_compute. done. Qed.

(** C2 (amended).  The start time of every songplay fact is a thousandth
    of the timestamp of its event as [int(int(ts) / 1000)] computes it:
    rounded toward zero for every timestamp a double holds exactly
    (|ts| < 2^53), hence the floor for the timestamps from the epoch on,
    0 <= ts < 2^53. *)
Theorem start_time_truncates (spark : Engine) (joined facts : DataFrame)
    (jparts out : list (list Row)) (p i : nat) (f : Row) :
  aligned joined ->
  songplay_facts spark joined = Ok facts ->
  partitions joined = Ok jparts ->
  partitions facts = Ok out ->
  row_at out p i = Some f ->
  exists r ts,
    row_at jparts p i = Some r /\
    py_int (cell (columns joined) "ts" r) = Ok ts /\
    cell (columns facts) "start_time" f = VLong (int_truediv ts 1000) /\
    (- 2 ^ 53 < ts < 2 ^ 53 ->
       cell (columns facts) "start_time" f = VLong (Z.quot ts 1000)) /\
    (0 <= ts < 2 ^ 53 ->
       cell (columns facts) "start_time" f = VLong (ts / 1000)).
Proof.
  intros Hal Hf Hj Hout Hrow.
  destruct (songplay_facts_rows _ _ _ _ Hal Hf Hout) as (jparts' & Hj' & Hpos).
  rewrite Hj in Hj'. injection Hj' as <-. specialize (Hpos p i).
  destruct (row_at jparts p i) as [r|]; [|congruence].
  destruct Hpos as (ts & d & f' & Hts & _ & Hf' & _ & Hst & _).
  rewrite Hrow in Hf'. injection Hf' as <-.
  exists r, ts. split_and!; try done.
  - intros Hr. by rewrite Hst, int_truediv_quot.
  - intros Hr. by rewrite Hst, int_truediv_floor.
Qed.

Lemma start_time_truncates_witness :
  aligned sample_joined /\
  songplay_facts utc_engine sample_joined = Ok sample_facts /\
  partitions sample_joined
  = Ok [[[VLong 1541106106796; VStr "1"; VStr "free"; VStr "S1"; VStr "A1";
          VLong 1; VNull; VNull];
         [VLong 1542241826796; VStr "1"; VStr "paid"; VStr "S1"; VStr "A1";
          VLong 2; VNull; VNull]];
        [[VLong 999; VStr "2"; VStr "free"; VStr "S2"; VStr "A1";
          VLong 3; VNull; VNull]]] /\
  partitions sample_facts = Ok sample_fact_rows /\
  row_at sample_fact_rows 0 1
  = Some [VStr "1"; VStr "paid"; VStr "S1"; VStr "A1"; VLong 2; VNull; VNull;
          VLong 1542241826; VLong 1; VLong 2018; VLong 11] /\
  exists r ts,
    row_at [[[VLong 1541106106796; VStr "1"; VStr "free"; VStr "S1"; VStr "A1";
              VLong 1; VNull; VNull];
             [VLong 1542241826796; VStr "1"; VStr "paid"; VStr "S1"; VStr "A1";
              VLong 2; VNull; VNull]];
            [[VLong 999; VStr "2"; VStr "free"; VStr "S2"; VStr "A1";
              VLong 3; VNull; VNull]]] 0 1 = Some r /\
    py_int (cell (columns sample_joined) "ts" r) = Ok ts /\
    cell (columns sample_facts) "start_time"
      [VStr "1"; VStr "paid"; VStr "S1"; VStr "A1"; VLong 2; VNull; VNull;
       VLong 1542241826; VLong 1; VLong 2018; VLong 11]
    = VLong (int_truediv ts 1000) /\
    (- 2 ^ 53 < ts < 2 ^ 53 ->
       cell (columns sample_facts) "start_time"
         [VStr "1"; VStr "paid"; VStr "S1"; VStr "A1"; VLong 2; VNull; VNull;
          VLong 1542241826; VLong 1; VLong 2018; VLong 11]
       = VLong (Z.quot ts 1000)) /\
    (0 <= ts < 2 ^ 53 ->
       cell (columns sample_facts) "start_time"
         [VStr "1"; VStr "paid"; VStr "S1"; VStr "A1"; VLong 2; VNull; VNull;
          VLong 1542241826; VLong 1; VLong 2018; VLong 11]
       = VLong (ts / 1000)).
Proof.
  assert (Hrow : row_at sample_fact_rows 0 1
    = Some [VStr "1"; VStr "paid"; VStr "S1"; VStr "A1"; VLong 2; VNull; VNull;
            VLong 1542241826; VLong 1; VLong 2018; VLong 11]).
  { vm_compute. reflexivity. }
  split_and!; [exact sample_joined_aligned|exact sample_facts_ok|reflexivity|
               exact sample_fact_rows_ok|exact Hrow|].
  exact (start_time_truncates utc_engine sample_joined sample_facts _
           sample_fact_rows 0 1 _ sample_joined_aligned sample_facts_ok eq_refl
           sample_fact_rows_ok Hrow).
Defined.

(** ** C10: the time relation *)

Lemma select_exprs_inv (named : list (string * Column)) (df d : DataFrame) :
  select_exprs named df = Ok d ->
  d = {| columns := named.*1;
         partitions := rbind (partitions df) (map_rows (fun p i r =>
           rmapM (fun e => eval (columns df) e p i r) named.*2)) |}.
Proof.
  unfold select_exprs. by intros (u & _ & [= <-])%rbind_ok.
Qed.

Lemma Forall2_concat_parts {A B} (R : A -> B -> Prop)
    (l : list (list A)) (k : list (list B)) :
  Forall2 (Forall2 R) l k -> Forall2 R (concat l) (concat k).
Proof.
  induction 1 as [|x y l k Hxy _ IH]; simpl; [constructor|].
  by apply Forall2_app.
Qed.

(** A row map relates the rows before and after, in order. *)
Lemma map_rows_concat (f : nat -> nat -> Row -> result Row)
    (parts out : list (list Row)) :
  map_rows f parts = Ok out ->
  Forall2 (fun r r' => exists p i, f p i r = Ok r') (concat parts) (concat out).
Proof.
  intros [Hlen H]%map_rows_ok. apply Forall2_concat_parts.
  apply Forall2_same_length_lookup_2; [done|].
  intros p part opart Hp Ho.
  destruct (H p part Hp) as (opart' & Ho' & Hl & Hi).
  rewrite Ho in Ho'. injection Ho' as <-.
  apply Forall2_same_length_lookup_2; [done|].
  intros i r r' Hr Hr'. destruct (Hi i r Hr) as (r'' & Hf & Hr'').
  rewrite Hr' in Hr''. injection Hr'' as <-. eauto.
Qed.

Lemma Forall2_with_left {A B} (P : A -> Prop) (R : A -> B -> Prop)
    (l : list A) (k : list B) :
  Forall P l -> Forall2 R l k -> Forall2 (fun x y => P x /\ R x y) l k.
Proof.
  intros HP HR. induction HR as [|x y l k Hxy _ IH]; [constructor|].
  apply Forall_cons in HP as [? ?]. constructor; [done|by apply IH].
Qed.

Lemma datetime_step (spark : Engine) (p i : nat) (v : Value) (r' : Row) :
  rmap (fun d => put_cell ["start_time"] "datetime" d [v])
       (eval ["start_time"] (get_datetime spark "start_time") p i [v]) = Ok r' ->
  exists z d, py_int v = Ok z /\ fromtimestamp (utc_offset spark) z = Ok d /\
    r' = [v; VTime d].
Proof.
  intros (c & Hc & ->)%rmap_ok. simpl in Hc.
  change (cell ["start_time"] "start_time" [v]) with v in Hc.
  apply rbind_ok in Hc as (z & Hz & (d & Hd & ->)%rmap_ok). eauto.
Qed.

Lemma time_fields (p i : nat) (v : Value) (d : DateTime) :
  rmapM (fun e => eval ["start_time"; "datetime"] e p i [v; VTime d])
        time_columns.*2
  = Ok [VLong (dt_hour d); VLong (dt_day d); VLong (iso_week d);
        VLong (dt_month d); VLong (dt_year d); VStr (weekday_name d)].
Proof. reflexivity. Qed.

(** C10.  The saved time relation has exactly the columns hour, day,
    week, month, year, weekday (the start time is not among them), and its
    rows are, one for one, the calendar fields of the distinct start times
    of the songplay facts. *)
Theorem time_relation_schema (spark : Engine) (facts time : DataFrame)
    (path : string) (st st' : State) :
  time_dimension spark facts = Ok time ->
  save time ["year"; "month"] "parquet" "overwrite" path st = (Ok tt, st') ->
  exists saved fparts sts,
    output st' !! path = Some saved /\
    rel_columns saved = ["hour"; "day"; "week"; "month"; "year"; "weekday"] /\
    partitions facts = Ok fparts /\
    NoDup sts /\
    (forall v, v ∈ sts <->
       v ∈ map (cell (columns facts) "start_time") (concat fparts)) /\
    Forall2 (time_row spark) sts (rel_rows saved).
Proof.
  intros Ht (rows & _ & Hrows & ->)%save_overwrite_ok.
  unfold time_dimension in Ht.
  apply rbind_ok in Ht as (d1 & [_ ->]%select_inv & Ht).
  apply rbind_ok in Ht as (d2 & [_ ->]%withColumn_inv & Ht).
  apply rbind_ok in Ht as (d3 & ->%select_exprs_inv & [= <-]).
  unfold collect in Hrows. simpl in Hrows.
  apply rmap_ok in Hrows as (o4 & (o3 & Ho3 & ->)%rmap_ok & ->).
  apply rbind_ok in Ho3 as (o2 & Ho2 & Hm3).
  apply rbind_ok in Ho2 as (o1 & Ho1 & Hm2).
  apply rmap_ok in Ho1 as (o0 & (fparts & Hfp & ->)%rmap_ok & ->).
  set (cols := columns facts) in *.
  set (X0 := concat (map (map (project cols ["start_time"])) fparts)) in *.
  set (X1 := concat (layout spark (remove_dups X0))).
  assert (Hperm : X1 ≡ₚ remove_dups X0) by apply layout_perm.
  assert (HX0 : forall x, x ∈ X0 <->
            exists r, r ∈ concat fparts /\ x = [cell cols "start_time" r]).
  { intros x. unfold X0. rewrite concat_map_map, list_elem_of_fmap.
    split; intros (r & H1 & H2); exists r; (split; [exact H2|exact H1]). }
  assert (HX1 : forall x, x ∈ X1 <-> x ∈ X0).
  { intros x. by rewrite Hperm, elem_of_remove_dups. }
  exists (mkRelation "parquet" ["year"; "month"]
            ["hour"; "day"; "week"; "month"; "year"; "weekday"]
            (concat (map (map (drop_cells time_columns.*1 ["datetime"])) o3))),
    fparts, (map (cell ["start_time"] "start_time") X1).
  split_and!.
  - simpl. by rewrite lookup_insert_eq.
  - done.
  - done.
  - apply NoDup_fmap_2_strong.
    + intros x y (r & _ & ->)%HX1%HX0 (r' & _ & ->)%HX1%HX0 Heq.
      change (cell cols "start_time" r = cell cols "start_time" r') in Heq.
      by rewrite Heq.
    + rewrite Hperm. apply NoDup_remove_dups.
  - intros v. rewrite !list_elem_of_fmap. split.
    + intros (x & -> & (r & Hr & ->)%HX1%HX0). by exists r.
    + intros (r & -> & Hr). exists [cell cols "start_time" r]. split; [done|].
      apply HX1, HX0. eauto.
  - simpl. rewrite concat_map_map. apply Forall2_fmap.
    apply map_rows_concat in Hm2, Hm3.
    assert (Hsingle : Forall (fun x => exists v, x = [v]) X1).
    { apply Forall_forall. intros x (r & _ & ->)%HX1%HX0. eauto. }
    pose proof (Forall2_with_left _ _ _ _ Hsingle Hm2) as Hm2'.
    eapply Forall2_trans; [|exact Hm2'|exact Hm3].
    intros x y row [(v & ->) (p & i & Hy)] (p' & i' & Hrow). simpl in Hy.
    apply (datetime_step spark p i) in Hy as (z & d & Hz & Hd & ->).
    assert (Heq : Ok row = Ok [VLong (dt_hour d); VLong (dt_day d);
                               VLong (iso_week d); VLong (dt_month d);
                               VLong (dt_year d); VStr (weekday_name d)]).
    { rewrite <- Hrow. exact (time_fields p' i' v d). }
    injection Heq as ->. exists z, d. done.
Qed.

Lemma sample_time_ok : time_dimension utc_engine sample_facts = Ok sample_time.
Proof. vm_compute. reflexivity. Qed.

Lemma sample_time_saved :
  save sample_time ["year"; "month"] "parquet" "overwrite"
       (output_data +:+ "time") initial = (Ok tt, sample_saved_time).
Proof. vm_compute. reflexivity. Qed.

Lemma time_relation_schema_witness :
  time_dimension utc_engine sample_facts = Ok sample_time /\
  save sample_time ["year"; "month"] "parquet" "overwrite"
       (output_data +:+ "time") initial = (Ok tt, sample_saved_time) /\
  exists saved fparts sts,
    output sample_saved_time !! (output_data +:+ "time") = Some saved /\
    rel_columns saved = ["hour"; "day"; "week"; "month"; "year"; "weekday"] /\
    partitions sample_facts = Ok fparts /\
    NoDup sts /\
    (forall v, v ∈ sts <->
       v ∈ map (cell (columns sample_facts) "start_time") (concat fparts)) /\
    Forall2 (time_row utc_engine) sts (rel_rows saved).
Proof.
  split; [exact sample_time_ok|]. split; [exact sample_time_saved|].
  exact (time_relation_schema utc_engine sample_facts sample_time
           (output_data +:+ "time") initial sample_saved_time
           sample_time_ok sample_time_saved).
Defined.

(** ** C1: the single-record scenario *)

Lemma concat_replicate_nil {A} (k : nat) : concat (replicate k (@nil A)) = [].
Proof. induction k; simpl; done. Qed.

Lemma concat_lone {A} (k1 k2 : nat) (r : A) : concat (lone k1 k2 r) = [r].
Proof.
  unfold lone. rewrite concat_app. simpl.
  by rewrite !concat_replicate_nil.
Qed.

Lemma map_lone {A B} (g : A -> B) (k1 k2 : nat) (r : A) :
  map (map g) (lone k1 k2 r) = lone k1 k2 (g r).
Proof.
  unfold lone. rewrite map_app. simpl.
  change (map (map g) (replicate k1 [])) with (map g <$> replicate k1 []).
  change (map (map g) (replicate k2 [])) with (map g <$> replicate k2 []).
  by rewrite !fmap_replicate.
Qed.

Lemma concat_nil_inv {A} (l : list (list A)) :
  concat l = [] -> l = replicate (length l) [].
Proof.
  induction l as [|x l IH]; simpl; [done|].
  intros [-> H]%app_eq_nil. by rewrite <- IH.
Qed.

Lemma concat_singleton_inv {A} (l : list (list A)) (r : A) :
  concat l = [r] -> exists k1 k2, l = lone k1 k2 r.
Proof.
  induction l as [|x l IH]; simpl; [done|].
  destruct x as [|y x]; simpl.
  - intros (k1 & k2 & ->)%IH. by exists (S k1), k2.
  - intros [= -> [-> H]%app_eq_nil]. exists 0%nat, (length l).
    unfold lone. simpl. by rewrite <- concat_nil_inv.
Qed.

Lemma rmapM_indexed_nils (g : nat * list Row -> result (list Row)) (n k : nat) :
  (forall p, g (p, []) = Ok []) ->
  rmapM g (indexed n (replicate k [])) = Ok (replicate k []).
Proof.
  intros Hg. revert n. induction k as [|k IH]; intros n; simpl; [done|].
  by rewrite Hg, IH.
Qed.

Lemma map_rows_lone (f : nat -> nat -> Row -> result Row) (k1 k2 : nat)
    (r r' : Row) :
  f k1 0%nat r = Ok r' -> map_rows f (lone k1 k2 r) = Ok (lone k1 k2 r').
Proof.
  intros Hf. unfold map_rows, lone.
  set (g := fun '(p, part) => rmapM (fun '(i, r) => f p i r) (indexed 0 part)).
  assert (Hg : forall p, g (p, []) = Ok []) by done.
  assert (H : forall n, f (n + k1)%nat 0%nat r = Ok r' ->
            rmapM g (indexed n (replicate k1 [] ++ [r] :: replicate k2 []))
            = Ok (replicate k1 [] ++ [r'] :: replicate k2 [])).
  { clear Hf. induction k1 as [|k1 IH]; intros n Hn; simpl.
    - rewrite Nat.add_0_r in Hn. rewrite Hn. simpl.
      by rewrite rmapM_indexed_nils.
    - rewrite (IH (S n)); [done|]. by rewrite Nat.add_succ_comm. }
  by apply (H 0%nat).
Qed.

(** The reader infers five columns from the metadata record, the
    projection on the song columns does not resolve [title], and the job
    ends there with nothing saved. *)
Lemma literal_scenario_run :
  main utc_engine (scenario_world literal_song literal_event) initial
  = (Err (AnalysisException "title"),
     mkState {[ "AWS_ACCESS_KEY_ID" := "AKIA"; "AWS_SECRET_ACCESS_KEY" := "s3cr3t" ]}
             ∅ [song_data] ∅).
Proof. vm_compute. reflexivity. Qed.

(** On the records as the scenario lists them the job saves no songplay
    fact and no user row. *)
Lemma literal_scenario_yields_nothing :
  ~ scenario_outcome
      (main utc_engine (scenario_world literal_song literal_event) initial).2.
Proof.
  rewrite literal_scenario_run. simpl.
  intros (songplays & users & f & u & H & _). vm_compute in H. discriminate H.
Qed.

(** With every selected column present but no title, the job completes,
    saves the user row and no songplay fact: the event matches no song. *)
Example null_title_matches_nothing :
  let W := scenario_world
             [("song_id", VStr "S1"); ("title", VNull); ("artist_id", VStr "A1");
              ("artist_name", VStr "Foo"); ("year", VLong 2000);
              ("duration", VDouble (Q2Qc 200)); ("artist_location", VNull);
              ("artist_latitude", VNull); ("artist_longitude", VNull)]
             (event_record "NextSong" "1" "free" "Foo" "Bar" 1000000) in
  (main utc_engine W initial).1 = Ok tt /\
  rel_rows <$> output (main utc_engine W initial).2 !! (output_data +:+ "songplays")
  = Some [] /\
  rel_rows <$> output (main utc_engine W initial).2 !! (output_data +:+ "users")
  = Some [[VStr "1"; VNull; VNull; VNull; VStr "free"]].
Proof. vm_compute. done. Qed.

Lemma shaped_parts (df : DataFrame) (cols : list string) (r : Row) :
  shaped df cols r -> exists k1 k2, partitions df = Ok (lone k1 k2 r).
Proof.
  intros [_ (parts & Hp & H)%rmap_ok]. symmetry in H.
  apply concat_singleton_inv in H as (k1 & k2 & ->). eauto.
Qed.

Lemma withColumn_shaped (n : string) (e : Column) (df : DataFrame)
    (cols : list string) (r : Row) (v : nat -> nat -> Value) :
  shaped df cols r ->
  resolve (column_refs e) cols = Ok tt ->
  (forall p i, eval cols e p i r = Ok (v p i)) ->
  exists d p i, withColumn n e df = Ok d /\
    shaped d (put_column cols n) (put_cell cols n (v p i) r).
Proof.
  intros Hs Hres Hev. destruct (shaped_parts _ _ _ Hs) as (k1 & k2 & Hp).
  destruct Hs as [<- _]. unfold withColumn. rewrite Hres. simpl.
  eexists _, k1, 0%nat. split; [reflexivity|]. split; [done|].
  unfold collect. simpl. rewrite Hp. simpl.
  erewrite map_rows_lone; [|by rewrite Hev]. simpl. by rewrite concat_lone.
Qed.

Lemma select_exprs_shaped (named : list (string * Column)) (df : DataFrame)
    (cols : list string) (r r' : Row) :
  shaped df cols r ->
  resolve (named.*2 ≫= column_refs) cols = Ok tt ->
  (forall p i, rmapM (fun e => eval cols e p i r) named.*2 = Ok r') ->
  exists d, select_exprs named df = Ok d /\ shaped d named.*1 r'.
Proof.
  intros Hs Hres Hev. destruct (shaped_parts _ _ _ Hs) as (k1 & k2 & Hp).
  destruct Hs as [<- _]. unfold select_exprs. rewrite Hres. simpl.
  eexists. split; [reflexivity|]. split; [done|].
  unfold collect. simpl. rewrite Hp. simpl.
  erewrite map_rows_lone; [|by rewrite Hev]. simpl. by rewrite concat_lone.
Qed.

Lemma select_shaped (names : list string) (df : DataFrame)
    (cols : list string) (r : Row) :
  shaped df cols r ->
  resolve names cols = Ok tt ->
  exists d, select names df = Ok d /\ shaped d names (project cols names r).
Proof.
  intros Hs Hres. destruct (shaped_parts _ _ _ Hs) as (k1 & k2 & Hp).
  destruct Hs as [<- _]. eexists. split.
  - apply select_inv. split; [by apply resolve_ok|reflexivity].
  - split; [done|]. unfold collect. simpl. rewrite Hp. simpl.
    by rewrite map_lone, concat_lone.
Qed.

Lemma drop_shaped (names : list string) (df : DataFrame)
    (cols : list string) (r : Row) :
  shaped df cols r ->
  shaped (drop names df) (filter (fun c => c ∉ names) cols)
         (drop_cells cols names r).
Proof.
  intros Hs. destruct (shaped_parts _ _ _ Hs) as (k1 & k2 & Hp).
  destruct Hs as [<- _]. split; [done|]. unfold collect. simpl. rewrite Hp. simpl.
  by rewrite map_lone, concat_lone.
Qed.

Lemma concat_layout_singleton (E : Engine) (r : Row) :
  concat (layout E [r]) = [r].
Proof. apply Permutation_singleton_r, layout_perm. Qed.

Lemma dropDuplicates_shaped (E : Engine) (df : DataFrame)
    (cols : list string) (r : Row) :
  shaped df cols r -> shaped (dropDuplicates E df) cols r.
Proof.
  intros [Hc (parts & Hp & H)%rmap_ok]. split; [done|].
  unfold collect, dropDuplicates. simpl. rewrite Hp. simpl. rewrite <- H.
  simpl. by rewrite concat_layout_singleton.
Qed.

(** A frame laid out by the engine around a single row. *)
Lemma laid_out_shaped (E : Engine) (cols : list string) (r : Row) :
  shaped {| columns := cols; partitions := Ok (layout E [r]) |} cols r.
Proof.
  split; [done|]. unfold collect. simpl. by rewrite concat_layout_singleton.
Qed.

(** One second and a thousand after the epoch is a date of 1969 or 1970
    on every clock. *)
Lemma fromtimestamp_scenario (E : Engine) :
  exists d, fromtimestamp (utc_offset E) 1000 = Ok d.
Proof.
  unfold fromtimestamp, datetime_of_seconds.
  pose proof (utc_offset_range E 1000) as H.
  set (s := 1000 + utc_offset E 1000) in *.
  assert (Hd : s / 86400 = -1 \/ s / 86400 = 0 \/ s / 86400 = 1).
  { assert (-1 <= s / 86400 < 2); [|lia].
    split; [apply Z.div_le_lower_bound; lia|apply Z.div_lt_upper_bound; lia]. }
  destruct Hd as [-> | [-> | ->]]; simpl; eauto.
Qed.

Section Scenario.

Variables (E : Engine).
Variables (loc lat lon first last gender len eloc session agent : Value).

Let m := full_song loc lat lon.
Let e := full_event first last gender len eloc session agent.
Let W := scenario_world m e.

Definition agg_columns : list string :=
  ["ts"; "userId"; "level"; "song_id"; "artist_id"; "sessionId"; "location";
   "userAgent"].

Lemma facts_of_scenario (joined : DataFrame) (r : Row) :
  shaped joined agg_columns r ->
  cell agg_columns "ts" r = VLong 1000000 ->
  length r = 8%nat ->
  exists facts f,
    songplay_facts E joined = Ok facts /\
    collect facts = Ok [f] /\
    resolve ["year"; "month"] (columns facts) = Ok tt /\
    cell (columns facts) "start_time" f = VLong 1000.
Proof.
  intros Hj Hts Hlen. destruct (fromtimestamp_scenario E) as [d Hd].
  destruct r as [|c1 [|c2 [|c3 [|c4 [|c5 [|c6 [|c7 [|c8 [|]]]]]]]]]; try done.
  change (c1 = VLong 1000000) in Hts. subst c1.
  unfold songplay_facts.
  destruct (withColumn_shaped "start_time" (get_start_time "ts") joined _ _
              (fun _ _ => VLong 1000) Hj) as (d1 & p1 & i1 & H1 & S1);
    [reflexivity|reflexivity|].
  rewrite H1. cbn [rbind]. simpl in S1.
  destruct (withColumn_shaped "songplay_id" monotonically_increasing_id d1 _ _
              (fun p i => VLong (mono_id p i)) S1) as (d2 & p2 & i2 & H2 & S2);
    [reflexivity|reflexivity|].
  rewrite H2. cbn [rbind]. simpl in S2.
  destruct (withColumn_shaped "datetime" (get_datetime E "start_time") d2 _ _
              (fun _ _ => VTime d) S2) as (d3 & p3 & i3 & H3 & S3);
    [reflexivity|intros; simpl; by rewrite Hd|].
  rewrite H3. cbn [rbind]. simpl in S3.
  destruct (withColumn_shaped "year" (year "datetime") d3 _ _
              (fun _ _ => VLong (dt_year d)) S3) as (d4 & p4 & i4 & H4 & S4);
    [reflexivity|reflexivity|].
  rewrite H4. cbn [rbind]. simpl in S4.
  destruct (withColumn_shaped "month" (month "datetime") d4 _ _
              (fun _ _ => VLong (dt_month d)) S4) as (d5 & p5 & i5 & H5 & S5);
    [reflexivity|reflexivity|].
  rewrite H5. cbn [rbind]. simpl in S5.
  pose proof (drop_shaped ["datetime"; "ts"] _ _ _ S5) as [Hc Hf].
  eexists _, _. split; [reflexivity|]. split; [exact Hf|].
  rewrite Hc. split; reflexivity.
Qed.

Lemma time_of_scenario (facts : DataFrame) (f : Row) :
  collect facts = Ok [f] ->
  resolve ["start_time"] (columns facts) = Ok tt ->
  cell (columns facts) "start_time" f = VLong 1000 ->
  exists time t,
    time_dimension E facts = Ok time /\
    collect time = Ok [t] /\
    resolve ["year"; "month"] (columns time) = Ok tt.
Proof.
  intros Hf Hres Hst. destruct (fromtimestamp_scenario E) as [d Hd].
  unfold time_dimension.
  destruct (select_shaped ["start_time"] facts _ f (conj eq_refl Hf) Hres)
    as (d1 & H1 & S1).
  rewrite H1. cbn [rbind]. unfold project in S1. simpl in S1. rewrite Hst in S1.
  apply (dropDuplicates_shaped E) in S1.
  destruct (withColumn_shaped "datetime" (get_datetime E "start_time") _ _ _
              (fun _ _ => VTime d) S1) as (d2 & p2 & i2 & H2 & S2);
    [reflexivity|intros; simpl; by rewrite Hd|].
  rewrite H2. cbn [rbind].
  destruct (select_exprs_shaped time_columns d2 _ _
              [VLong (dt_hour d); VLong (dt_day d); VLong (iso_week d);
               VLong (dt_month d); VLong (dt_year d); VStr (weekday_name d)] S2)
    as (d3 & H3 & S3); [reflexivity|reflexivity|].
  rewrite H3. cbn [rbind].
  pose proof (drop_shaped ["datetime"] _ _ _ S3) as [Hc Ht].
  eexists _, _. split; [reflexivity|]. split; [exact Ht|].
  rewrite Hc. reflexivity.
Qed.

Lemma scenario_song_phase :
  exists tagged artists songs,
    process_song_data E W input_data output_data
      (with_credentials initial "AKIA" "s3cr3t")
    = (Ok tt, after_songs (with_credentials initial "AKIA" "s3cr3t") output_data
                tagged artists songs
                [[VStr "S1"; VStr "Bar"; VStr "A1"; VStr "Foo"; VLong 2000;
                  VDouble (Q2Qc 200)]]
                [[VStr "A1"; VStr "Foo"; loc; lat; lon]]) /\
    shaped songs song_columns
      [VStr "S1"; VStr "Bar"; VStr "A1"; VStr "Foo"; VLong 2000; VDouble (Q2Qc 200)] /\
    shaped artists ["artist_id"; "artist_name"; "location"; "latitude"; "longitude"]
      [VStr "A1"; VStr "Foo"; loc; lat; lon].
Proof.
  set (s0 := {| columns := song_columns;
                partitions := Ok [[[VStr "S1"; VStr "Bar"; VStr "A1"; VStr "Foo";
                                    VLong 2000; VDouble (Q2Qc 200)]]] |}).
  set (artists := {| columns := ["artist_id"; "artist_name"; "location";
                                 "latitude"; "longitude"];
                     partitions := Ok (layout E [[VStr "A1"; VStr "Foo"; loc; lat; lon]]) |}).
  assert (Hsongs : shaped (dropDuplicates E s0) song_columns
            [VStr "S1"; VStr "Bar"; VStr "A1"; VStr "Foo"; VLong 2000;
             VDouble (Q2Qc 200)]).
  { apply dropDuplicates_shaped. by split. }
  assert (Hartists : shaped artists
            ["artist_id"; "artist_name"; "location"; "latitude"; "longitude"]
            [VStr "A1"; VStr "Foo"; loc; lat; lon]) by apply laid_out_shaped.
  eexists _, artists, (dropDuplicates E s0). split; [|by split].
  apply process_song_data_ok.
  eexists [[m]], s0, _, _, artists, _, _. split_and!.
  - reflexivity.
  - vm_compute. reflexivity.
  - vm_compute. reflexivity.
  - vm_compute. reflexivity.
  - reflexivity.
  - apply Hsongs.
  - apply Hartists.
  - reflexivity.
Qed.

(** C1 (amended).  Given exactly one metadata record {song_id "S1",
    title "Bar", artist_id "A1", artist_name "Foo", year 2000, duration
    200.0} and exactly one event {page "NextSong", artist "Foo", song
    "Bar", ts 1000000, userId "1", level "free"}, each with the remaining
    columns the job selects (of any value), the job completes on every
    engine and saves exactly one songplay fact, with start time 1000, and
    exactly one user row, for user "1" at level "free". *)
Theorem scenario_with_title :
  exists st', main E W initial = (Ok tt, st') /\ scenario_outcome st'.
Proof.
  destruct scenario_song_phase as (tagged & artists & songs & Hsong & Hs & Ha).
  set (log_df := {| columns := event_columns ++ ["id"];
                    partitions := Ok [[[VStr "1"; first; last; gender; VStr "free";
                                        VLong 1000000; VStr "Foo"; VStr "Bar"; len;
                                        eloc; session; agent; VLong 0]]] |}).
  set (logs := {| columns := log_columns;
                  partitions := Ok [[[VLong 1000000; VStr "1"; VStr "free";
                                      VStr "Bar"; VStr "Foo"; session; eloc;
                                      agent]]] |}).
  set (jrow := [VLong 1000000; VStr "1"; VStr "free"; VStr "S1"; VStr "A1";
                session; eloc; agent]).
  set (joined := {| columns := agg_columns; partitions := Ok (layout E [jrow]) |}).
  set (urow := [VStr "1"; first; last; gender; VStr "free"]).
  set (users := {| columns := user_columns; partitions := Ok (layout E [urow]) |}).
  assert (Hjoin : join_frames E logs songs artists = Ok joined).
  { destruct Hs as [Hsc Hsr], Ha as [Hac Har]. unfold join_frames.
    rewrite Hsc, Hac, Hsr, Har. reflexivity. }
  destruct (facts_of_scenario joined jrow (laid_out_shaped E _ _) eq_refl eq_refl)
    as (facts & f & Hfacts & Hf & Hfres & Hst).
  assert (Hstres : resolve ["start_time"] (columns facts) = Ok tt).
  { apply resolve_ok. intros c ->%list_elem_of_singleton.
    destruct (decide ("start_time" ∈ columns facts)) as [|Hn]; [done|].
    rewrite (cell_missing _ _ f Hn) in Hst. done. }
  destruct (time_of_scenario facts f Hf Hstres Hst) as (time & t & Htime & Ht & Htres).
  eexists. split.
  - rewrite (main_configured E W initial "AKIA" "s3cr3t") by reflexivity.
    apply bind_ok. eexists tt, _. split; [exact Hsong|].
    apply process_log_data_ok.
    eexists [[e]], _, log_df, logs, songs, artists, joined, facts, users, time,
      [urow], [t], [f].
    split_and!.
    + reflexivity.
    + vm_compute. reflexivity.
    + vm_compute. reflexivity.
    + vm_compute. reflexivity.
    + reflexivity.
    + reflexivity.
    + exact Hjoin.
    + exact Hfacts.
    + reflexivity.
    + exact Htime.
    + apply laid_out_shaped.
    + exact Htres.
    + exact Ht.
    + exact Hfres.
    + exact Hf.
    + reflexivity.
  - exists (mkRelation "parquet" ["year"; "month"] (columns facts) [f]),
      (mkRelation "parquet" [] user_columns [urow]), f, urow.
    split_and!; try done.
Qed.
End Scenario.

(** * Further properties

    Properties of the code beside the claims: the calendar and the two
    lambdas, the failures of the phases, what a run writes and leaves
    alone, and the script with its logger and its session. *)

(** ** The calendar of [get_datetime] *)

Ltac div_lia := Z.to_euclidean_division_equations; lia.

Lemma civil_from_days_range (n : Z) :
  1 <= (civil_from_days n).1.2 <= 12 /\ 1 <= (civil_from_days n).2 <= 31.
Proof.
  unfold civil_from_days. cbv zeta. simpl. repeat case_match; div_lia.
Qed.

Lemma days_from_civil_from_days (n : Z) :
  days_from_civil (civil_from_days n).1.1 (civil_from_days n).1.2
                  (civil_from_days n).2 = n.
Proof.
  unfold civil_from_days, days_from_civil. cbv zeta. simpl.
  repeat case_match; div_lia.
Qed.

Lemma civil_year_lower (n : Z) :
  1 <= (civil_from_days n).1.1 <-> -719162 <= n.
Proof.
  unfold civil_from_days. cbv zeta. simpl. repeat case_match; div_lia.
Qed.

Lemma civil_year_upper (n : Z) :
  (civil_from_days n).1.1 <= 9999 <-> n <= 2932896.
Proof.
  unfold civil_from_days. cbv zeta. simpl. repeat case_match; div_lia.
Qed.

Lemma ordinal_range (n : Z) :
  0 <= n - days_from_civil (civil_from_days n).1.1 1 1 <= 365.
Proof.
  unfold civil_from_days, days_from_civil. cbv zeta. simpl.
  repeat case_match; div_lia.
Qed.

(** The fields of the datetime of a second count. *)
Lemma datetime_of_seconds_fields (s : Z) :
  let d := datetime_of_seconds s in
  let c := civil_from_days (s / 86400) in
  dt_year d = c.1.1 /\ dt_month d = c.1.2 /\ dt_day d = c.2 /\
  dt_hour d = s mod 86400 / 3600 /\
  dt_minute d = s mod 86400 mod 3600 / 60 /\
  dt_second d = s mod 86400 mod 60.
Proof.
  unfold datetime_of_seconds. cbv zeta.
  destruct (civil_from_days (s / 86400)) as [[y m] d]. done.
Qed.

(** X1.  The datetime [get_datetime] builds for a second count loses
    nothing: the day number of its date and its time of day give the
    second count back, so different local seconds have different
    datetimes. *)
Theorem datetime_round_trip (s : Z) :
  seconds_of_datetime (datetime_of_seconds s) = s.
Proof.
  unfold seconds_of_datetime.
  destruct (datetime_of_seconds_fields s) as (-> & -> & -> & -> & -> & ->).
  rewrite days_from_civil_from_days. div_lia.
Qed.

Lemma weekday_name_in (d : DateTime) : weekday_name d ∈ weekday_names.
Proof.
  unfold weekday_name, weekday_names.
  repeat case_match; repeat (first [apply list_elem_of_here | apply list_elem_of_further]).
Qed.

Lemma iso_week_range (s : Z) :
  1 <= iso_week (datetime_of_seconds s) <= 53.
Proof.
  unfold iso_week, weekday_index. cbv zeta.
  destruct (datetime_of_seconds_fields s) as (Hy & Hm & Hd & _).
  rewrite Hy, Hm, Hd. rewrite days_from_civil_from_days.
  pose proof (ordinal_range (s / 86400)) as Ho.
  set (y := (civil_from_days (s / 86400)).1.1) in *.
  set (n := s / 86400) in *.
  set (j := days_from_civil y 1 1) in *.
  assert (Hw : 0 <= (n - j + 1 - ((n + 3) mod 7 + 1) + 10) / 7 <= 53) by div_lia.
  repeat case_match; lia.
Qed.

(** ** The rows of the time dimension *)

Lemma fromtimestamp_ok (offset : Z -> Z) (t : Z) (d : DateTime) :
  fromtimestamp offset t = Ok d <->
  d = datetime_of_seconds (t + offset t) /\ 1 <= dt_year d <= 9999.
Proof.
  unfold fromtimestamp. cbv zeta.
  destruct (_ && _) eqn:Hy.
  - apply andb_prop in Hy as [?%Z.leb_le ?%Z.leb_le]. split.
    + intros [= <-]. done.
    + intros [-> _]. done.
  - split; [done|]. intros [-> [H1 H2]].
    apply Z.leb_le in H1, H2. by rewrite H1, H2 in Hy.
Qed.

Lemma datetime_fields_range (s : Z) :
  let d := datetime_of_seconds s in
  0 <= dt_hour d <= 23 /\ 1 <= dt_day d <= 31 /\ 1 <= dt_month d <= 12.
Proof.
  cbv zeta.
  destruct (datetime_of_seconds_fields s) as (_ & -> & -> & -> & _).
  pose proof (civil_from_days_range (s / 86400)) as [? ?].
  split_and!; try lia; div_lia.
Qed.

Lemma time_row_calendar (E : Engine) (v : Value) (row : Row) :
  time_row E v row -> calendar_row row.
Proof.
  intros (z & d & _ & [-> Hy]%fromtimestamp_ok & ->).
  pose proof (datetime_fields_range (z + utc_offset E z)) as (? & ? & ?).
  pose proof (iso_week_range (z + utc_offset E z)).
  eexists _, _, _, _, _, _. split; [reflexivity|].
  split_and!; try lia. apply weekday_name_in.
Qed.

(** The rows of the time dimension are the calendar fields of the
    distinct start times of the facts, in the order the engine lays the
    distinct values out. *)
Lemma time_dimension_rows (E : Engine) (facts time : DataFrame) (rows : list Row) :
  time_dimension E facts = Ok time -> collect time = Ok rows ->
  exists fparts sts,
    partitions facts = Ok fparts /\
    (forall v, v ∈ sts <->
       v ∈ map (cell (columns facts) "start_time") (concat fparts)) /\
    Forall2 (time_row E) sts rows.
Proof.
  intros Ht Hrows. unfold time_dimension in Ht.
  apply rbind_ok in Ht as (d1 & [_ ->]%select_inv & Ht).
  apply rbind_ok in Ht as (d2 & [_ ->]%withColumn_inv & Ht).
  apply rbind_ok in Ht as (d3 & ->%select_exprs_inv & [= <-]).
  unfold collect in Hrows. simpl in Hrows.
  apply rmap_ok in Hrows as (o4 & (o3 & Ho3 & ->)%rmap_ok & ->).
  apply rbind_ok in Ho3 as (o2 & Ho2 & Hm3).
  apply rbind_ok in Ho2 as (o1 & Ho1 & Hm2).
  apply rmap_ok in Ho1 as (o0 & (fparts & Hfp & ->)%rmap_ok & ->).
  set (cols := columns facts) in *.
  set (X0 := concat (map (map (project cols ["start_time"])) fparts)) in *.
  set (X1 := concat (layout E (remove_dups X0))).
  assert (Hperm : X1 ≡ₚ remove_dups X0) by apply layout_perm.
  assert (HX1 : forall x, x ∈ X1 <->
            exists r, r ∈ concat fparts /\ x = [cell cols "start_time" r]).
  { intros x. rewrite Hperm, elem_of_remove_dups. unfold X0.
    rewrite concat_map_map, list_elem_of_fmap.
    split; intros (r & H1 & H2); exists r; (split; [exact H2|exact H1]). }
  exists fparts, (map (cell ["start_time"] "start_time") X1). split_and!.
  - done.
  - intros v. rewrite !list_elem_of_fmap. split.
    + intros (x & -> & (r & Hr & ->)%HX1). by exists r.
    + intros (r & -> & Hr). exists [cell cols "start_time" r]. split; [done|].
      apply HX1. eauto.
  - rewrite concat_map_map. apply Forall2_fmap.
    apply map_rows_concat in Hm2, Hm3.
    assert (Hsingle : Forall (fun x => exists v, x = [v]) X1).
    { apply Forall_forall. intros x (r & _ & ->)%HX1. eauto. }
    pose proof (Forall2_with_left _ _ _ _ Hsingle Hm2) as Hm2'.
    eapply Forall2_trans; [|exact Hm2'|exact Hm3].
    intros x y row [(v & ->) (p & i & Hy)] (p' & i' & Hrow). simpl in Hy.
    apply (datetime_step E p i) in Hy as (z & d & Hz & Hd & ->).
    assert (Heq : Ok row = Ok [VLong (dt_hour d); VLong (dt_day d);
                               VLong (iso_week d); VLong (dt_month d);
                               VLong (dt_year d); VStr (weekday_name d)]).
    { rewrite <- Hrow. exact (time_fields p' i' v d). }
    injection Heq as ->. exists z, d. done.
Qed.

(** X2.  Every row of the time dimension holds calendar fields in their
    ranges: hour 0..23, day 1..31, ISO week 1..53, month 1..12, year
    1..9999 and one of the seven weekday names. *)
Theorem time_rows_in_range (spark : Engine) (facts time : DataFrame)
    (rows : list Row) :
  time_dimension spark facts = Ok time -> collect time = Ok rows ->
  Forall calendar_row rows.
Proof.
  intros Ht Hrows.
  destruct (time_dimension_rows _ _ _ _ Ht Hrows) as (fparts & sts & _ & _ & H).
  apply Forall_forall. intros row Hrow.
  apply list_elem_of_lookup in Hrow as [i Hi].
  destruct (Forall2_lookup_r _ _ _ _ _ H Hi) as (v & _ & Hv).
  by eapply time_row_calendar.
Qed.

Lemma time_rows_in_range_witness :
  time_dimension utc_engine sample_facts = Ok sample_time /\
  collect sample_time
  = Ok [[VLong 21; VLong 1; VLong 44; VLong 11; VLong 2018; VStr "Thu"];
        [VLong 0; VLong 15; VLong 46; VLong 11; VLong 2018; VStr "Thu"];
        [VLong 0; VLong 1; VLong 1; VLong 1; VLong 1970; VStr "Thu"]] /\
  Forall calendar_row
    [[VLong 21; VLong 1; VLong 44; VLong 11; VLong 2018; VStr "Thu"];
     [VLong 0; VLong 15; VLong 46; VLong 11; VLong 2018; VStr "Thu"];
     [VLong 0; VLong 1; VLong 1; VLong 1; VLong 1970; VStr "Thu"]].
Proof.
  assert (H1 : time_dimension utc_engine sample_facts = Ok sample_time)
    by (vm_compute; reflexivity).
  assert (H2 : collect sample_time
    = Ok [[VLong 21; VLong 1; VLong 44; VLong 11; VLong 2018; VStr "Thu"];
          [VLong 0; VLong 15; VLong 46; VLong 11; VLong 2018; VStr "Thu"];
          [VLong 0; VLong 1; VLong 1; VLong 1; VLong 1970; VStr "Thu"]])
    by (vm_compute; reflexivity).
  split; [exact H1|]. split; [exact H2|].
  exact (time_rows_in_range utc_engine sample_facts sample_time _ H1 H2).
Defined.

(** ** When the songplay facts are computed *)

Lemma rmapM_indexed_total {A B} (g : nat -> A -> result B) (n : nat) (l : list A) :
  (forall i x, l !! i = Some x -> exists y, g (n + i)%nat x = Ok y) ->
  exists out, rmapM (fun '(i, x) => g i x) (indexed n l) = Ok out.
Proof.
  revert n. induction l as [|x l IH]; intros n H; simpl; [by eexists|].
  destruct (H 0%nat x eq_refl) as [y Hy]. rewrite Nat.add_0_r in Hy.
  destruct (IH (S n)) as [ys Hys].
  { intros i x' Hx. rewrite Nat.add_succ_comm. by apply (H (S i)). }
  exists (y :: ys). by rewrite Hy, Hys.
Qed.

(** A row map succeeds when it succeeds on every row. *)
Lemma map_rows_total (f : nat -> nat -> Row -> result Row)
    (parts : list (list Row)) :
  (forall p i r, row_at parts p i = Some r -> exists r', f p i r = Ok r') ->
  exists out, map_rows f parts = Ok out.
Proof.
  intros H. unfold map_rows.
  apply (rmapM_indexed_total
           (fun p part => rmapM (fun '(i, r) => f p i r) (indexed 0 part))).
  intros p part Hp. simpl. apply (rmapM_indexed_total (f p)).
  intros i r Hr. simpl. apply H. unfold row_at. by rewrite Hp.
Qed.

Lemma withColumn_total (n : string) (e : Column) (df d : DataFrame)
    (parts : list (list Row)) :
  withColumn n e df = Ok d -> partitions df = Ok parts ->
  (forall p i r, row_at parts p i = Some r ->
     exists v, eval (columns df) e p i r = Ok v) ->
  exists out, partitions d = Ok out.
Proof.
  intros [_ ->]%withColumn_inv Hparts H. simpl. rewrite Hparts. simpl.
  apply map_rows_total. intros p i r Hr.
  destruct (H p i r Hr) as [v ->]. simpl. eauto.
Qed.

Lemma elem_of_put_column (cols : list string) (n c : string) :
  c ∈ put_column cols n <-> c ∈ cols \/ c = n.
Proof.
  unfold put_column. destruct (col_index n cols) as [i|] eqn:Hi.
  - split; [by left|]. intros [?| ->]; [done|].
    apply col_index_Some in Hi. by eapply list_elem_of_lookup_2.
  - rewrite elem_of_app, list_elem_of_singleton. done.
Qed.

Lemma withColumn_built (n : string) (e : Column) (df : DataFrame) :
  (forall c, c ∈ column_refs e -> c ∈ columns df) ->
  exists d, withColumn n e df = Ok d /\ columns d = put_column (columns df) n.
Proof.
  intros H. eexists. split; [apply withColumn_inv; by split|done].
Qed.

(** The frame of the facts is built whatever the rows hold: only the
    timestamp column has to be there. *)
Lemma songplay_facts_built (E : Engine) (joined : DataFrame) :
  "ts" ∈ columns joined -> exists facts, songplay_facts E joined = Ok facts.
Proof.
  intros Hts. unfold songplay_facts.
  destruct (withColumn_built "start_time" (get_start_time "ts") joined)
    as (d1 & -> & Hc1).
  { by intros c ->%list_elem_of_singleton. }
  cbn [rbind].
  destruct (withColumn_built "songplay_id" monotonically_increasing_id d1)
    as (d2 & -> & Hc2).
  { by intros c ?%elem_of_nil. }
  cbn [rbind].
  destruct (withColumn_built "datetime" (get_datetime E "start_time") d2)
    as (d3 & -> & Hc3).
  { intros c ->%list_elem_of_singleton. rewrite Hc2, Hc1.
    rewrite !elem_of_put_column. auto. }
  cbn [rbind].
  destruct (withColumn_built "year" (year "datetime") d3) as (d4 & -> & Hc4).
  { intros c ->%list_elem_of_singleton. rewrite Hc3.
    rewrite !elem_of_put_column. auto. }
  cbn [rbind].
  destruct (withColumn_built "month" (month "datetime") d4) as (d5 & -> & Hc5).
  { intros c ->%list_elem_of_singleton. rewrite Hc4, Hc3.
    rewrite !elem_of_put_column. auto. }
  cbn [rbind]. by eexists.
Qed.

(** The rows of the facts are computed exactly when every timestamp is
    convertible. *)
Lemma songplay_facts_computed (E : Engine) (joined facts : DataFrame)
    (jparts : list (list Row)) :
  aligned joined -> partitions joined = Ok jparts ->
  songplay_facts E joined = Ok facts ->
  (exists out, partitions facts = Ok out) <->
  (forall r, r ∈ concat jparts -> convertible E (cell (columns joined) "ts" r)).
Proof.
  intros Hal Hj Hf. split.
  - intros [out Hout] r (p & i & Hr)%elem_of_concat_row_at.
    destruct (songplay_facts_rows _ _ _ _ Hal Hf Hout) as (jp & Hjp & Hpos).
    rewrite Hj in Hjp. injection Hjp as <-. specialize (Hpos p i).
    rewrite Hr in Hpos. destruct Hpos as (z & d & f & Hz & Hd & _).
    by exists z, d.
  - intros Hconv. unfold songplay_facts in Hf.
    apply rbind_ok in Hf as (d1 & H1 & Hf).
    apply rbind_ok in Hf as (d2 & H2 & Hf).
    apply rbind_ok in Hf as (d3 & H3 & Hf).
    apply rbind_ok in Hf as (d4 & H4 & Hf).
    apply rbind_ok in Hf as (d5 & H5 & [= <-]).
    pose proof (withColumn_aligned _ _ _ _ Hal H1) as Hal1.
    pose proof (withColumn_aligned _ _ _ _ Hal1 H2) as Hal2.
    destruct (withColumn_total _ _ _ _ _ H1 Hj) as [o1 Ho1].
    { intros p i r Hr. simpl.
      destruct (Hconv r) as (z & d & -> & _); [|simpl; eauto].
      apply elem_of_concat_row_at. eauto. }
    destruct (withColumn_rows _ _ _ _ _ H1 Ho1) as (Hc1 & jp & Hjp & Hr1).
    rewrite Hj in Hjp. injection Hjp as <-.
    destruct (withColumn_total _ _ _ _ _ H2 Ho1) as [o2 Ho2].
    { intros p i r Hr. simpl. eauto. }
    destruct (withColumn_rows _ _ _ _ _ H2 Ho2) as (Hc2 & o1' & Ho1' & Hr2).
    rewrite Ho1 in Ho1'. injection Ho1' as <-.
    destruct (withColumn_total _ _ _ _ _ H3 Ho2) as [o3 Ho3].
    { intros p i r2 Hrow2. specialize (Hr1 p i). specialize (Hr2 p i).
      destruct (row_at jparts p i) as [r|] eqn:Hr; cycle 1.
      { rewrite Hr1 in Hr2. congruence. }
      destruct Hr1 as (v1 & Hv1 & Hrow1). rewrite Hrow1 in Hr2.
      destruct Hr2 as (v2 & Hv2 & Hrow2'). rewrite Hrow2 in Hrow2'.
      injection Hrow2' as ->.
      pose proof (Hal _ Hj _ _ _ Hr) as L0.
      pose proof (Hal1 _ Ho1 _ _ _ Hrow1) as L1. rewrite Hc1 in L1.
      destruct (Hconv r) as (z & d & Hz & Hd).
      { apply elem_of_concat_row_at. eauto. }
      simpl in Hv1. rewrite Hz in Hv1. simpl in Hv1. injection Hv1 as <-.
      simpl. rewrite Hc2, Hc1.
      rewrite cell_put_other, cell_put_same by done.
      simpl. rewrite Hd. simpl. eauto. }
    destruct (withColumn_total _ _ _ _ _ H4 Ho3) as [o4 Ho4].
    { intros p i r Hr. simpl. eauto. }
    destruct (withColumn_total _ _ _ _ _ H5 Ho4) as [o5 Ho5].
    { intros p i r Hr. simpl. eauto. }
    simpl. rewrite Ho5. simpl. eauto.
Qed.

Lemma songplay_facts_columns (E : Engine) (joined facts : DataFrame) :
  songplay_facts E joined = Ok facts ->
  "year" ∈ columns facts /\ "month" ∈ columns facts /\
  "start_time" ∈ columns facts.
Proof.
  intros Hf. unfold songplay_facts in Hf.
  apply rbind_ok in Hf as (d1 & [_ ->]%withColumn_inv & Hf).
  apply rbind_ok in Hf as (d2 & [_ ->]%withColumn_inv & Hf).
  apply rbind_ok in Hf as (d3 & [_ ->]%withColumn_inv & Hf).
  apply rbind_ok in Hf as (d4 & [_ ->]%withColumn_inv & Hf).
  apply rbind_ok in Hf as (d5 & [_ ->]%withColumn_inv & [= <-]).
  simpl. rewrite !list_elem_of_filter, !elem_of_put_column.
  split_and!; try not_in; auto 10.
Qed.

Lemma songplays_saved (facts : DataFrame) (path : string) (st : State) :
  "year" ∈ columns facts -> "month" ∈ columns facts ->
  (exists st', save facts ["year"; "month"] "parquet" "overwrite" path st
               = (Ok tt, st')) <->
  (exists out, partitions facts = Ok out).
Proof.
  intros Hy Hm. split.
  - intros (st' & (rows & _ & Hrows & _)%save_overwrite_ok).
    unfold collect in Hrows. apply rmap_ok in Hrows as (out & ? & _). eauto.
  - intros [out Hout]. eexists. apply save_overwrite_ok.
    exists (concat out). split_and!; [|by unfold collect; rewrite Hout|done].
    apply resolve_ok. intros c [->|[->|[]%elem_of_nil]%elem_of_cons]%elem_of_cons; done.
Qed.


(** ** The time relation and the facts together *)


Lemma time_columns_total (cols : list string) (p i : nat) (r : Row) :
  exists row, rmapM (fun e => eval cols e p i r) time_columns.*2 = Ok row.
Proof. simpl. eauto. Qed.

Lemma time_dimension_built (E : Engine) (facts : DataFrame) :
  "start_time" ∈ columns facts ->
  exists time, time_dimension E facts = Ok time /\
    columns time = ["hour"; "day"; "week"; "month"; "year"; "weekday"].
Proof.
  intros Hs. unfold time_dimension.
  destruct (select ["start_time"] facts) as [d1|e] eqn:H1; cycle 1.
  { exfalso. assert (H : exists d, select ["start_time"] facts = Ok d).
    { eexists. apply select_inv. split; [|done].
      by intros c ->%list_elem_of_singleton. }
    destruct H as [d Hd]. congruence. }
  apply select_inv in H1 as [_ ->]. cbn [rbind].
  eexists. split; reflexivity.
Qed.

(** The rows of the time dimension are computed when those of the facts
    are. *)
Lemma time_dimension_computed (E : Engine) (joined facts time : DataFrame)
    (out : list (list Row)) :
  aligned joined -> songplay_facts E joined = Ok facts ->
  time_dimension E facts = Ok time -> partitions facts = Ok out ->
  exists rows, collect time = Ok rows.
Proof.
  intros Hal Hf Ht Hout.
  destruct (songplay_facts_rows _ _ _ _ Hal Hf Hout) as (jparts & Hj & Hpos).
  unfold time_dimension in Ht.
  apply rbind_ok in Ht as (d1 & [_ ->]%select_inv & Ht).
  apply rbind_ok in Ht as (d2 & [_ ->]%withColumn_inv & Ht).
  apply rbind_ok in Ht as (d3 & ->%select_exprs_inv & [= <-]).
  unfold collect.
  cbn [partitions columns drop dropDuplicates]. rewrite Hout.
  cbn [rmap rbind].
  set (o1 := layout E _).
  match goal with
  | |- context [rbind (map_rows ?f o1) _] =>
      destruct (map_rows_total f o1) as [o2 Ho2]
  end.
  { intros p i x Hx.
    assert (Hin : x ∈ concat o1) by (apply elem_of_concat_row_at; eauto).
    unfold o1 in Hin. rewrite layout_perm, elem_of_remove_dups in Hin.
    rewrite concat_map_map in Hin.
    apply list_elem_of_fmap in Hin as (f & -> & (q & j & Hf')%elem_of_concat_row_at).
    specialize (Hpos q j). destruct (row_at jparts q j) as [r|]; [|congruence].
    destruct Hpos as (z & d & f' & _ & Hd & Hf'' & _ & Hst & _).
    rewrite Hf' in Hf''. injection Hf'' as <-.
    unfold project. cbn [map].
    change (cell ["start_time"] "start_time" [cell (columns facts) "start_time" f])
      with (cell (columns facts) "start_time" f).
    rewrite Hst. cbn [py_int rbind]. rewrite Hd. cbn [rmap]. eauto. }
  rewrite Ho2. cbn [rbind].
  match goal with
  | |- context [map_rows ?f o2] => destruct (map_rows_total f o2) as [o3 Ho3]
  end.
  { intros p i r _. eauto. }
  rewrite Ho3. cbn [rmap]. eauto.
Qed.

(** X4.  The time relation and the songplay facts are computed by the
    same two lambdas on the same timestamps: saving the one succeeds
    exactly when saving the other does. *)
Theorem time_and_songplays_fail_together (spark : Engine) (joined : DataFrame)
    (p1 p2 : string) (st1 st2 : State) :
  aligned joined -> "ts" ∈ columns joined ->
  exists facts time,
    songplay_facts spark joined = Ok facts /\
    time_dimension spark facts = Ok time /\
    ((exists st', save time ["year"; "month"] "parquet" "overwrite" p1 st1
                  = (Ok tt, st')) <->
     (exists st', save facts ["year"; "month"] "parquet" "overwrite" p2 st2
                  = (Ok tt, st'))).
Proof.
  intros Hal Hts.
  destruct (songplay_facts_built spark joined Hts) as [facts Hf].
  destruct (songplay_facts_columns _ _ _ Hf) as (Hy & Hm & Hs).
  destruct (time_dimension_built spark facts Hs) as (time & Ht & Hc).
  exists facts, time. split; [done|]. split; [done|].
  rewrite (songplays_saved facts p2 st2 Hy Hm).
  rewrite (songplays_saved time p1 st1) by (rewrite Hc; is_in).
  split.
  - intros [o Ho].
    assert (Hrows : collect time = Ok (concat o)) by (unfold collect; by rewrite Ho).
    destruct (time_dimension_rows _ _ _ _ Ht Hrows) as (fparts & _ & ? & _).
    eauto.
  - intros [out Hout].
    destruct (time_dimension_computed _ _ _ _ _ Hal Hf Ht Hout) as [rows Hrows].
    unfold collect in Hrows. apply rmap_ok in Hrows as (o & ? & _). eauto.
Qed.

Lemma time_and_songplays_fail_together_witness :
  aligned sample_joined /\ "ts" ∈ columns sample_joined /\
  exists facts time,
    songplay_facts utc_engine sample_joined = Ok facts /\
    time_dimension utc_engine facts = Ok time /\
    ((exists st', save time ["year"; "month"] "parquet" "overwrite"
                    (output_data +:+ "time") initial = (Ok tt, st')) <->
     (exists st', save facts ["year"; "month"] "parquet" "overwrite"
                    (output_data +:+ "songplays") initial = (Ok tt, st'))).
Proof.
  assert (H1 : aligned sample_joined).
  { eapply aligned_intro; [reflexivity|]. repeat constructor. }
  assert (H3 : "ts" ∈ columns sample_joined) by (simpl; is_in).
  split; [exact H1|]. split; [exact H3|].
  exact (time_and_songplays_fail_together utc_engine sample_joined
           (output_data +:+ "time") (output_data +:+ "songplays")
           initial initial H1 H3).
Defined.

(** ** Timestamps that never fail, partitions and ids *)

Lemma fromtimestamp_total (E : Engine) (s : Z) :
  0 <= s < 253402214400 ->
  fromtimestamp (utc_offset E) s
  = Ok (datetime_of_seconds (s + utc_offset E s)).
Proof.
  intros Hs. pose proof (utc_offset_range E s) as Ho.
  set (d := datetime_of_seconds (s + utc_offset E s)).
  assert (Hd : fromtimestamp (utc_offset E) s = Ok d); [|done].
  apply fromtimestamp_ok. split; [done|]. unfold d.
  destruct (datetime_of_seconds_fields (s + utc_offset E s)) as (-> & _).
  split.
  - apply civil_year_lower. div_lia.
  - apply civil_year_upper. div_lia.
Qed.

Lemma convertible_from_epoch (E : Engine) (ts : Z) :
  0 <= ts < last_day_ms -> convertible E (VLong ts).
Proof.
  unfold last_day_ms. intros Hts.
  exists ts, (datetime_of_seconds (ts / 1000 + utc_offset E (ts / 1000))).
  split; [done|]. rewrite int_truediv_floor by lia.
  apply fromtimestamp_total. div_lia.
Qed.

(** X5.  Integer timestamps from the epoch up to the last day of the year
    9999 never make a lambda raise, in any zone: the time relation and
    the songplay facts are both saved. *)
Theorem timestamps_from_epoch_never_fail (spark : Engine) (joined : DataFrame)
    (jparts : list (list Row)) (p1 p2 : string) (st : State) :
  aligned joined -> partitions joined = Ok jparts -> "ts" ∈ columns joined ->
  (forall r, r ∈ concat jparts ->
     exists ts, cell (columns joined) "ts" r = VLong ts /\ 0 <= ts < last_day_ms) ->
  exists facts time st1 st2,
    songplay_facts spark joined = Ok facts /\
    time_dimension spark facts = Ok time /\
    save time ["year"; "month"] "parquet" "overwrite" p1 st = (Ok tt, st1) /\
    save facts ["year"; "month"] "parquet" "overwrite" p2 st1 = (Ok tt, st2).
Proof.
  intros Hal Hj Hts Hrows.
  destruct (songplay_facts_built spark joined Hts) as [facts Hf].
  destruct (songplay_facts_columns _ _ _ Hf) as (Hy & Hm & Hs).
  destruct (time_dimension_built spark facts Hs) as (time & Ht & Hc).
  destruct (proj2 (songplay_facts_computed _ _ _ _ Hal Hj Hf)) as [out Hout].
  { intros r Hr. destruct (Hrows r Hr) as (ts & -> & Hrange).
    by apply convertible_from_epoch. }
  destruct (time_dimension_computed _ _ _ _ _ Hal Hf Ht Hout) as [rows Hrt].
  eexists facts, time, _, _. split_and!; [done|done| |].
  - apply save_overwrite_ok. exists rows. split_and!; [|done|done].
    apply resolve_ok. rewrite Hc. intros c Hc'.
    apply elem_of_cons in Hc' as [->|Hc']; [is_in|].
    apply list_elem_of_singleton in Hc' as ->. is_in.
  - apply save_overwrite_ok. exists (concat out). split_and!; [| |done].
    + apply resolve_ok. intros c Hc'.
      apply elem_of_cons in Hc' as [->|Hc']; [done|].
      by apply list_elem_of_singleton in Hc' as ->.
    + unfold collect. by rewrite Hout.
Qed.

Lemma timestamps_from_epoch_never_fail_witness :
  aligned sample_joined /\ partitions sample_joined = Ok sample_rows /\
  "ts" ∈ columns sample_joined /\
  (forall r, r ∈ concat sample_rows ->
     exists ts, cell (columns sample_joined) "ts" r = VLong ts /\
       0 <= ts < last_day_ms) /\
  exists facts time st1 st2,
    songplay_facts utc_engine sample_joined = Ok facts /\
    time_dimension utc_engine facts = Ok time /\
    save time ["year"; "month"] "parquet" "overwrite"
         (output_data +:+ "time") initial = (Ok tt, st1) /\
    save facts ["year"; "month"] "parquet" "overwrite"
         (output_data +:+ "songplays") st1 = (Ok tt, st2).
Proof.
  assert (H1 : aligned sample_joined).
  { eapply aligned_intro; [reflexivity|]. repeat constructor. }
  assert (H3 : "ts" ∈ columns sample_joined) by (simpl; is_in).
  assert (H4 : forall r, r ∈ concat sample_rows ->
     exists ts, cell (columns sample_joined) "ts" r = VLong ts /\
       0 <= ts < last_day_ms).
  { intros r Hr. simpl in Hr.
    repeat (apply elem_of_cons in Hr as [->|Hr];
            [eexists; split; [reflexivity|unfold last_day_ms; lia]|]).
    by apply elem_of_nil in Hr. }
  split; [exact H1|]. split; [reflexivity|]. split; [exact H3|].
  split; [exact H4|].
  exact (timestamps_from_epoch_never_fail utc_engine sample_joined sample_rows
           (output_data +:+ "time") (output_data +:+ "songplays") initial
           H1 eq_refl H3 H4).
Defined.

(** X6.  The partition columns of a songplay fact are never null: its
    year is in 1..9999 and its month in 1..12, and the time relation has
    a row with the same year and month. *)
Theorem facts_fall_in_time_partitions (spark : Engine)
    (joined facts time : DataFrame) (out : list (list Row)) (rows : list Row) :
  aligned joined -> songplay_facts spark joined = Ok facts ->
  time_dimension spark facts = Ok time ->
  partitions facts = Ok out -> collect time = Ok rows ->
  forall f, f ∈ concat out ->
    exists y m t,
      cell (columns facts) "year" f = VLong y /\
      cell (columns facts) "month" f = VLong m /\
      1 <= y <= 9999 /\ 1 <= m <= 12 /\
      t ∈ rows /\
      cell (columns time) "year" t = VLong y /\
      cell (columns time) "month" t = VLong m.
Proof.
  intros Hal Hf Ht Hout Hrows f (p & i & Hfi)%elem_of_concat_row_at.
  destruct (songplay_facts_rows _ _ _ _ Hal Hf Hout) as (jparts & Hj & Hpos).
  specialize (Hpos p i). destruct (row_at jparts p i) as [r|]; [|congruence].
  destruct Hpos as (z & d & f' & _ & Hd & Hf' & _ & Hst & _ & Hy & Hm & _).
  rewrite Hfi in Hf'. injection Hf' as <-.
  destruct (time_dimension_rows _ _ _ _ Ht Hrows) as (fparts & sts & Hfp & Hsts & Hall).
  rewrite Hout in Hfp. injection Hfp as <-.
  assert (Hin : VLong (int_truediv z 1000) ∈ sts).
  { apply Hsts. rewrite <- Hst. apply list_elem_of_fmap_2.
    apply elem_of_concat_row_at. eauto. }
  apply list_elem_of_lookup in Hin as [k Hk].
  destruct (Forall2_lookup_l _ _ _ _ _ Hall Hk) as (t & Ht' & z' & d' & Hz' & Hd' & ->).
  simpl in Hz'. injection Hz' as <-. rewrite Hd in Hd'. injection Hd' as <-.
  assert (Hc : columns time = ["hour"; "day"; "week"; "month"; "year"; "weekday"]).
  { unfold time_dimension in Ht.
    apply rbind_ok in Ht as (d1 & _ & Ht).
    apply rbind_ok in Ht as (d2 & _ & Ht).
    apply rbind_ok in Ht as (d3 & ->%select_exprs_inv & [= <-]). done. }
  apply fromtimestamp_ok in Hd as [Hd Hyear].
  pose proof (datetime_fields_range (int_truediv z 1000
                + utc_offset spark (int_truediv z 1000))) as (_ & _ & Hmonth).
  rewrite <- Hd in Hmonth.
  exists (dt_year d), (dt_month d). eexists.
  split_and!; [done|done|lia|lia|lia|lia| | |].
  - by eapply list_elem_of_lookup_2.
  - by rewrite Hc.
  - by rewrite Hc.
Qed.

Lemma facts_fall_in_time_partitions_witness :
  aligned sample_joined /\
  songplay_facts utc_engine sample_joined = Ok sample_facts /\
  time_dimension utc_engine sample_facts = Ok sample_time /\
  partitions sample_facts = Ok sample_fact_rows /\
  (exists rows, collect sample_time = Ok rows /\
  forall f, f ∈ concat sample_fact_rows ->
    exists y m t,
      cell (columns sample_facts) "year" f = VLong y /\
      cell (columns sample_facts) "month" f = VLong m /\
      1 <= y <= 9999 /\ 1 <= m <= 12 /\
      t ∈ rows /\
      cell (columns sample_time) "year" t = VLong y /\
      cell (columns sample_time) "month" t = VLong m).
Proof.
  assert (H1 : aligned sample_joined).
  { eapply aligned_intro; [reflexivity|]. repeat constructor. }
  assert (H2 : songplay_facts utc_engine sample_joined = Ok sample_facts)
    by (vm_compute; reflexivity).
  assert (H3 : time_dimension utc_engine sample_facts = Ok sample_time)
    by (vm_compute; reflexivity).
  assert (H4 : partitions sample_facts = Ok sample_fact_rows)
    by (vm_compute; reflexivity).
  split; [exact H1|]. split; [exact H2|]. split; [exact H3|]. split; [exact H4|].
  eexists. split; [vm_compute; reflexivity|].
  apply (facts_fall_in_time_partitions utc_engine sample_joined sample_facts
           sample_time sample_fact_rows _ H1 H2 H3 H4).
  vm_compute. reflexivity.
Defined.

(** X7.  With fewer than 2^30 partitions of at most 2^33 rows, the
    songplay_id of the row at position [i] of partition [p] is
    [p * 2^33 + i]: non-negative, increasing with the position, and not
    consecutive from one partition to the next. *)
Theorem songplay_id_formula (spark : Engine) (joined facts : DataFrame)
    (out : list (list Row)) :
  aligned joined -> songplay_facts spark joined = Ok facts ->
  partitions facts = Ok out ->
  Z.of_nat (length out) <= 2 ^ 30 ->
  Forall (fun part => Z.of_nat (length part) <= 2 ^ 33) out ->
  forall p i f, row_at out p i = Some f ->
    cell (columns facts) "songplay_id" f
    = VLong (Z.of_nat p * 2 ^ 33 + Z.of_nat i).
Proof.
  intros Hal Hf Hout Hn Hparts p i f Hfi.
  destruct (songplay_facts_rows _ _ _ _ Hal Hf Hout) as (jparts & Hj & Hpos).
  specialize (Hpos p i). destruct (row_at jparts p i) as [r|]; [|congruence].
  destruct Hpos as (z & d & f' & _ & _ & Hf' & _ & _ & Hid & _).
  rewrite Hfi in Hf'. injection Hf' as <-. rewrite Hid. f_equal.
  destruct (row_at_bounds out p i f) as [_ Hi]; [|done|].
  { split; [|done]. change (2 ^ 31) with 2147483648.
    change (2 ^ 30) with 1073741824 in Hn. lia. }
  assert (Hp : Z.of_nat p < 2 ^ 30).
  { unfold row_at in Hfi. destruct (out !! p) eqn:Hp; [|done].
    apply lookup_lt_Some in Hp. lia. }
  unfold mono_id, wrap64. rewrite Z.shiftl_mul_pow2 by lia.
  change (2 ^ 30) with 1073741824 in *. change (2 ^ 33) with 8589934592 in *.
  change (2 ^ 63) with 9223372036854775808.
  change (2 ^ 64) with 18446744073709551616.
  Z.div_mod_to_equations. lia.
Qed.

Lemma songplay_id_formula_witness :
  aligned sample_joined /\
  songplay_facts utc_engine sample_joined = Ok sample_facts /\
  partitions sample_facts = Ok sample_fact_rows /\
  Z.of_nat (length sample_fact_rows) <= 2 ^ 30 /\
  Forall (fun part => Z.of_nat (length part) <= 2 ^ 33) sample_fact_rows /\
  forall p i f, row_at sample_fact_rows p i = Some f ->
    cell (columns sample_facts) "songplay_id" f
    = VLong (Z.of_nat p * 2 ^ 33 + Z.of_nat i).
Proof.
  assert (H1 : aligned sample_joined).
  { eapply aligned_intro; [reflexivity|]. repeat constructor. }
  assert (H2 : songplay_facts utc_engine sample_joined = Ok sample_facts)
    by (vm_compute; reflexivity).
  assert (H4 : partitions sample_facts = Ok sample_fact_rows)
    by (vm_compute; reflexivity).
  assert (H5 : Z.of_nat (length sample_fact_rows) <= 2 ^ 30)
    by (vm_compute; discriminate).
  assert (H6 : Forall (fun part => Z.of_nat (length part) <= 2 ^ 33)
                      sample_fact_rows).
  { apply Forall_forall. intros part Hpart.
    pose proof (length_part_le_concat _ _ Hpart) as Hle.
    assert (Hc : length (concat sample_fact_rows) = 3%nat)
      by (vm_compute; reflexivity).
    rewrite Hc in Hle. change (2 ^ 33) with 8589934592. lia. }
  split; [exact H1|]. split; [exact H2|]. split; [exact H4|].
  split; [exact H5|]. split; [exact H6|].
  exact (songplay_id_formula utc_engine sample_joined sample_facts
           sample_fact_rows H1 H2 H4 H5 H6).
Defined.

(** ** Schema errors of the two phases *)








(** ** What a run saves and what it leaves alone *)

Section Saves.

Context {A B : Type}.


Lemma saves_nothing (m : M A) :
  (forall st, output (m st).2 = output st) -> saves m [].
Proof.
  intros H st. exists []. rewrite H. split_and!; [done|done|done].
Qed.


End Saves.

Lemma saves_save (df : DataFrame) (by_ : list string) (fmt mode path : string) :
  saves (save df by_ fmt mode path) [path].
Proof.
  intros st. unfold save.
  destruct (save_mode mode) as [m|]; cycle 1.
  { exists []. split_and!; [done|apply prefix_nil|done]. }
  destruct (rbind _ _) as [r|e].
  - exists [(path, r)]. split_and!; done.
  - exists []. split_and!; [done|apply prefix_nil|done].
Qed.

Lemma saves_lift {A} (r : result A) : saves (lift r) [].
Proof. apply saves_nothing. intros st. by destruct r. Qed.

Lemma saves_view (name : string) (df : DataFrame) :
  saves (createOrReplaceTempView name df) [].
Proof. by apply saves_nothing. Qed.

Lemma saves_sql (E : Engine) (q : Query) : saves (sql E q) [].
Proof. apply saves_nothing. intros st. unfold sql. by destruct (q E (views st)). Qed.

Lemma saves_read (W : World) (path : string) : saves (read_json W path) [].
Proof.
  apply saves_nothing. intros st. unfold read_json. by destruct (bucket W !! path).
Qed.

Lemma saves_setenv (name value : string) : saves (setenv name value) [].
Proof. by apply saves_nothing. Qed.

Lemma saves_read_config (W : World) (path : string) : saves (read_config W path) [].
Proof.
  apply saves_nothing. intros st. unfold read_config. by repeat case_match.
Qed.

Lemma saves_config_get (c : Config) (s o : string) : saves (config_get c s o) [].
Proof.
  apply saves_nothing. intros st. unfold config_get. by repeat case_match.
Qed.

Create HintDb saves.

#[local] Hint Resolve saves_save saves_lift saves_view saves_sql saves_read
  saves_setenv saves_read_config saves_config_get : saves.





Section Within.

Context {A B X : Type}.

Variables (proj : State -> gmap string X) (keys : list string).

Lemma within_same (m : M A) :
  (forall st, proj (m st).2 = proj st) -> within proj keys m.
Proof. intros H st k _. by rewrite H. Qed.

Lemma within_bind (m : M A) (k : A -> M B) :
  within proj keys m -> (forall a, within proj keys (k a)) ->
  within proj keys (bind m k).
Proof.
  intros Hm Hk st n Hn. unfold bind. specialize (Hm st n Hn).
  destruct (m st) as [[a|e] st1]; simpl in *; [|done].
  by rewrite Hk.
Qed.

End Within.

Lemma within_lift {A X} (proj : State -> gmap string X) keys (r : result A) :
  within proj keys (lift r).
Proof. apply within_same. intros st. by destruct r. Qed.

Lemma within_sql {X} (proj : State -> gmap string X) keys (E : Engine) (q : Query) :
  within proj keys (sql E q).
Proof. intros st. unfold sql. apply within_lift. Qed.

Lemma within_read {X} (proj : State -> gmap string X) keys (W : World) path :
  (forall e v r o, proj (mkState e v (r ++ [path]) o) = proj (mkState e v r o)) ->
  within proj keys (read_json W path).
Proof.
  intros H. apply within_same. intros [e v r o]. unfold read_json. simpl.
  destruct (bucket W !! path); simpl; apply H.
Qed.

Lemma within_read_config {X} (proj : State -> gmap string X) keys (W : World) path :
  within proj keys (read_config W path).
Proof.
  apply within_same. intros st. unfold read_config. by repeat case_match.
Qed.

Lemma within_config_get {X} (proj : State -> gmap string X) keys c s o :
  within proj keys (config_get c s o).
Proof.
  apply within_same. intros st. unfold config_get. by repeat case_match.
Qed.

Lemma env_within_view keys name df :
  within environ keys (createOrReplaceTempView name df).
Proof. by apply within_same. Qed.

Lemma env_within_save keys df by_ fmt mode path :
  within environ keys (save df by_ fmt mode path).
Proof. apply within_same. intros st. unfold save. by repeat case_match. Qed.

Lemma env_within_setenv keys name value :
  name ∈ keys -> within environ keys (setenv name value).
Proof.
  intros Hin st k Hk. simpl. apply lookup_insert_ne. by intros ->.
Qed.

Lemma views_within_view keys name df :
  name ∈ keys -> within views keys (createOrReplaceTempView name df).
Proof.
  intros Hin st k Hk. simpl. apply lookup_insert_ne. by intros ->.
Qed.

Lemma views_within_save keys df by_ fmt mode path :
  within views keys (save df by_ fmt mode path).
Proof. apply within_same. intros st. unfold save. by repeat case_match. Qed.

Lemma views_within_setenv keys name value :
  within views keys (setenv name value).
Proof. by apply within_same. Qed.

Lemma output_within_view keys name df :
  within output keys (createOrReplaceTempView name df).
Proof. by apply within_same. Qed.

Lemma output_within_setenv keys name value :
  within output keys (setenv name value).
Proof. by apply within_same. Qed.

Lemma output_within_save keys df by_ fmt mode path :
  path ∈ keys -> within output keys (save df by_ fmt mode path).
Proof.
  intros Hin st k Hk. unfold save. repeat case_match; try done.
  simpl. apply lookup_insert_ne. by intros ->.
Qed.

Ltac within_steps :=
  repeat (apply within_bind; [|intros ?]);
  first [ apply within_lift | apply within_sql | by apply within_read
        | apply within_read_config | apply within_config_get
        | apply env_within_view | apply env_within_save
        | apply env_within_setenv; is_in
        | apply views_within_view; is_in | apply views_within_save
        | apply views_within_setenv
        | apply output_within_view | apply output_within_setenv
        | apply output_within_save; is_in ].

Lemma main_within_environ (E : Engine) (W : World) :
  within environ job_variables (main E W).
Proof.
  unfold main, process_song_data, process_log_data, job_variables.
  within_steps.
Qed.

Lemma main_within_views (E : Engine) (W : World) :
  within views job_views (main E W).
Proof.
  unfold main, process_song_data, process_log_data, job_views.
  within_steps.
Qed.

Lemma main_within_output (E : Engine) (W : World) :
  within output saved_paths (main E W).
Proof.
  unfold main, process_song_data, process_log_data, saved_paths.
  within_steps.
Qed.

(** X11.  Whether it completes or fails, the job leaves every
    environment variable but the two credentials, every view but
    sparkify, artists, songs and logs, and every output path but its five
    as it found them. *)
Theorem job_touches_nothing_else (spark : Engine) (W : World) (st : State) :
  (forall n, n ∉ job_variables ->
     environ (main spark W st).2 !! n = environ st !! n) /\
  (forall n, n ∉ job_views ->
     views (main spark W st).2 !! n = views st !! n) /\
  (forall p, p ∉ saved_paths ->
     output (main spark W st).2 !! p = output st !! p).
Proof.
  split_and!.
  - apply main_within_environ.
  - apply main_within_views.
  - apply main_within_output.
Qed.

(** ** The environment, and the metadata phase on any values *)

Lemma within_nothing {A X} (proj : State -> gmap string X) (m : M A) (st : State) :
  within proj [] m -> proj (m st).2 = proj st.
Proof. intros H. apply map_eq. intros k. apply H, not_elem_of_nil. Qed.

Lemma phases_within_environ (E : Engine) (W : World) (inp out : string) :
  within environ []
    (bind (process_song_data E W inp out) (fun _ => process_log_data E W inp out)).
Proof. unfold process_song_data, process_log_data. within_steps. Qed.

(** X12.  Once the configuration is read, the two credentials are in
    the environment of the process and stay there, whether the phases
    complete or fail; no other variable is changed. *)
Theorem credentials_stay_in_environment (spark : Engine) (W : World)
    (st : State) (key secret : string) :
  credentials_of W = Some (key, secret) ->
  environ (main spark W st).2
  = <["AWS_SECRET_ACCESS_KEY" := secret]>
      (<["AWS_ACCESS_KEY_ID" := key]> (environ st)).
Proof.
  intros Hc. rewrite (main_configured _ _ _ _ _ Hc).
  by rewrite (within_nothing environ _ _
                (phases_within_environ spark W input_data output_data)).
Qed.

Lemma credentials_stay_in_environment_witness :
  credentials_of sample_world = Some ("AKIA", "s3cr3t") /\
  environ (main utc_engine sample_world initial).2
  = <["AWS_SECRET_ACCESS_KEY" := "s3cr3t"]>
      (<["AWS_ACCESS_KEY_ID" := "AKIA"]> (environ initial)).
Proof.
  assert (H : credentials_of sample_world = Some ("AKIA", "s3cr3t"))
    by (vm_compute; reflexivity).
  split; [exact H|].
  exact (credentials_stay_in_environment utc_engine sample_world initial
           "AKIA" "s3cr3t" H).
Defined.



(** ** Running the job again *)

Lemma insert_again {X} (m : gmap string X) (k : string) (v : X) :
  m !! k = Some v -> <[k := v]> m = m.
Proof. apply insert_id. Qed.

(** Looks a key up through the inserts above it. *)
Ltac lookups :=
  repeat first
    [ rewrite lookup_insert_eq
    | rewrite lookup_insert_ne
        by first [done | intros Heq; vm_compute in Heq; discriminate] ].

(** X14.  A second run on the same input, started where a complete run
    ended, completes and leaves the saved relations, the views and the
    environment exactly as the first run left them; only the two reads
    are repeated.  (Every view a query of [sql_queries], as modelled
    above, reads is registered anew before the query.) *)
Theorem rerun_changes_nothing (spark : Engine) (W : World) (st st1 : State) :
  main spark W st = (Ok tt, st1) ->
  exists st2,
    main spark W st1 = (Ok tt, st2) /\
    output st2 = output st1 /\ views st2 = views st1 /\
    environ st2 = environ st1 /\
    reads st2 = reads st1 ++ [song_data; log_data input_data].
Proof.
  intros Hrun.
  destruct (credentials_of W) as [[key secret]|] eqn:Hc; cycle 1.
  { destruct (main_unconfigured spark W st Hc) as (e & s & Hm & _). congruence. }
  rewrite (main_configured _ _ _ _ _ Hc) in Hrun.
  apply bind_ok in Hrun as ([] & sta & Hsong & Hlog).
  apply process_song_data_ok in Hsong
    as (parts & s0 & a0 & tagged & artists & rs & ra &
        Hparts & Hs0 & Ha0 & Htag & Hart & Hrs & Hra & ->).
  apply process_log_data_ok in Hlog
    as (eparts & sel & log_df & logs & s & a & joined & facts & users & time &
        ru & rt & rf & Heparts & Hsel & Hlogdf & Hlogs & Hs & Ha & Hjoin & Hf &
        Hu & Ht & Hru & Hct & Hrt & Hcf & Hrf & ->).
  cbn [views after_songs] in Hs, Ha.
  rewrite lookup_insert_eq in Hs. injection Hs as <-.
  rewrite lookup_insert_ne, lookup_insert_eq in Ha by done. injection Ha as <-.
  eexists. split.
  { rewrite (main_configured _ _ _ _ _ Hc).
    apply bind_ok. eexists tt, _. split.
    - apply process_song_data_ok.
      exists parts, s0, a0, tagged, artists, rs, ra. split_and!; done.
    - apply process_log_data_ok.
      exists eparts, sel, log_df, logs, (dropDuplicates spark s0), artists,
        joined, facts, users, time, ru, rt, rf.
      split_and!; try done.
      + cbn [views after_songs]. by rewrite lookup_insert_eq.
      + cbn [views after_songs]. by rewrite lookup_insert_ne, lookup_insert_eq. }
  cbn [output views environ reads after_logs after_songs with_credentials].
  split_and!.
  - apply map_eq. intros k.
    destruct (decide (k = output_data +:+ "songplays")) as [->|?]; [by lookups|].
    destruct (decide (k = output_data +:+ "time")) as [->|?]; [by lookups|].
    destruct (decide (k = output_data +:+ "users")) as [->|?]; [by lookups|].
    destruct (decide (k = output_data +:+ "artists")) as [->|?]; [by lookups|].
    destruct (decide (k = output_data +:+ "songs")) as [->|?]; [by lookups|].
    by lookups.
  - apply map_eq. intros k.
    destruct (decide (k = "logs")) as [->|?]; [by lookups|].
    destruct (decide (k = "sparkify")) as [->|?]; [by lookups|].
    destruct (decide (k = "songs")) as [->|?]; [by lookups|].
    destruct (decide (k = "artists")) as [->|?]; [by lookups|].
    by lookups.
  - apply map_eq. intros k.
    destruct (decide (k = "AWS_SECRET_ACCESS_KEY")) as [->|?]; [by lookups|].
    destruct (decide (k = "AWS_ACCESS_KEY_ID")) as [->|?]; [by lookups|].
    by lookups.
  - by rewrite <- !app_assoc.
Qed.

Lemma rerun_changes_nothing_witness :
  main utc_engine sample_world initial = (Ok tt, sample_final) /\
  exists st2,
    main utc_engine sample_world sample_final = (Ok tt, st2) /\
    output st2 = output sample_final /\ views st2 = views sample_final /\
    environ st2 = environ sample_final /\
    reads st2 = reads sample_final ++ [song_data; log_data input_data].
Proof.
  assert (H : main utc_engine sample_world initial = (Ok tt, sample_final))
    by (vm_compute; reflexivity).
  split; [exact H|].
  exact (rerun_changes_nothing utc_engine sample_world initial sample_final H).
Defined.

(** ** The format of the log lines *)

Lemma append_empty_r (s : string) : s +:+ "" = s.
Proof.
  induction s as [|c s IH]; [done|].
  change (String c (s +:+ "") = String c s). by rewrite IH.
Qed.

Lemma format_record (r : LogRecord) :
  percent_format etl_format Text r = Some (formatted r).
Proof.
  unfold formatted. rewrite <- (append_empty_r (rec_message r)) at 1.
  reflexivity.
Qed.

Example script_lines_count : length script_lines = 25%nat.
Proof. reflexivity. Qed.

Example format_example :
  percent_format etl_format Text
    (mkLogRecord "__main__" INFO "etl.py" "process_song_data" "Done.")
  = Some "etl.py:process_song_data:INFO:Done.".
Proof. reflexivity. Qed.

(** ** Steps of the process *)

Lemma run_eq {A} (m : M A) (ps : Process) :
  run m ps
  = (outcome_of (m (job ps)).1,
     mkProcess (m (job ps)).2 (loggers ps) (logger ps) (stderr ps) (session ps)).
Proof. unfold run. by destruct (m (job ps)) as [[a|e] st]. Qed.

Lemma log_unbound (ps : Process) (f : string) (lvl : Level) (msg : string) :
  logger ps = None -> log f lvl msg ps = (Throw (NameError "logger"), ps).
Proof. intros H. unfold log. by rewrite H. Qed.

(** A log call through a bound logger completes and changes the stream
    only. *)
Lemma log_bound (ps : Process) (f : string) (lvl : Level) (msg : string) :
  logger ps <> None ->
  exists w, log f lvl msg ps
            = (Done tt, mkProcess (job ps) (loggers ps) (logger ps)
                                  (stderr ps ++ w) (session ps)).
Proof.
  intros H. destruct ps as [st lgs [name|] err s]; [|done].
  unfold log. cbn [logger]. destruct (_ <=? _); [by eexists|].
  exists []. cbn. by rewrite app_nil_r.
Qed.

Lemma log_configured (ps : Process) (level : Z) (f : string) (lvl : Level)
    (msg : string) :
  configured ps level -> level <> 0 ->
  log f lvl msg ps
  = (Done tt, mkProcess (job ps) (loggers ps) (logger ps)
                        (stderr ps ++ written level f lvl msg) (session ps)).
Proof.
  destruct ps as [st lgs lg err s]. intros (Hl & Hlg & Hroot) Hlevel.
  cbn [logger loggers] in Hl, Hlg. subst lg. unfold log, written. cbn [logger].
  set (ps := mkProcess st lgs (Some "__main__") err s) in *.
  assert (Hown : getLogger "__main__" ps = mkLogger level [mkHandler 0 etl_format]).
  { unfold getLogger. cbn [loggers ps]. by rewrite Hlg. }
  unfold effective_level. rewrite Hown. cbn [lg_level].
  destruct (Z.eqb_spec level 0) as [?|_]; [congruence|].
  destruct (level <=? levelno lvl); cycle 1.
  { by rewrite app_nil_r. }
  unfold handle, handlers_for. rewrite Hown, Hroot. cbn [lg_handlers].
  rewrite decide_False by done. cbn [app mbind list_bind].
  unfold emit. cbn [h_level h_fmt rec_level]. rewrite format_record.
  assert (H0 : (0 <=? levelno lvl) = true) by (by destruct lvl).
  rewrite H0. done.
Qed.

(** ** The datasets of a logged run *)

Section Follows.

Context {A B : Type}.

Lemma follows_run (m : M A) : follows (run m) m.
Proof. intros ps _. by rewrite run_eq. Qed.

Lemma follows_bind (m' : P A) (m : M A) (k' : A -> P B) (k : A -> M B) :
  follows m' m -> (forall a, follows (k' a) (k a)) ->
  follows (pbind m' k') (bind m k).
Proof.
  intros Hm Hk ps Hps. destruct (Hm ps Hps) as (Hr & Hj & Hl).
  unfold pbind, bind.
  destruct (m' ps) as [[a'|x] ps1], (m (job ps)) as [[a|e] st1];
    simpl in *; try done.
  - injection Hr as ->. subst st1.
    destruct (Hk a ps1) as (? & ? & Hl2); [by rewrite Hl|].
    split_and!; [done|done|by rewrite Hl2].
  - injection Hr as ->. split_and!; [done|exact Hj|exact Hl].
Qed.

Lemma follows_skip {X} (s : P X) (k' : X -> P A) (m : M A) :
  silent s -> (forall x, follows (k' x) m) -> follows (pbind s k') m.
Proof.
  intros Hs Hk ps Hps. destruct (Hs ps Hps) as ([x Hx] & Hj & Hl).
  unfold pbind. destruct (s ps) as [[x'|?] ps1]; simpl in *; [|done].
  destruct (Hk x' ps1) as (? & ? & Hl2); [by rewrite Hl|].
  rewrite <- Hj, <- Hl. done.
Qed.

End Follows.

Lemma silent_log (f : string) (lvl : Level) (msg : string) : silent (log f lvl msg).
Proof.
  intros ps Hps. destruct (log_bound ps f lvl msg Hps) as [w ->]. simpl. eauto.
Qed.

Lemma silent_getOrCreate (key value : string) : silent (getOrCreate key value).
Proof. intros ps _. simpl. eauto. Qed.

(** Steps through a logged function and the function of the job it
    follows, up to the last save. *)
Ltac follow :=
  lazymatch goal with
  | |- follows (pbind (log _ _ _) _) _ =>
      apply follows_skip; [apply silent_log|intros _; follow]
  | |- follows (pbind (run _) _) (bind _ _) =>
      apply follows_bind; [apply follows_run|intros ?; follow]
  | |- _ => idtac
  end.

Lemma follows_run_log (m : M unit) (f : string) (lvl : Level) (msg : string) :
  follows (pbind (run m) (fun _ => log f lvl msg)) m.
Proof.
  intros ps Hps. unfold pbind. rewrite run_eq.
  destruct (m (job ps)) as [[[]|e] st1]; simpl; [|done].
  destruct (log_bound (mkProcess st1 (loggers ps) (logger ps) (stderr ps)
                                 (session ps)) f lvl msg Hps) as [w ->].
  done.
Qed.

Lemma process_song_data_follows (E : Engine) (W : World) (inp out : string) :
  follows (Logged.process_song_data E W inp out)
          (process_song_data E W inp out).
Proof.
  unfold Logged.process_song_data, process_song_data. cbv zeta.
  follow. apply follows_run_log.
Qed.

Lemma process_log_data_follows (E : Engine) (W : World) (inp out : string) :
  follows (Logged.process_log_data E W inp out)
          (process_log_data E W inp out).
Proof.
  unfold Logged.process_log_data, process_log_data. cbv zeta.
  follow. apply follows_run_log.
Qed.

Lemma main_follows (E : Engine) (W : World) :
  follows (Logged.main E W) (main E W).
Proof.
  unfold Logged.main, main.
  do 5 (apply follows_bind; [apply follows_run|intros ?]).
  apply follows_skip; [apply silent_getOrCreate|intros _].
  apply follows_bind; [apply process_song_data_follows|intros _].
  apply process_log_data_follows.
Qed.

(** X15.  The script as it is run, with its logger and its session, does
    to the datasets exactly what the job does, and ends the same way:
    completed, or with the same exception. *)
Theorem script_runs_the_job (spark : Engine) (W : World) (ps : Process) :
  (Logged.module spark W "__main__" ps).1 = outcome_of (main spark W (job ps)).1 /\
  job (Logged.module spark W "__main__" ps).2 = (main spark W (job ps)).2.
Proof.
  unfold Logged.module. rewrite decide_True by done.
  unfold pbind at 1. cbn [create_logger fst snd].
  unfold pbind at 1. cbn [set_logger].
  match goal with
  | |- context [Logged.main spark W ?p] =>
      destruct (main_follows spark W p) as (H1 & H2 & _); [done|]
  end.
  split; [exact H1|exact H2].
Qed.

(** ** The lines of a logged run *)

Lemma configured_same (ps ps' : Process) (level : Z) :
  loggers ps' = loggers ps -> logger ps' = logger ps ->
  configured ps level -> configured ps' level.
Proof.
  intros H1 H2 (Hl & Hlg & Hroot). unfold configured, getLogger in *.
  rewrite H1, H2. done.
Qed.

Section Writes.

Context {A B : Type}.

Variable level : Z.

Lemma writes_run (m : M A) : writes level (run m) [].
Proof.
  intros ps Hps. rewrite run_eq. simpl. split.
  - by eapply configured_same.
  - exists []. rewrite app_nil_r. done.
Qed.

Lemma writes_bind (m : P A) (k : A -> P B) (l1 l2 : list string) :
  writes level m l1 -> (forall a, writes level (k a) l2) ->
  writes level (pbind m k) (l1 ++ l2).
Proof.
  intros Hm Hk ps Hps. destruct (Hm ps Hps) as (Hc & w1 & Hw1 & Hp1 & Hall1).
  unfold pbind. destruct (m ps) as [[a|x] ps1]; simpl in *.
  - destruct (Hk a ps1 Hc) as (Hc2 & w2 & Hw2 & Hp2 & Hall2).
    split; [done|]. exists (w1 ++ w2). rewrite Hw2, Hw1, (Hall1 a eq_refl).
    split_and!; [by rewrite app_assoc|by apply prefix_app|].
    intros b Hb. by rewrite (Hall2 b Hb).
  - split; [done|]. exists w1. split_and!; [done|by apply prefix_app_r|done].
Qed.

Lemma reports_bind (m : P A) (k : A -> P B) (l1 l2 : list string) :
  writes level m l1 -> (forall a, reports level (k a) l2) -> l2 <> [] ->
  reports level (pbind m k) (l1 ++ l2).
Proof.
  intros Hm Hk Hne ps Hps.
  destruct (Hm ps Hps) as (Hc & w1 & Hw1 & Hp1 & Hall1).
  unfold pbind. destruct (m ps) as [[a|x] ps1]; simpl in *.
  - destruct (Hk a ps1 Hc) as (Hc2 & w2 & Hw2 & Hp2 & Hiff).
    split; [done|]. exists (w1 ++ w2). rewrite Hw2, Hw1, (Hall1 a eq_refl).
    split_and!; [by rewrite app_assoc|by apply prefix_app|].
    rewrite Hiff. split; [by intros ->|]. by intros ?%app_inv_head.
  - split; [done|]. exists w1. split_and!; [done|by apply prefix_app_r|].
    split; [by intros [? ?]|]. intros ->.
    apply prefix_length in Hp1. rewrite length_app in Hp1.
    destruct l2; [done|]. simpl in Hp1. lia.
Qed.

Lemma reports_writes (m : P A) (l : list string) :
  reports level m l -> writes level m l.
Proof.
  intros H ps Hps. destruct (H ps Hps) as (Hc & w & Hw & Hp & Hiff).
  split; [done|]. exists w. split_and!; [done|done|].
  intros a Ha. apply Hiff. eauto.
Qed.

End Writes.

Lemma writes_log (level : Z) (f : string) (lvl : Level) (msg : string) :
  level <> 0 -> writes level (log f lvl msg) (written level f lvl msg).
Proof.
  intros Hlevel ps Hps. rewrite (log_configured ps level) by done. simpl.
  split; [by eapply configured_same|]. eauto.
Qed.

Lemma reports_log (level : Z) (f : string) (lvl : Level) (msg : string) :
  level <> 0 -> reports level (log f lvl msg) (written level f lvl msg).
Proof.
  intros Hlevel ps Hps. rewrite (log_configured ps level) by done. simpl.
  split; [by eapply configured_same|].
  exists (written level f lvl msg). split_and!; [done|done|]. split; eauto.
Qed.

Lemma writes_getOrCreate (level : Z) (key value : string) :
  writes level (getOrCreate key value) [].
Proof.
  intros ps Hps. simpl. split; [by eapply configured_same|].
  exists []. by rewrite app_nil_r.
Qed.

Ltac report :=
  lazymatch goal with
  | |- reports _ (pbind (log _ _ _) _) _ =>
      eapply reports_bind;
        [apply writes_log; done | intros _; report | vm_compute; discriminate]
  | |- reports _ (pbind (run _) _) _ =>
      eapply reports_bind;
        [apply writes_run | intros ?; report | vm_compute; discriminate]
  | |- reports _ (log _ _ _) _ => apply reports_log; done
  end.

Lemma process_song_data_reports (E : Engine) (W : World) (inp out : string)
    (level : Z) :
  level = 10 \/ level = 20 ->
  reports level (Logged.process_song_data E W inp out)
          (lines level "process_song_data" song_messages).
Proof.
  intros Hlevel.
  enough (H : exists l, reports level (Logged.process_song_data E W inp out) l /\
                        l = lines level "process_song_data" song_messages).
  { destruct H as (l & H & ->). exact H. }
  unfold Logged.process_song_data. cbv zeta.
  destruct Hlevel as [-> | ->]; (eexists; split; [report|vm_compute; reflexivity]).
Qed.

Lemma process_log_data_reports (E : Engine) (W : World) (inp out : string)
    (level : Z) :
  level = 10 \/ level = 20 ->
  reports level (Logged.process_log_data E W inp out)
          (lines level "process_log_data" log_messages).
Proof.
  intros Hlevel.
  enough (H : exists l, reports level (Logged.process_log_data E W inp out) l /\
                        l = lines level "process_log_data" log_messages).
  { destruct H as (l & H & ->). exact H. }
  unfold Logged.process_log_data. cbv zeta.
  destruct Hlevel as [-> | ->]; (eexists; split; [report|vm_compute; reflexivity]).
Qed.

Lemma main_reports (E : Engine) (W : World) :
  reports 20 (Logged.main E W) script_lines.
Proof.
  unfold Logged.main, script_lines.
  change (lines 20 "process_song_data" song_messages
          ++ lines 20 "process_log_data" log_messages)
    with ([] ++ [] ++ [] ++ [] ++ [] ++ []
          ++ lines 20 "process_song_data" song_messages
          ++ lines 20 "process_log_data" log_messages).
  do 5 (apply reports_bind; [apply writes_run|intros ?|vm_compute; discriminate]).
  apply reports_bind; [apply writes_getOrCreate|intros _|vm_compute; discriminate].
  apply reports_bind; [|intros _|vm_compute; discriminate].
  - apply reports_writes, process_song_data_reports. by right.
  - apply process_log_data_reports. by right.
Qed.

(** The process once the script has created its logger and bound it. *)
Lemma script_configured (st : State) (dm : option bool) :
  configured
    (mkProcess st
       (<["__main__" := mkLogger (if negb (truthy dm) then 20 else 10)
                                 [mkHandler 0 etl_format]]> ∅)
       (Some "__main__") [] None)
    (if negb (truthy dm) then 20 else 10).
Proof.
  split_and!; [done|cbn [loggers]; by rewrite lookup_insert_eq|].
  unfold getLogger. cbn [loggers]. by rewrite lookup_insert_ne.
Qed.

Lemma module_as_script (spark : Engine) (W : World) (st : State) :
  Logged.module spark W "__main__" (fresh_with st)
  = Logged.main spark W
      (mkProcess st
         (<["__main__" := mkLogger 20 [mkHandler 0 etl_format]]> ∅)
         (Some "__main__") [] None).
Proof. reflexivity. Qed.

(** X16.  In a fresh interpreter the script writes an initial segment of
    its 25 lines at INFO and WARNING, each formatted
    [etl.py:function:LEVEL:message]; the two DEBUG messages are not
    written; and the whole list is written exactly when the run
    completes. *)
Theorem script_log_tells_outcome (spark : Engine) (W : World) (st : State) :
  stderr (Logged.module spark W "__main__" (fresh_with st)).2 `prefix_of` script_lines /\
  ((Logged.module spark W "__main__" (fresh_with st)).1 = Done tt <->
   stderr (Logged.module spark W "__main__" (fresh_with st)).2 = script_lines).
Proof.
  rewrite module_as_script.
  pose proof (script_configured st (Some false)) as Hc.
  match goal with
  | |- context [Logged.main spark W ?p] =>
      destruct (main_reports spark W p) as (_ & w & Hw & Hp & Hiff); [exact Hc|]
  end.
  cbn [stderr app] in Hw. rewrite Hw. split; [done|].
  rewrite <- Hiff. split; [eauto|]. by intros [[] ?].
Qed.

(** ** The logger, the import and the session *)

(** X17.  Under the logger of [create_logger(debug_mode)] the metadata
    phase writes an initial segment of its lines at the level of the
    logger, all of them exactly when it completes; the DEBUG lines are
    among them exactly when [debug_mode] is true. *)
Theorem debug_lines_need_debug_mode (spark : Engine) (W : World)
    (inp out : string) (st : State) (debug_mode : option bool) :
  stderr (song_phase spark W inp out debug_mode (fresh_with st)).2
    `prefix_of` lines (logger_level debug_mode) "process_song_data" song_messages /\
  ((song_phase spark W inp out debug_mode (fresh_with st)).1 = Done tt <->
   stderr (song_phase spark W inp out debug_mode (fresh_with st)).2
   = lines (logger_level debug_mode) "process_song_data" song_messages) /\
  (line "process_song_data" DEBUG "Done."
     ∈ lines (logger_level debug_mode) "process_song_data" song_messages
   <-> truthy debug_mode = true).
Proof.
  assert (Hrun : song_phase spark W inp out debug_mode (fresh_with st)
    = Logged.process_song_data spark W inp out
        (mkProcess st
           (<["__main__" := mkLogger (logger_level debug_mode)
                                     [mkHandler 0 etl_format]]> ∅)
           (Some "__main__") [] None)).
  { by destruct debug_mode as [[]|]. }
  rewrite Hrun.
  pose proof (script_configured st debug_mode) as Hc.
  fold (logger_level debug_mode) in Hc.
  assert (Hlevel : logger_level debug_mode = 10 \/ logger_level debug_mode = 20).
  { unfold logger_level. destruct (negb _); auto. }
  destruct (process_song_data_reports spark W inp out _ Hlevel _ Hc)
    as (_ & w & Hw & Hp & Hiff).
  cbn [stderr app] in Hw. rewrite Hw. split_and!; [done| |].
  - rewrite <- Hiff. split; [eauto|]. by intros [[] ?].
  - unfold logger_level. destruct (truthy debug_mode); simpl negb; cbv iota.
    + split; [done|]. intros _. vm_compute. is_in.
    + split; [|done]. intros H. vm_compute in H.
      repeat (apply elem_of_cons in H as [H|H]; [discriminate|]).
      by apply elem_of_nil in H.
Qed.

(** The state [create_loggers] leaves. *)
Lemma create_loggers_state (modes : list (option bool)) (ps : Process) :
  (create_loggers "__main__" modes ps).1 = Done tt /\
  job (create_loggers "__main__" modes ps).2 = job ps /\
  stderr (create_loggers "__main__" modes ps).2 = stderr ps /\
  getLogger "" (create_loggers "__main__" modes ps).2 = getLogger "" ps /\
  lg_handlers (getLogger "__main__" (create_loggers "__main__" modes ps).2)
  = lg_handlers (getLogger "__main__" ps)
    ++ replicate (length modes) (mkHandler 0 etl_format) /\
  (modes = [] ->
   lg_level (getLogger "__main__" (create_loggers "__main__" modes ps).2)
   = lg_level (getLogger "__main__" ps)) /\
  (modes <> [] ->
   lg_level (getLogger "__main__" (create_loggers "__main__" modes ps).2) = 10 \/
   lg_level (getLogger "__main__" (create_loggers "__main__" modes ps).2) = 20).
Proof.
  revert ps. induction modes as [|mode modes IH]; intros ps.
  - simpl. rewrite app_nil_r. split_and!; done.
  - cbn [create_loggers]. unfold pbind. cbn [create_logger fst snd].
    change (basename "__main__") with "__main__".
    set (ps1 := mkProcess _ _ _ _ _).
    destruct (IH ps1) as (H1 & H2 & H3 & H4 & H5 & H6 & H7).
    assert (Hown : getLogger "__main__" ps1
      = mkLogger (if negb (truthy mode) then levelno INFO else levelno DEBUG)
                 (lg_handlers (getLogger "__main__" ps) ++ [mkHandler 0 etl_format])).
    { unfold getLogger, ps1. cbn [loggers]. by rewrite lookup_insert_eq. }
    assert (Hroot : getLogger "" ps1 = getLogger "" ps).
    { unfold getLogger, ps1. cbn [loggers]. by rewrite lookup_insert_ne. }
    split_and!; try done.
    + by rewrite H4.
    + rewrite H5, Hown. cbn [lg_handlers length replicate].
      rewrite <- app_assoc. done.
    + intros _. destruct modes as [|m' modes'].
      * rewrite H6 by done. rewrite Hown. cbn [lg_level].
        destruct (negb _); auto.
      * apply H7. done.
Qed.

Lemma replicate_emit (n : nat) (r : LogRecord) :
  replicate n (mkHandler 0 etl_format) ≫= (fun h => emit h r)
  = replicate n (formatted r).
Proof.
  induction n as [|n IH]; [done|]. cbn [replicate mbind list_bind].
  change (list_bind ?f ?l) with (l ≫= f). rewrite IH.
  unfold emit. cbn [h_level h_fmt]. rewrite format_record.
  by destruct (rec_level r).
Qed.

(** X18.  Every call of [create_logger] adds a handler to the same
    logger: after [n] calls a message at INFO is written [n] times. *)
Theorem create_logger_again_repeats_lines (modes : list (option bool))
    (st : State) (func msg : string) :
  stderr (logged_once modes func msg (fresh_with st)).2
  = replicate (length modes) (line func INFO msg).
Proof.
  unfold logged_once, pbind.
  destruct (create_loggers_state modes (fresh_with st))
    as (H1 & H2 & H3 & H4 & H5 & H6 & H7).
  destruct (create_loggers "__main__" modes (fresh_with st)) as [r ps1].
  cbn [fst snd] in *. subst r. cbn [set_logger].
  set (ps2 := mkProcess _ _ _ _ _).
  assert (Hg : forall n, getLogger n ps2 = getLogger n ps1) by done.
  unfold log. cbn [logger ps2]. unfold effective_level, handle, handlers_for.
  rewrite !Hg, H4. cbn [stderr ps2]. rewrite H3.
  change (getLogger "" (fresh_with st)) with (unconfigured "").
  change (getLogger "__main__" (fresh_with st)) with (unconfigured "__main__") in *.
  cbn [unconfigured lg_handlers lg_level app] in *.
  rewrite decide_True by done. rewrite decide_False by done.
  rewrite app_nil_r, H5.
  destruct modes as [|mode modes].
  - rewrite H6 by done. done.
  - assert (Hen : (lg_level (getLogger "__main__" ps1) =? 0) = false /\
                  (lg_level (getLogger "__main__" ps1) <=? levelno INFO) = true).
    { destruct H7 as [-> | ->]; done. }
    destruct Hen as [-> ->]. cbn [length replicate stderr fresh_with snd app].
    change (?h :: replicate ?n ?h) with (replicate (S n) h).
    rewrite replicate_emit. done.
Qed.

(** With credentials, [main] sets them, gets its session and runs the
    two phases. *)
Lemma logged_main_configured (E : Engine) (W : World) (ps : Process)
    (key secret : string) :
  credentials_of W = Some (key, secret) ->
  Logged.main E W ps
  = pbind (Logged.process_song_data E W input_data output_data)
          (fun _ => Logged.process_log_data E W input_data output_data)
          (with_session ps key secret).
Proof.
  unfold credentials_of, Logged.main, with_session.
  unfold pbind at 1 2 3 4 5 6. unfold run.
  unfold read_config, config_get, setenv, ret, raise.
  rewrite lower_access_key, lower_secret_key.
  destruct (local_files W !! "dl.cfg") as [[|c]|]; try done.
  destruct (assoc "AWS" c) as [opts|]; try done.
  cbn [job].
  destruct (assoc "aws_access_key_id" opts) as [k|]; try done.
  cbn [job environ views reads output].
  destruct (assoc "aws_secret_access_key" opts) as [s|]; try done.
  intros [= -> ->]. reflexivity.
Qed.

(** X19.  On import the module binds no [logger].  [main()] called after
    an import sets the credentials, gets its session, and stops with a
    [NameError] at the first log call: nothing is read, registered,
    saved or written. *)
Theorem imported_main_raises_NameError (spark : Engine) (W : World)
    (name : string) (st : State) (key secret : string) :
  name <> "__main__" ->
  credentials_of W = Some (key, secret) ->
  import_then_main spark W name (fresh_with st)
  = (Throw (NameError "logger"), with_session (fresh_with st) key secret).
Proof.
  intros Hname Hc. unfold import_then_main, Logged.module.
  rewrite decide_False by done. unfold pbind at 1. cbn [pret].
  rewrite (logged_main_configured _ _ _ _ _ Hc). reflexivity.
Qed.

Lemma imported_main_raises_NameError_witness :
  "etl" <> "__main__" /\
  credentials_of sample_world = Some ("AKIA", "s3cr3t") /\
  import_then_main utc_engine sample_world "etl" (fresh_with initial)
  = (Throw (NameError "logger"),
     with_session (fresh_with initial) "AKIA" "s3cr3t").
Proof.
  assert (H1 : "etl" <> "__main__") by discriminate.
  assert (H2 : credentials_of sample_world = Some ("AKIA", "s3cr3t"))
    by (vm_compute; reflexivity).
  split; [exact H1|]. split; [exact H2|].
  exact (imported_main_raises_NameError utc_engine sample_world "etl" initial
           "AKIA" "s3cr3t" H1 H2).
Defined.

Section Session.

Context {A B : Type}.

Lemma session_run (m : M A) (ps : Process) : session (run m ps).2 = session ps.
Proof. by rewrite run_eq. Qed.

Lemma session_log (f : string) (lvl : Level) (msg : string) (ps : Process) :
  session (log f lvl msg ps).2 = session ps.
Proof. unfold log. by repeat case_match. Qed.

Lemma session_bind (m : P A) (k : A -> P B) :
  (forall ps, session (m ps).2 = session ps) ->
  (forall a ps, session (k a ps).2 = session ps) ->
  forall ps, session (pbind m k ps).2 = session ps.
Proof.
  intros Hm Hk ps. unfold pbind. specialize (Hm ps).
  destruct (m ps) as [[a|x] ps1]; simpl in *; [|done]. by rewrite Hk.
Qed.

End Session.

Ltac session_steps :=
  repeat (apply session_bind; [|intros ?]);
  first [apply session_run | apply session_log].

Lemma process_song_data_session (E : Engine) (W : World) (inp out : string)
    (ps : Process) :
  session (Logged.process_song_data E W inp out ps).2 = session ps.
Proof.
  revert ps. unfold Logged.process_song_data. cbv zeta. session_steps.
Qed.

Lemma process_log_data_session (E : Engine) (W : World) (inp out : string)
    (ps : Process) :
  session (Logged.process_log_data E W inp out ps).2 = session ps.
Proof.
  revert ps. unfold Logged.process_log_data. cbv zeta. session_steps.
Qed.

(** X20.  [main] gets its session after the credentials are in the
    environment: the session has the hadoop-aws package option, a new
    session is launched with both credentials in its environment, and a
    session that was active already is reused with the environment it
    was launched with. *)
Theorem session_after_credentials (spark : Engine) (W : World) (ps : Process)
    (key secret : string) :
  credentials_of W = Some (key, secret) ->
  exists s,
    session (Logged.main spark W ps).2 = Some s /\
    conf s !! "spark.jars.packages" = Some hadoop_aws /\
    (session ps = None ->
     jvm_environ s !! "AWS_ACCESS_KEY_ID" = Some key /\
     jvm_environ s !! "AWS_SECRET_ACCESS_KEY" = Some secret) /\
    (forall s0, session ps = Some s0 -> jvm_environ s = jvm_environ s0).
Proof.
  intros Hc. rewrite (logged_main_configured _ _ _ _ _ Hc).
  rewrite session_bind;
    [|apply process_song_data_session|intros _; apply process_log_data_session].
  unfold with_session. cbn [session]. eexists. split; [reflexivity|].
  cbn [conf jvm_environ]. split_and!.
  - by rewrite lookup_insert_eq.
  - intros ->. cbn [environ with_credentials jvm_environ]. split.
    + by rewrite lookup_insert_ne, lookup_insert_eq.
    + by rewrite lookup_insert_eq.
  - by intros s0 ->.
Qed.

Lemma session_after_credentials_witness :
  credentials_of sample_world = Some ("AKIA", "s3cr3t") /\
  exists s,
    session (Logged.main utc_engine sample_world (fresh_with initial)).2 = Some s /\
    conf s !! "spark.jars.packages" = Some hadoop_aws /\
    (session (fresh_with initial) = None ->
     jvm_environ s !! "AWS_ACCESS_KEY_ID" = Some "AKIA" /\
     jvm_environ s !! "AWS_SECRET_ACCESS_KEY" = Some "s3cr3t") /\
    (forall s0, session (fresh_with initial) = Some s0 ->
       jvm_environ s = jvm_environ s0).
Proof.
  assert (H2 : credentials_of sample_world = Some ("AKIA", "s3cr3t"))
    by (vm_compute; reflexivity).
  split; [exact H2|].
  exact (session_after_credentials utc_engine sample_world (fresh_with initial)
           "AKIA" "s3cr3t" H2).
Defined.
